(** * OpenBob: the window tracking and time-accounting engine

    A shallow embedding of [core/data_models.py], [core/time_tracker.py],
    [core/window_tracker_factory.py], the native trackers
    ([core/window_tracker_windows.py], [core/window_tracker_macos.py]),
    [core/simulation.py], [core/personification.py], [utils/formatters.py]
    and [main.py], followed by the properties of the reconciliation cycle
    and of what feeds it and reads it.

    Conventions of the embedding.
    - Instants ([datetime], [time.time()]) and durations ([timedelta], the
      float [interval]) are integers counting microseconds, the resolution of
      [timedelta]; [timedelta(seconds=interval)] is then the identity.
    - [WindowInfo] objects live in a store ([objects]) and are named by their
      address; the dictionary [_windows] maps a handle to an address and keeps
      Python's insertion order.  Mutating an object is an update of the store
      at its address, so every holder of the address sees it.
    - The wall clock is an oracle: [clock n] is the [n]-th reading taken
      during one call, and a run is given one such sequence per call.
    - What lies outside the program is an input: the answers of win32, psutil,
      Quartz and AppKit, the draws of [random], and Python's own string
      methods. *)

From Stdlib Require Import ZArith Ascii String List Bool Lia DecimalString DecimalPos.
From stdpp Require Import base option list gmap strings.
Import ListNotations.

Local Open Scope string_scope.
Local Open Scope Z_scope.
Local Open Scope list_scope.

(* ===================================================================== *)
(** ** core/data_models.py *)
(* ===================================================================== *)

Record WindowInfo : Type := mkWindowInfo {
  hwnd : Z;
  title : string;
  process_name : string;
  first_seen : Z;
  last_seen : Z;
  total_open_time : Z;
  active_time : Z;
  is_active : bool;
  is_visible : bool
}.

(** Attribute assignments [w.field = v]. *)
Definition set_title (v : string) (w : WindowInfo) : WindowInfo :=
  mkWindowInfo (hwnd w) v (process_name w) (first_seen w) (last_seen w)
    (total_open_time w) (active_time w) (is_active w) (is_visible w).

Definition set_first_seen (v : Z) (w : WindowInfo) : WindowInfo :=
  mkWindowInfo (hwnd w) (title w) (process_name w) v (last_seen w)
    (total_open_time w) (active_time w) (is_active w) (is_visible w).

Definition set_last_seen (v : Z) (w : WindowInfo) : WindowInfo :=
  mkWindowInfo (hwnd w) (title w) (process_name w) (first_seen w) v
    (total_open_time w) (active_time w) (is_active w) (is_visible w).

Definition set_total_open_time (v : Z) (w : WindowInfo) : WindowInfo :=
  mkWindowInfo (hwnd w) (title w) (process_name w) (first_seen w) (last_seen w)
    v (active_time w) (is_active w) (is_visible w).

Definition set_active_time (v : Z) (w : WindowInfo) : WindowInfo :=
  mkWindowInfo (hwnd w) (title w) (process_name w) (first_seen w) (last_seen w)
    (total_open_time w) v (is_active w) (is_visible w).

Definition set_is_active (v : bool) (w : WindowInfo) : WindowInfo :=
  mkWindowInfo (hwnd w) (title w) (process_name w) (first_seen w) (last_seen w)
    (total_open_time w) (active_time w) v (is_visible w).

Definition set_is_visible (v : bool) (w : WindowInfo) : WindowInfo :=
  mkWindowInfo (hwnd w) (title w) (process_name w) (first_seen w) (last_seen w)
    (total_open_time w) (active_time w) (is_active w) v.

(** [WindowInfo.update_times(interval, is_currently_active)].  The method
    reads [datetime.now()] twice: [now_seen] for [last_seen], [now_open] for
    [total_open_time]. *)
Definition update_times (now_seen now_open interval : Z)
    (is_currently_active : bool) (self : WindowInfo) : WindowInfo :=
  let self := set_last_seen now_seen self in
  let self := set_total_open_time (now_open - first_seen self) self in
  if is_currently_active
  then set_is_active true (set_active_time (active_time self + interval) self)
  else set_is_active false self.

(** [WindowInfo.__eq__]: two objects are equal when their handles are. *)
Definition WindowInfo_eq (a b : WindowInfo) : bool := hwnd a =? hwnd b.

(* ===================================================================== *)
(** ** config.py *)
(* ===================================================================== *)

(** [WINDOW_ENUMERATION_INTERVAL = 1.0] seconds. *)
Definition WINDOW_ENUMERATION_INTERVAL : Z := 1000000.

(* ===================================================================== *)
(** ** The snapshot built by the native trackers *)
(* ===================================================================== *)

(** What a tracker has found for one window when it calls the constructor:
    handle, title, process name and the focus flag. *)
Definition Found : Type := Z * string * string * bool.

(** [WindowInfo(hwnd=…, title=…, process_name=…, is_active=…,
    is_visible=True)], the call made by both [WindowsWindowTracker] and
    [MacOSWindowTracker]; the dataclass defaults fill [first_seen] and
    [last_seen] from the clock and both durations with [timedelta()]. *)
Definition tracker_WindowInfo (now1 now2 : Z) (f : Found) : WindowInfo :=
  let '(h, t, p, a) := f in mkWindowInfo h t p now1 now2 0 0 a true.

(** [enumerate_windows()]: one object per window found, in order; [n] counts
    the clock readings taken so far in this call. *)
Fixpoint enumerate_windows (clock : nat → Z) (n : nat) (found : list Found)
    : list WindowInfo * nat :=
  match found with
  | [] => ([], n)
  | f :: found' =>
      let '(ws, n') := enumerate_windows clock (S (S n)) found' in
      (tracker_WindowInfo (clock n) (clock (S n)) f :: ws, n')
  end.

(** [WindowsWindowTracker]: [is_active = (hwnd == active_hwnd)], where
    [active_hwnd] is the foreground window or [None]. *)
Definition WindowsWindowTracker_found (valid : list (Z * string * string))
    (active_hwnd : option Z) : list Found :=
  map (λ '(h, t, p), (h, t, p, bool_decide (Some h = active_hwnd))) valid.

(** [MacOSWindowTracker]: [is_active = (owner == active_app_name)]. *)
Definition MacOSWindowTracker_found (onscreen : list (Z * string * string))
    (active_app_name : string) : list Found :=
  map (λ '(h, t, owner), (h, t, owner, String.eqb owner active_app_name))
      onscreen.

(* ===================================================================== *)
(** ** core/time_tracker.py *)
(* ===================================================================== *)

Inductive Level : Type := DEBUG | INFO | WARNING | ERROR.

(** The f-strings of the module, kept structured. *)
Inductive Message : Type :=
  | Text (s : string)
  | NewWindowTracked (title process_name : string)
  | WindowNoLongerVisible (hwnd : Z)
  | ErrorInTrackingLoop (e : string).

(** What the engine does to the outside: log records and sleeps. *)
Inductive Event : Type :=
  | Logged (level : Level) (msg : Message)
  | Slept (duration : Z).

Record TimeTracker : Type := mkTimeTracker {
  objects : list WindowInfo;
  _windows : list (Z * nat);
  _running : bool;
  _last_update_time : option Z;
  _simulation_mode : bool;
  events : list Event
}.

Definition set_objects (v : list WindowInfo) (self : TimeTracker) : TimeTracker :=
  mkTimeTracker v (_windows self) (_running self) (_last_update_time self)
    (_simulation_mode self) (events self).

Definition set__windows (v : list (Z * nat)) (self : TimeTracker) : TimeTracker :=
  mkTimeTracker (objects self) v (_running self) (_last_update_time self)
    (_simulation_mode self) (events self).

Definition set__running (v : bool) (self : TimeTracker) : TimeTracker :=
  mkTimeTracker (objects self) (_windows self) v (_last_update_time self)
    (_simulation_mode self) (events self).

Definition set__last_update_time (v : option Z) (self : TimeTracker) : TimeTracker :=
  mkTimeTracker (objects self) (_windows self) (_running self) v
    (_simulation_mode self) (events self).

Definition emit (e : Event) (self : TimeTracker) : TimeTracker :=
  mkTimeTracker (objects self) (_windows self) (_running self)
    (_last_update_time self) (_simulation_mode self) (events self ++ [e]).

(** *** The dictionary *)

(** [d.get(k)] *)
Fixpoint dict_get (d : list (Z * nat)) (k : Z) : option nat :=
  match d with
  | [] => None
  | (k', a) :: d' => if k =? k' then Some a else dict_get d' k
  end.

(** [d[k] = a]: in place for a key already there, appended otherwise. *)
Fixpoint dict_set (d : list (Z * nat)) (k : Z) (a : nat) : list (Z * nat) :=
  match d with
  | [] => [(k, a)]
  | (k', a') :: d' =>
      if k =? k' then (k', a) :: d' else (k', a') :: dict_set d' k a
  end.

Definition keys (d : list (Z * nat)) : list Z := map fst d.
Definition values (d : list (Z * nat)) : list nat := map snd d.

(** *** Construction *)

(** [TimeTracker(simulation_mode)], once the source has been obtained. *)
Definition TimeTracker_init (simulation_mode : bool) : TimeTracker :=
  mkTimeTracker [] [] false None simulation_mode
    (if simulation_mode
     then [Logged INFO (Text "TimeTracker initialized in SIMULATION mode")]
     else []).

(** *** Lifecycle *)

Definition start (clock : nat → Z) (self : TimeTracker) : TimeTracker :=
  if _running self
  then emit (Logged WARNING (Text "TimeTracker already running")) self
  else emit (Logged INFO (Text "TimeTracker started"))
         (set__last_update_time (Some (clock 0%nat)) (set__running true self)).

Definition stop (self : TimeTracker) : TimeTracker :=
  if negb (_running self)
  then emit (Logged WARNING (Text "TimeTracker not running")) self
  else emit (Logged INFO (Text "TimeTracker stopped")) (set__running false self).

Definition clear (self : TimeTracker) : TimeTracker :=
  emit (Logged INFO (Text "TimeTracker data cleared")) (set__windows [] self).

(** *** Readers *)

(** [list(self._windows.values())]: a new list of the objects in the map. *)
Definition get_all_windows (self : TimeTracker) : list nat :=
  values (_windows self).

(** [self._windows.get(hwnd)] *)
Definition get_window (self : TimeTracker) (h : Z) : option nat :=
  dict_get (_windows self) h.

(** Reading the fields of an object one holds. *)
Definition deref (self : TimeTracker) (a : nat) : option WindowInfo :=
  objects self !! a.

(** The record of a handle as the engine has it now. *)
Definition window (self : TimeTracker) (h : Z) : option WindowInfo :=
  get_window self h ≫= deref self.

(** [self._windows.values()], dereferenced, in the order of iteration. *)
Definition window_values (self : TimeTracker) : list WindowInfo :=
  omap (deref self) (values (_windows self)).

Record Stats : Type := mkStats {
  total_windows : nat;
  visible_windows : nat;
  active_window : option string;
  is_running : bool;
  simulation_mode : bool
}.

Definition get_stats (self : TimeTracker) : Stats :=
  let total_windows := length (_windows self) in
  let visible_windows := length (filter (λ w, is_visible w = true) (window_values self)) in
  let active_window := find is_active (window_values self) in
  mkStats total_windows visible_windows (title <$> active_window)
    (_running self) (_simulation_mode self).

(** *** The reconciliation cycle *)

(** What the source answers in one cycle.
    - [SimulationUpdate ws a]: [self._simulation.update()] returned the
      tuples [ws] and the focused handle [a];
    - [Enumerated found]: the native tracker found these windows, from which
      [enumerate_windows()] builds its list;
    - [SourceRaises e]: the call into the source raised [e]. *)
Inductive Poll : Type :=
  | SimulationUpdate (current_windows : list (Z * string * string)) (active_hwnd : Z)
  | Enumerated (found : list Found)
  | SourceRaises (e : string).

(** Body of the loop over the tuples of the simulation (lines 157-178).
    The accumulator pairs the engine with the number of clock readings. *)
Definition track_tuple (clock : nat → Z) (interval active_hwnd : Z)
    (acc : TimeTracker * nat) (entry : Z * string * string) : TimeTracker * nat :=
  let '(self, n) := acc in
  let '(h, t, p) := entry in
  let is_currently_active := h =? active_hwnd in
  match dict_get (_windows self) h with
  | Some a =>
      let refresh window_info :=
        set_is_visible true
          (set_title t
             (update_times (clock n) (clock (S n)) interval is_currently_active
                window_info)) in
      (set_objects (alter refresh a (objects self)) self, S (S n))
  | None =>
      let window_info :=
        mkWindowInfo h t p (clock n) (clock (S n)) 0 0 is_currently_active true in
      let a := length (objects self) in
      (emit (Logged INFO (NewWindowTracked t p))
         (set__windows (dict_set (_windows self) h a)
            (set_objects (objects self ++ [window_info]) self)),
       S (S n))
  end.

(** Body of the loop over the objects of a native tracker (lines 181-197).
    A new window keeps the very object the tracker built. *)
Definition track_info (clock : nat → Z) (interval : Z)
    (acc : TimeTracker * nat) (window_info : WindowInfo) : TimeTracker * nat :=
  let '(self, n) := acc in
  let h := hwnd window_info in
  let is_currently_active := is_active window_info in
  match dict_get (_windows self) h with
  | Some a =>
      let refresh existing :=
        set_is_active is_currently_active
          (set_is_visible (is_visible window_info)
             (set_title (title window_info)
                (update_times (clock n) (clock (S n)) interval
                   is_currently_active existing))) in
      (set_objects (alter refresh a (objects self)) self, S (S n))
  | None =>
      let window_info :=
        set_last_seen (clock (S n)) (set_first_seen (clock n) window_info) in
      let a := length (objects self) in
      (emit (Logged INFO (NewWindowTracked (title window_info) (process_name window_info)))
         (set__windows (dict_set (_windows self) h a)
            (set_objects (objects self ++ [window_info]) self)),
       S (S n))
  end.

(** Body of the loop that marks the windows no longer visible
    (lines 200-204). *)
Definition mark_hidden (current_hwnds : gset Z) (self : TimeTracker) (h : Z)
    : TimeTracker :=
  if bool_decide (h ∈ current_hwnds) then self
  else match dict_get (_windows self) h with
       | Some a =>
           emit (Logged DEBUG (WindowNoLongerVisible h))
             (set_objects (alter (set_is_visible false) a (objects self)) self)
       | None => self
       end.

(** [_update_windows(interval)].  The result carries the exception, if one
    was raised, next to the engine as it is at that point.  An answer that is
    not of the shape of the configured source is no answer of that source:
    the call fails like one that raises. *)
Definition _update_windows (clock : nat → Z) (n : nat) (interval : Z)
    (poll : Poll) (self : TimeTracker) : TimeTracker * option string :=
  match poll, _simulation_mode self with
  | SourceRaises e, _ => (self, Some e)
  | SimulationUpdate current_windows active_hwnd, true =>
      let current_hwnds : gset Z := list_to_set (map (λ e, e.1.1) current_windows) in
      let '(self, _) :=
        fold_left (track_tuple clock interval active_hwnd) current_windows (self, n) in
      (fold_left (mark_hidden current_hwnds) (keys (_windows self)) self, None)
  | Enumerated found, false =>
      let '(windows, n) := enumerate_windows clock n found in
      let current_hwnds : gset Z := list_to_set (map hwnd windows) in
      let '(self, _) := fold_left (track_info clock interval) windows (self, n) in
      (fold_left (mark_hidden current_hwnds) (keys (_windows self)) self, None)
  | _, _ => (self, Some "TypeError")
  end.

(** One turn of [while self._running] in [_tracking_loop], entered with the
    flag set.  Before [start()] there is no [_last_update_time] to subtract
    from, which raises inside the [try] as well. *)
Definition tracking_cycle (clock : nat → Z) (poll : Poll) (self : TimeTracker)
    : TimeTracker :=
  let current_time := clock 0%nat in
  match _last_update_time self with
  | None =>
      emit (Slept WINDOW_ENUMERATION_INTERVAL)
        (emit (Logged ERROR (ErrorInTrackingLoop "TypeError")) self)
  | Some last =>
      let interval := current_time - last in
      let self := set__last_update_time (Some current_time) self in
      match _update_windows clock 1 interval poll self with
      | (self, None) => emit (Slept WINDOW_ENUMERATION_INTERVAL) self
      | (self, Some e) =>
          emit (Slept WINDOW_ENUMERATION_INTERVAL)
            (emit (Logged ERROR (ErrorInTrackingLoop e)) self)
      end
  end.

(** *** Runs *)

(** What can happen to an engine: the three calls of its owner and one turn
    of the loop of its thread. *)
Inductive Call : Type :=
  | Start
  | Stop
  | Clear
  | Cycle (poll : Poll).

Definition exec (clock : nat → Z) (c : Call) (self : TimeTracker) : TimeTracker :=
  match c with
  | Start => start clock self
  | Stop => stop self
  | Clear => clear self
  | Cycle poll => if _running self then tracking_cycle clock poll self else self
  end.

(** [run clock i calls self]: the calls in order, the first being the
    [i]-th of the history and reading the clock as [clock i]. *)
Fixpoint run (clock : nat → nat → Z) (i : nat) (calls : list Call)
    (self : TimeTracker) : TimeTracker :=
  match calls with
  | [] => self
  | c :: calls' => run clock (S i) calls' (exec (clock i) c self)
  end.

(** A clock that never runs backwards, within a call and from one call to
    the next. *)
Definition monotone (clock : nat → nat → Z) : Prop :=
  (∀ i n m, (n ≤ m)%nat → clock i n ≤ clock i m) ∧
  (∀ i n m, clock i n ≤ clock (S i) m).

(** A clock that does not advance while a call is being served. *)
Definition instantaneous (clock : nat → nat → Z) : Prop :=
  ∀ i n, clock i n = clock i 0%nat.

Definition seconds (s : Z) : Z := s * 1000000.

(* ===================================================================== *)
(** ** core/window_tracker_factory.py *)
(* ===================================================================== *)

(** What the factory looks at: [sys.platform] and whether the imports at the
    top of each tracker module succeeded. *)
Record Host : Type := mkHost {
  sys_platform : string;
  WINDOWS_AVAILABLE : bool;
  MACOS_AVAILABLE : bool
}.

Inductive Tracker : Type := WindowsWindowTracker | MacOSWindowTracker.

(** [is_supported()] of each tracker. *)
Definition is_supported (host : Host) (t : Tracker) : bool :=
  match t with
  | WindowsWindowTracker =>
      String.eqb (sys_platform host) "win32" && WINDOWS_AVAILABLE host
  | MacOSWindowTracker =>
      String.eqb (sys_platform host) "darwin" && MACOS_AVAILABLE host
  end.

Definition newline : string := String (Ascii.ascii_of_nat 10) EmptyString.

Definition unsupported_platform (platform : string) : string :=
  "Unsupported platform: " +:+ platform +:+
  ". This application requires Windows or macOS.".

Definition pywin32_missing : string :=
  newline +:+ newline +:+
  "Windows detected but pywin32 is not installed. Install with:" +:+ newline +:+
  "  pip install pywin32".

Definition pyobjc_missing : string :=
  newline +:+ newline +:+
  "macOS detected but PyObjC is not installed. Install with:" +:+ newline +:+
  "  pip install pyobjc-core pyobjc-framework-Cocoa pyobjc-framework-Quartz".

(** [create_window_tracker()]: the tracker, or the message of the
    [RuntimeError] it raises. *)
Definition create_window_tracker (host : Host) : Tracker + string :=
  if is_supported host WindowsWindowTracker then inl WindowsWindowTracker
  else if is_supported host MacOSWindowTracker then inl MacOSWindowTracker
  else
    let platform := sys_platform host in
    let error_msg := unsupported_platform platform in
    let error_msg :=
      if String.eqb platform "win32" then error_msg +:+ pywin32_missing
      else if String.eqb platform "darwin" then error_msg +:+ pyobjc_missing
      else error_msg in
    inr error_msg.

(** [needle in s] *)
Fixpoint contains (needle s : string) : bool :=
  String.prefix needle s ||
  match s with
  | EmptyString => false
  | String _ s' => contains needle s'
  end.

(* ===================================================================== *)
(** ** Views used by the proofs *)
(* ===================================================================== *)

Definition handle (f : Found) : Z := f.1.1.1.

(** A tuple of the simulation, read as what a tracker would have found. *)
Definition tuple_found (active_hwnd : Z) (e : Z * string * string) : Found :=
  (e.1.1, e.1.2, e.2, e.1.1 =? active_hwnd).

(** What the source reported, whatever its kind. *)
Definition reported (poll : Poll) : list Found :=
  match poll with
  | SimulationUpdate ws a => map (tuple_found a) ws
  | Enumerated found => found
  | SourceRaises _ => []
  end.

(** The object of a window tracked already, after one more sighting. *)
Definition refresh (now_seen now_open interval : Z) (f : Found)
    (existing : WindowInfo) : WindowInfo :=
  set_is_active f.2
    (set_is_visible true
       (set_title f.1.1.2
          (update_times now_seen now_open interval f.2 existing))).

(** The object stored for a window sighted for the first time. *)
Definition adopt (now1 now2 : Z) (f : Found) : WindowInfo :=
  mkWindowInfo (handle f) f.1.1.2 f.1.2 now1 now2 0 0 f.2 true.

(** One sighting, whichever the loop. *)
Definition track_found (clock : nat → Z) (interval : Z)
    (acc : TimeTracker * nat) (f : Found) : TimeTracker * nat :=
  track_info clock interval acc (tracker_WindowInfo 0 0 f).

(** Both loops of the locked section, over what was reported. *)
Definition reconcile (clock : nat → Z) (n : nat) (interval : Z)
    (fs : list Found) (self : TimeTracker) : TimeTracker :=
  fold_left (mark_hidden (list_to_set (map handle fs)))
    (keys (_windows (fold_left (track_found clock interval) fs (self, n)).1))
    (fold_left (track_found clock interval) fs (self, n)).1.

(** The record of handle [h] after the sightings [fs], from its record [r]
    before them. *)
Fixpoint record_after (clock : nat → Z) (n : nat) (interval : Z)
    (fs : list Found) (h : Z) (r : option WindowInfo) : option WindowInfo :=
  match fs with
  | [] => r
  | f :: fs' =>
      record_after clock (S (S n)) interval fs' h
        (if decide (h = handle f)
         then Some (match r with
                    | Some w => refresh (clock n) (clock (S n)) interval f w
                    | None => adopt (clock n) (clock (S n)) f
                    end)
         else r)
  end.


(** The source answered, in the shape the engine expects of it. *)
Definition answered (self : TimeTracker) (poll : Poll) : bool :=
  match poll, _simulation_mode self with
  | SimulationUpdate _ _, true => true
  | Enumerated _, false => true
  | _, _ => false
  end.

(** The exception of a cycle whose source did not answer. *)
Definition failure (poll : Poll) : string :=
  match poll with
  | SourceRaises e => e
  | _ => "TypeError"
  end.

(** Clock readings taken in a cycle before the locked section. *)
Definition first_tick (poll : Poll) : nat :=
  match poll with
  | Enumerated found => 1 + 2 * length found
  | _ => 1
  end.

(** Every object of the map is in the store and carries the handle it is
    filed under; a running engine has a previous cycle time. *)
Definition sound (self : TimeTracker) : Prop :=
  (∀ h a, get_window self h = Some a →
          ∃ w, deref self a = Some w ∧ hwnd w = h) ∧
  (_running self = true → is_Some (_last_update_time self)).

Definition reachable (self : TimeTracker) : Prop :=
  ∃ clock calls mode, self = run clock 0 calls (TimeTracker_init mode).

(* ===================================================================== *)
(** ** Scenarios and predicates of the statements *)
(* ===================================================================== *)

(** A clock that gives every call its index in seconds. *)
Definition one_per_second (i : nat) (n : nat) : Z := seconds (Z.of_nat i).

(** Two cycles of the simulation: [Editor] is focused, then it is gone and
    [Browser] is focused. *)
Definition editor_then_browser : list Call :=
  [Start;
   Cycle (SimulationUpdate [(1, "Editor", "editor")] 1);
   Cycle (SimulationUpdate [(2, "Browser", "browser")] 2)].

(** The simulation reports [Editor], focused, once. *)
Definition editor_once : list Call :=
  [Start; Cycle (SimulationUpdate [(1, "Editor", "editor")] 1)].

(** A native tracker that could not name the process of a window at first
    ([_get_process_name] answers ["Unknown"] on failure) and can afterwards. *)
Definition process_named_later : list Call :=
  [Start;
   Cycle (Enumerated (WindowsWindowTracker_found [(1, "Untitled", "Unknown")] (Some 1)));
   Cycle (Enumerated (WindowsWindowTracker_found [(1, "Untitled", "notepad.exe")] (Some 1)))].

(** No two records are focused. *)
Definition single_focus (self : TimeTracker) : Prop :=
  ∀ h1 h2 w1 w2,
    window self h1 = Some w1 → window self h2 = Some w2 →
    is_active w1 = true → is_active w2 = true → h1 = h2.

(** No two visible records are focused. *)
Definition visible_single_focus (self : TimeTracker) : Prop :=
  ∀ h1 h2 w1 w2,
    window self h1 = Some w1 → window self h2 = Some w2 →
    is_visible w1 = true → is_active w1 = true →
    is_visible w2 = true → is_active w2 = true → h1 = h2.

(** The source flags one handle at most as focused. *)
Definition one_focus_reported (c : Call) : Prop :=
  match c with
  | Cycle poll =>
      ∀ f g, f ∈ reported poll → g ∈ reported poll →
             f.2 = true → g.2 = true → handle f = handle g
  | _ => True
  end.

(** The first enumeration is slow: the clock, read at the top of the cycle
    at 1.0 s, shows 1.2 s when the tracker has answered and the new record is
    stamped.  Every later cycle starts 1.05 s after the previous one ended
    and its enumeration takes 50 ms. *)
Definition slow_first_poll (i n : nat) : Z :=
  match i with
  | 0%nat => 0
  | 1%nat => match n with 0%nat => 1000000 | _ => 1200000 end
  | S (S j) =>
      2250000 + 1100000 * Z.of_nat j + match n with 0%nat => 0 | _ => 50000 end
  end.

(** A Windows desktop with one window, in the foreground, seen twice. *)
Definition editor_twice : list Call :=
  [Start;
   Cycle (Enumerated (WindowsWindowTracker_found [(1, "Editor", "editor.exe")] (Some 1)));
   Cycle (Enumerated (WindowsWindowTracker_found [(1, "Editor", "editor.exe")] (Some 1)))].

(** A macOS desktop with two windows of the application in front. *)
Definition two_documents : list Call :=
  [Start;
   Cycle (Enumerated
            (MacOSWindowTracker_found
               [(1, "Notes", "TextEdit"); (2, "Draft", "TextEdit")] "TextEdit"))].

(** Before the [i]-th call, no time on record is ahead of the clock. *)
Definition timely (clock : nat → nat → Z) (i : nat) (self : TimeTracker) : Prop :=
  (∀ last, _last_update_time self = Some last → last ≤ clock i 0%nat) ∧
  (∀ h w, window self h = Some w →
          first_seen w + total_open_time w ≤ clock i 0%nat).


(* ===================================================================== *)
(** ** Further views of the engine *)
(* ===================================================================== *)

(** The handles of [fs] that are not among [known], each once, in the order
    in which they are first sighted. *)
Fixpoint fresh_handles (known : list Z) (fs : list Found) : list Z :=
  match fs with
  | [] => []
  | f :: fs' =>
      if decide (handle f ∈ known) then fresh_handles known fs'
      else handle f :: fresh_handles (known ++ [handle f]) fs'
  end.

(** The map files every object once, under one handle, and every address in
    it is an address of the store. *)
Definition filed (self : TimeTracker) : Prop :=
  NoDup (keys (_windows self)) ∧
  NoDup (values (_windows self)) ∧
  Forall (λ a, (a < length (objects self))%nat) (values (_windows self)).

(** The poll flags a window by comparing its handle with the focused one, as
    the simulation loop and the Windows tracker do. *)
Definition focus_by_handle (c : Call) : Prop :=
  match c with
  | Cycle (SimulationUpdate _ _) => True
  | Cycle (Enumerated found) =>
      ∃ valid active_hwnd, found = WindowsWindowTracker_found valid active_hwnd
  | _ => True
  end.

(** Before the [i]-th call every record has been seen no earlier than it was
    first seen and no later than now, and its durations are not negative. *)
Definition stamped (clock : nat → nat → Z) (i : nat) (self : TimeTracker) : Prop :=
  ∀ h w, window self h = Some w →
         first_seen w ≤ last_seen w ∧ last_seen w ≤ clock i 0%nat ∧
         0 ≤ total_open_time w ∧ 0 ≤ active_time w.

(* ===================================================================== *)
(** ** core/window_tracker_factory.py, the list of platforms *)
(* ===================================================================== *)

(** [get_supported_platforms()] *)
Definition get_supported_platforms (host : Host) : list string :=
  let supported := [] in
  let supported :=
    if is_supported host WindowsWindowTracker then supported ++ ["Windows"]
    else supported in
  let supported :=
    if is_supported host MacOSWindowTracker then supported ++ ["macOS"]
    else supported in
  supported.

(* ===================================================================== *)
(** ** utils/formatters.py *)
(* ===================================================================== *)

(** [str(n)] of an integer, as an f-string prints it. *)
Definition str (n : Z) : string := NilZero.string_of_int (Z.to_int n).

(** A Python float is a double: [(m, e)] stands for [m * 2^e].  No quotient
    of this program comes near the largest or the smallest double, so the
    exponent is left unbounded. *)

(** [a / (b * 2^e)] as a fraction of two integers. *)
Definition double_scaled (a b e : Z) : Z * Z :=
  if 0 <=? e then (a, b * 2 ^ e) else (a * 2 ^ (- e), b).

(** The integer nearest to [num / den], the even one of two that are equally
    near. *)
Definition round_half_even (num den : Z) : Z :=
  let q := num / den in
  let r := num mod den in
  if 2 * r <? den then q
  else if den <? 2 * r then q + 1
  else if Z.even q then q else q + 1.

(** For [0 < a] and [0 < b], the [e] with [2^52 ≤ a / (b * 2^e) < 2^53]. *)
Definition double_exponent (a b : Z) : Z :=
  let e0 := Z.log2 a - Z.log2 b - 52 in
  let '(num, den) := double_scaled a b e0 in
  if num / den <? 2 ^ 52 then e0 - 1 else e0.

(** The 53 bits of [a / b], rounded. *)
Definition double_mantissa (a b : Z) : Z :=
  let '(num, den) := double_scaled a b (double_exponent a b) in
  round_half_even num den.

(** [a / b] on two Python integers, [0 < b]: the double nearest to the
    quotient. *)
Definition true_divide (a b : Z) : Z * Z :=
  if a =? 0 then (0, 0)
  else if 0 <? a then (double_mantissa a b, double_exponent a b)
  else (- double_mantissa (- a) b, double_exponent (- a) b).

(** [int(x)] of a float: towards zero. *)
Definition int_of_float (x : Z * Z) : Z :=
  let '(m, e) := x in
  if 0 <=? e then m * 2 ^ e else Z.quot m (2 ^ (- e)).

(** [td.total_seconds()]: the microseconds of [td] divided by [10**6], a
    float. *)
Definition total_seconds (td : Z) : Z * Z := true_divide td 1000000.

(** [format_timedelta(td)], for [td] a [timedelta] in microseconds. *)
Definition format_timedelta (td : Z) : string :=
  let total_seconds := int_of_float (total_seconds td) in
  if total_seconds <? 0 then "0s"
  else if total_seconds =? 0 then "0s"
  else
    let hours := total_seconds / 3600 in
    let minutes := (total_seconds mod 3600) / 60 in
    let seconds := total_seconds mod 60 in
    let parts := [] in
    let parts := if 0 <? hours then parts ++ [str hours +:+ "h"] else parts in
    let parts := if 0 <? minutes then parts ++ [str minutes +:+ "m"] else parts in
    let parts :=
      if (0 <? seconds) || (match parts with [] => true | _ => false end)
      then parts ++ [str seconds +:+ "s"] else parts in
    String.concat " " parts.

(** The value of a decimal digit. *)
Definition digit_of (c : Ascii.ascii) : option Z :=
  (if Ascii.eqb c "0" then Some 0 else if Ascii.eqb c "1" then Some 1
   else if Ascii.eqb c "2" then Some 2 else if Ascii.eqb c "3" then Some 3
   else if Ascii.eqb c "4" then Some 4 else if Ascii.eqb c "5" then Some 5
   else if Ascii.eqb c "6" then Some 6 else if Ascii.eqb c "7" then Some 7
   else if Ascii.eqb c "8" then Some 8 else if Ascii.eqb c "9" then Some 9
   else None)%char.

(** Reading a formatted duration back: the seconds it stands for, given the
    seconds [total] read so far and the number [cur] being read. *)
Fixpoint read_seconds (s : string) (total cur : Z) : Z :=
  match s with
  | EmptyString => total
  | String c s' =>
      match digit_of c with
      | Some d => read_seconds s' total (10 * cur + d)
      | None =>
          if Ascii.eqb c "h" then read_seconds s' (total + 3600 * cur) 0
          else if Ascii.eqb c "m" then read_seconds s' (total + 60 * cur) 0
          else if Ascii.eqb c "s" then read_seconds s' (total + cur) 0
          else read_seconds s' total cur
      end
  end.

(** The number a string of decimal digits stands for after [acc]. *)
Fixpoint uint_value (d : Decimal.uint) (acc : Z) : Z :=
  match d with
  | Decimal.Nil => acc
  | Decimal.D0 l => uint_value l (10 * acc + 0)
  | Decimal.D1 l => uint_value l (10 * acc + 1)
  | Decimal.D2 l => uint_value l (10 * acc + 2)
  | Decimal.D3 l => uint_value l (10 * acc + 3)
  | Decimal.D4 l => uint_value l (10 * acc + 4)
  | Decimal.D5 l => uint_value l (10 * acc + 5)
  | Decimal.D6 l => uint_value l (10 * acc + 6)
  | Decimal.D7 l => uint_value l (10 * acc + 7)
  | Decimal.D8 l => uint_value l (10 * acc + 8)
  | Decimal.D9 l => uint_value l (10 * acc + 9)
  end.

(* ===================================================================== *)
(** ** core/simulation.py *)
(* ===================================================================== *)

(** The outcomes of the calls to [random] are inputs: a draw [i] selects
    index [i mod len] of a sequence, and whether [random.random()] falls
    under [boredom_factor * 0.1] is given with the draw that follows it.
    [boredom_factor] itself, a float that only biases that comparison, is
    not kept.  The clock is an oracle, as for the engine. *)
Module simulation.

Record PersonData : Type := mkPersonData {
  data_name : string;
  data_process : string;
  data_personality : string
}.

Definition PEOPLE : list PersonData :=
  [mkPersonData "Mom" "parent.exe" "busy";
   mkPersonData "Dad" "parent.exe" "relaxed";
   mkPersonData "Sarah" "teenager.exe" "social";
   mkPersonData "Tommy" "kid.exe" "energetic";
   mkPersonData "Grandma" "elder.exe" "calm";
   mkPersonData "Uncle Joe" "visitor.exe" "chatty";
   mkPersonData "Aunt Linda" "visitor.exe" "helpful";
   mkPersonData "Best Friend Alex" "friend.exe" "fun";
   mkPersonData "Neighbor Bob" "neighbor.exe" "curious"].

Definition ACTIVITIES : list (string * list string) :=
  [("busy",
    ["Cooking dinner in the kitchen"; "Doing laundry"; "Cleaning the living room";
     "Working on laptop in home office"; "Organizing the garage";
     "Paying bills at desk"; "Meal prepping"; "Vacuuming upstairs"]);
   ("relaxed",
    ["Watching TV in living room"; "Reading newspaper on couch";
     "Napping on recliner"; "Listening to music in den"; "Having coffee in kitchen";
     "Working on puzzle"; "Browsing phone on patio"; "Grilling in backyard"]);
   ("social",
    ["Video chatting with friends"; "Texting in bedroom"; "Taking selfies";
     "Posting on social media"; "Watching TikTok videos";
     "Listening to music and dancing"; "Video calling boyfriend"; "Shopping online"]);
   ("energetic",
    ["Playing video games"; "Running around backyard"; "Playing with dog";
     "Building with LEGO"; "Jumping on trampoline"; "Riding bike in driveway";
     "Playing basketball"; "Making a mess in playroom"]);
   ("calm",
    ["Knitting on couch"; "Watching cooking show"; "Reading book in armchair";
     "Doing crossword puzzle"; "Looking at photo albums"; "Watering plants";
     "Baking cookies"; "Having tea in garden"]);
   ("chatty",
    ["Telling stories in living room"; "Making phone calls";
     "Chatting at kitchen table"; "Sharing old photos"; "Discussing sports";
     "Debating politics"; "Laughing about old times"; "Giving unsolicited advice"]);
   ("helpful",
    ["Helping with dishes"; "Teaching recipe to Mom"; "Fixing things around house";
     "Gardening in backyard"; "Folding laundry"; "Setting the table";
     "Giving parenting tips"; "Organizing pantry"]);
   ("fun",
    ["Playing board games"; "Telling jokes"; "Playing cards"; "Watching comedy show";
     "Planning weekend trip"; "Playing music together"; "Having pillow fight";
     "Making funny videos"]);
   ("curious",
    ["Peeking through window"; "Asking about new car"; "Checking out renovations";
     "Discussing neighborhood gossip"; "Admiring the garden";
     "Asking to borrow tools"; "Sharing HOA concerns"; "Talking about weather"])].

(** [d.get(key)] on a dictionary written as its items. *)
Fixpoint lookup (key : string) (d : list (string * list string))
    : option (list string) :=
  match d with
  | [] => None
  | (k, v) :: d' => if String.eqb key k then Some v else lookup key d'
  end.

(** [random.choice(seq)] with draw [i]; [None] is the [IndexError] of an
    empty sequence. *)
Definition choice {A} (i : nat) (seq : list A) : option A :=
  seq !! (i mod length seq)%nat.

(** [random.randint(a, b)] with draw [i], for [a ≤ b]. *)
Definition randint (a b : Z) (i : nat) : Z := a + Z.of_nat i mod (b - a + 1).

Record SimulatedPerson : Type := mkSimulatedPerson {
  name : string;
  process_name : string;
  personality : string;
  hwnd : Z;
  current_activity : string;
  activity_start_time : Z
}.

(** [ACTIVITIES.get(self.personality, ACTIVITIES["relaxed"])] *)
Definition activities_of (personality : string) : list string :=
  match lookup personality ACTIVITIES with
  | Some activities => activities
  | None => default [] (lookup "relaxed" ACTIVITIES)
  end.

(** [_get_random_activity()]; the lists of activities are not empty, the
    default stands for the [IndexError] that cannot happen. *)
Definition _get_random_activity (draw : nat) (personality : string) : string :=
  default "" (choice draw (activities_of personality)).

(** [SimulatedPerson(person_data)] *)
Definition new_person (hwnd_draw activity_draw : nat) (now : Z)
    (person_data : PersonData) : SimulatedPerson :=
  mkSimulatedPerson (data_name person_data) (data_process person_data)
    (data_personality person_data)
    (randint 10000 99999 hwnd_draw)
    (_get_random_activity activity_draw (data_personality person_data))
    now.

(** [maybe_change_activity()]: [roll] is [Some draw] when the random number
    fell under the threshold, [draw] choosing the new activity. *)
Definition maybe_change_activity (roll : option nat) (now : Z)
    (self : SimulatedPerson) : SimulatedPerson * bool :=
  match roll with
  | Some draw =>
      (mkSimulatedPerson (name self) (process_name self) (personality self)
         (hwnd self) (_get_random_activity draw (personality self)) now,
       true)
  | None => (self, false)
  end.

(** [get_window_info()] *)
Definition get_window_info (self : SimulatedPerson) : Z * string * string :=
  (hwnd self, name self +:+ " - " +:+ current_activity self, process_name self).

Record HouseSimulation : Type := mkHouseSimulation {
  people : list SimulatedPerson;
  current_focus_index : nat;
  focus_duration : Z;
  last_focus_change : Z
}.

(** [random.sample(population, k)]: [k] draws without replacement. *)
Fixpoint sample {A} (draws : nat → nat) (j : nat) (population : list A) (k : nat)
    : list A :=
  match k with
  | O => []
  | S k' =>
      match choice (draws j) population with
      | Some x =>
          x :: sample draws (S j)
                 (delete (draws j mod length population)%nat population) k'
      | None => []
      end
  end.

(** The people of a new house, each built with the next two draws and the
    next reading of the clock. *)
Fixpoint new_people (draws : nat → nat) (clock : nat → Z) (j n : nat)
    (selected : list PersonData) : list SimulatedPerson :=
  match selected with
  | [] => []
  | person :: selected' =>
      new_person (draws j) (draws (S j)) (clock n) person
      :: new_people draws clock (S (S j)) (S n) selected'
  end.

(** [HouseSimulation(num_people)], [num_people] being [None] or a count.
    The draws are used in the order of the calls: the count, the sample, two
    for each person, the focus duration (in microseconds, between 5 and 15
    seconds). *)
Definition HouseSimulation_init (draws : nat → nat) (clock : nat → Z)
    (num_people : option nat) : HouseSimulation :=
  let '(num_people, j) :=
    match num_people with
    | None => (Z.to_nat (randint 4 9 (draws 0%nat)), 1%nat)
    | Some k => (k, 0%nat)
    end in
  let k := Nat.min num_people (length PEOPLE) in
  let selected_people := sample draws j PEOPLE k in
  let people := new_people draws clock (j + k) 0 selected_people in
  mkHouseSimulation people 0
    (randint 5000000 15000000 (draws (j + k + 2 * length selected_people)%nat))
    (clock (length selected_people)).

(** The loop of [update()] over the people; [n] counts the readings of the
    clock. *)
Fixpoint change_activities (rolls : nat → option nat) (clock : nat → Z)
    (j n : nat) (ps : list SimulatedPerson) : list SimulatedPerson * nat :=
  match ps with
  | [] => ([], n)
  | person :: ps' =>
      let '(person', changed) := maybe_change_activity (rolls j) (clock n) person in
      let '(rest, n') :=
        change_activities rolls clock (S j) (if changed then S n else n) ps' in
      (person' :: rest, n')
  end.

(** [update()]: the house afterwards and what it returns, or the exception
    that [randint(0, -1)] or indexing [self.people] raises, which takes an
    empty house or an index past its end. *)
Definition update (rolls : nat → option nat) (focus_draw duration_draw : nat)
    (clock : nat → Z) (self : HouseSimulation)
    : HouseSimulation * (list (Z * string * string) * Z + string) :=
  let '(people, n) := change_activities rolls clock 0 0 (people self) in
  let time_since_focus := clock n - last_focus_change self in
  let unchanged :=
    mkHouseSimulation people (current_focus_index self) (focus_duration self)
      (last_focus_change self) in
  if (focus_duration self <? time_since_focus) && (length people =? 0)%nat
  then (unchanged, inr "ValueError")
  else
    let self :=
      if focus_duration self <? time_since_focus
      then mkHouseSimulation people
             (Z.to_nat (randint 0 (Z.of_nat (length people) - 1) focus_draw))
             (randint 3000000 20000000 duration_draw)
             (clock (S n))
      else unchanged in
    let windows := map get_window_info (simulation.people self) in
    match simulation.people self !! current_focus_index self with
    | Some person => (self, inl (windows, hwnd person))
    | None => (self, inr "IndexError")
    end.

(** [get_people_count()] *)
Definition get_people_count (self : HouseSimulation) : nat := length (people self).

(** [add_visitor()] *)
Definition add_visitor (pick hwnd_draw activity_draw : nat) (now : Z)
    (self : HouseSimulation) : HouseSimulation * option string :=
  let current_names := map name (people self) in
  let available :=
    filter (λ p, data_name p ∉ current_names) PEOPLE in
  match choice pick available with
  | Some new_person_data =>
      let person := new_person hwnd_draw activity_draw now new_person_data in
      (mkHouseSimulation (people self ++ [person]) (current_focus_index self)
         (focus_duration self) (last_focus_change self),
       Some (name person))
  | None => (self, None)
  end.

(** [remove_person()]: [list.remove] takes out the very object chosen, the
    one at the drawn index. *)
Definition remove_person (pick : nat) (self : HouseSimulation)
    : HouseSimulation * option string :=
  if (2 <? length (people self))%nat then
    match choice pick (people self) with
    | Some person =>
        let people := delete (pick mod length (people self))%nat (people self) in
        let index :=
          if (length people <=? current_focus_index self)%nat
          then (length people - 1)%nat else current_focus_index self in
        (mkHouseSimulation people index (focus_duration self)
           (last_focus_change self),
         Some (name person))
    | None => (self, None)
    end
  else (self, None).

End simulation.

(** What the owner of a simulated house and its loop can do to it. *)
Inductive HouseCall : Type :=
  | HouseUpdate (rolls : nat → option nat) (focus_draw duration_draw : nat)
                (clock : nat → Z)
  | HouseAddVisitor (pick hwnd_draw activity_draw : nat) (now : Z)
  | HouseRemovePerson (pick : nat).

Definition house_exec (c : HouseCall) (house : simulation.HouseSimulation)
    : simulation.HouseSimulation :=
  match c with
  | HouseUpdate rolls f d clock => (simulation.update rolls f d clock house).1
  | HouseAddVisitor pick h a now => (simulation.add_visitor pick h a now house).1
  | HouseRemovePerson pick => (simulation.remove_person pick house).1
  end.

(** A person is one of [PEOPLE], at an activity of their own, under a
    handle of five digits. *)
Definition person_ok (p : simulation.SimulatedPerson) : Prop :=
  ∃ d, d ∈ simulation.PEOPLE ∧
       simulation.name p = simulation.data_name d ∧
       simulation.process_name p = simulation.data_process d ∧
       simulation.personality p = simulation.data_personality d ∧
       simulation.current_activity p
       ∈ simulation.activities_of (simulation.personality p) ∧
       10000 ≤ simulation.hwnd p ≤ 99999.

(** The house is one that [HouseSimulation()] builds and its methods keep:
    between two and nine people out of [PEOPLE], no one twice, everyone at
    one of the activities of their personality, and somebody in focus. *)
Definition house_ok (house : simulation.HouseSimulation) : Prop :=
  (2 ≤ length (simulation.people house) ≤ 9)%nat ∧
  (simulation.current_focus_index house < length (simulation.people house))%nat ∧
  NoDup (map simulation.name (simulation.people house)) ∧
  Forall person_ok (simulation.people house).

(** The calls in order. *)
Definition house_run (calls : list HouseCall) (house : simulation.HouseSimulation)
    : simulation.HouseSimulation :=
  fold_left (λ h c, house_exec c h) calls house.

(** [TimeTracker._update_windows] asking the simulation: the poll of the
    cycle. *)
Definition poll_simulation (rolls : nat → option nat) (focus_draw duration_draw : nat)
    (clock : nat → Z) (house : simulation.HouseSimulation)
    : simulation.HouseSimulation * Poll :=
  match simulation.update rolls focus_draw duration_draw clock house with
  | (house', inl (current_windows, active_hwnd)) =>
      (house', SimulationUpdate current_windows active_hwnd)
  | (house', inr e) => (house', SourceRaises e)
  end.

(** [add_simulation_visitor()] and [remove_simulation_person()] of the
    engine, whose [_simulation] is [None] outside simulation mode. *)
Definition add_simulation_visitor (pick hwnd_draw activity_draw : nat) (now : Z)
    (self : TimeTracker) (_simulation : option simulation.HouseSimulation)
    : option simulation.HouseSimulation * option string :=
  match _simulation_mode self, _simulation with
  | true, Some house =>
      let '(house', r) := simulation.add_visitor pick hwnd_draw activity_draw now house in
      (Some house', r)
  | _, _ => (_simulation, None)
  end.

Definition remove_simulation_person (pick : nat)
    (self : TimeTracker) (_simulation : option simulation.HouseSimulation)
    : option simulation.HouseSimulation * option string :=
  match _simulation_mode self, _simulation with
  | true, Some house =>
      let '(house', r) := simulation.remove_person pick house in (Some house', r)
  | _, _ => (_simulation, None)
  end.

(* ===================================================================== *)
(** ** config.py, the filters *)
(* ===================================================================== *)

Definition EXCLUDED_WINDOW_CLASSES : list string :=
  ["Shell_TrayWnd"; "DV2ControlHost"; "MsgrIMEWindowClass"; "SysShadow"; "Button";
   "Windows.UI.Core.CoreWindow"].

Definition EXCLUDED_WINDOW_TITLES : list string :=
  ["Program Manager"; "Default IME"; "MSCTFIME UI";
   "OpenBob - Watch Your Apps Live!"; EmptyString].

Definition MIN_TITLE_LENGTH : nat := 1.

(* ===================================================================== *)
(** ** core/window_tracker_windows.py *)
(* ===================================================================== *)

(** What win32 and psutil answer is an input; [None] is a call that
    raises. *)
Module window_tracker_windows.

(** [win32con.WS_EX_TOOLWINDOW] and [win32con.WS_EX_APPWINDOW]. *)
Definition WS_EX_TOOLWINDOW : Z := 128.
Definition WS_EX_APPWINDOW : Z := 262144.

(** The answers about one handle while [EnumWindows] visits it.
    [GetWindowText] is asked by [_is_valid_window] and again by
    [_get_window_title]; [GetWindowLong] is asked for [GWL_EXSTYLE],
    [GetWindow] for [GW_OWNER]; [process_name] stands for
    [GetWindowThreadProcessId] and [psutil.Process(pid).name()]. *)
Record Answers : Type := mkAnswers {
  IsWindowVisible : option bool;
  GetWindowText : option string;
  GetClassName : option string;
  GetWindowLong : option Z;
  GetWindow : option Z;
  GetWindowText_again : option string;
  process_name : option string
}.

(** [_is_valid_window(hwnd)] *)
Definition _is_valid_window (a : Answers) : bool :=
  match IsWindowVisible a with
  | None => false
  | Some visible =>
      if negb visible then false
      else
        match GetWindowText a with
        | None => false
        | Some title =>
            if (String.length title <? MIN_TITLE_LENGTH)%nat then false
            else if bool_decide (title ∈ EXCLUDED_WINDOW_TITLES) then false
            else
              match GetClassName a with
              | None => false
              | Some class_name =>
                  if bool_decide (class_name ∈ EXCLUDED_WINDOW_CLASSES) then false
                  else
                    match GetWindowLong a with
                    | None => false
                    | Some ex_style =>
                        if negb (Z.land ex_style WS_EX_TOOLWINDOW =? 0) then false
                        else if Z.land ex_style WS_EX_APPWINDOW =? 0 then
                          match GetWindow a with
                          | None => false
                          | Some owner => if negb (owner =? 0) then false else true
                          end
                        else true
                    end
              end
        end
  end.

(** [_get_window_title(hwnd)] *)
Definition _get_window_title (a : Answers) : string :=
  default EmptyString (GetWindowText_again a).

(** [_get_process_name(hwnd)] *)
Definition _get_process_name (a : Answers) : string :=
  default "Unknown" (process_name a).

(** [get_active_window_handle()] *)
Definition get_active_window_handle (host : Host) (GetForegroundWindow : option Z)
    : option Z :=
  if negb (WINDOWS_AVAILABLE host) then None
  else
    match GetForegroundWindow with
    | Some hwnd => if negb (hwnd =? 0) then Some hwnd else None
    | None => None
    end.

(** The callback given to [EnumWindows]. *)
Definition callback (active_hwnd : option Z) (windows : list Found)
    (visit : Z * Answers) : list Found :=
  let '(hwnd, a) := visit in
  if _is_valid_window a then
    let title := _get_window_title a in
    let process_name := _get_process_name a in
    let is_active := bool_decide (Some hwnd = active_hwnd) in
    windows ++ [(hwnd, title, process_name, is_active)]
  else windows.

(** [enumerate_windows()], as what it hands to the constructor for each
    window.  [EnumWindows] lists the handles the callback was called with,
    whether or not the call raised afterwards. *)
Definition enumerate_windows (host : Host) (GetForegroundWindow : option Z)
    (EnumWindows : list (Z * Answers)) : list Found :=
  if negb (WINDOWS_AVAILABLE host) then []
  else
    let windows := [] in
    let active_hwnd := get_active_window_handle host GetForegroundWindow in
    fold_left (callback active_hwnd) EnumWindows windows.

End window_tracker_windows.

(* ===================================================================== *)
(** ** core/window_tracker_macos.py *)
(* ===================================================================== *)

(** What Quartz and AppKit answer is an input. *)
Module window_tracker_macos.

(** One dictionary of [CGWindowListCopyWindowInfo]; [None] is a key that is
    not there. *)
Record CGWindow : Type := mkCGWindow {
  kCGWindowLayer : option Z;
  kCGWindowName : option string;
  kCGWindowOwnerName : option string;
  kCGWindowNumber : option Z
}.

Definition excluded_apps : list string :=
  ["Dock"; "Spotlight"; "SystemUIServer"; "ControlCenter"; "NotificationCenter";
   "WindowServer"; "loginwindow"; "Finder"].

(** [_should_exclude_app(app_name)] *)
Definition _should_exclude_app (app_name : string) : bool :=
  bool_decide (app_name ∈ excluded_apps).

(** [_get_active_app_name()]: [activeApplication] is [None] when the call
    raises, and holds [NSApplicationName] if the dictionary has it. *)
Definition _get_active_app_name (activeApplication : option (option string))
    : string :=
  match activeApplication with
  | Some active_app => default EmptyString active_app
  | None => EmptyString
  end.

(** The body of the loop over the window list. *)
Definition visit (active_app_name : string) (windows : list Found)
    (window : CGWindow) : list Found :=
  let layer := default 0 (kCGWindowLayer window) in
  if negb (layer =? 0) then windows
  else
    let title := default EmptyString (kCGWindowName window) in
    let owner := default EmptyString (kCGWindowOwnerName window) in
    let window_id := default 0 (kCGWindowNumber window) in
    if String.eqb title EmptyString || (String.length title <? MIN_TITLE_LENGTH)%nat
    then windows
    else if _should_exclude_app owner then windows
    else
      let is_active := String.eqb owner active_app_name in
      windows ++ [(window_id, title, owner, is_active)].

(** [enumerate_windows()], as what it hands to the constructor for each
    window; [CGWindowListCopyWindowInfo] is [None] when the call raises or
    answers nothing to iterate over. *)
Definition enumerate_windows (host : Host)
    (activeApplication : option (option string))
    (CGWindowListCopyWindowInfo : option (list CGWindow)) : list Found :=
  if negb (MACOS_AVAILABLE host) then []
  else
    let windows := [] in
    let active_app_name := _get_active_app_name activeApplication in
    match CGWindowListCopyWindowInfo with
    | Some window_list => fold_left (visit active_app_name) window_list windows
    | None => windows
    end.

End window_tracker_macos.

(* ===================================================================== *)
(** ** core/time_tracker.py, the constructor; main.py *)
(* ===================================================================== *)

(** [TimeTracker(simulation_mode)]: the engine, or the message of the
    [RuntimeError] of the factory, logged and raised again. *)
Definition TimeTracker_new (host : Host) (simulation_mode : bool)
    : TimeTracker + string :=
  if simulation_mode then inl (TimeTracker_init true)
  else
    match create_window_tracker host with
    | inl _ => inl (TimeTracker_init false)
    | inr e => inr e
    end.

(** How [main()] ends, with the engine it made, if it made one. *)
Inductive MainResult : Type :=
  | PygameNotFound
  | UnsupportedPlatform (platform : string)
  | FailedToInitialize (e : string)
  | ErrorRunning (tracker : TimeTracker)
  | Finished (tracker : TimeTracker).

(** The value [main()] returns. *)
Definition exit_code (r : MainResult) : Z :=
  match r with
  | Finished _ => 0
  | _ => 1
  end.

(** [main()].  While the view runs, the engine is touched by the turns of
    its own thread only: the view reads [get_all_windows()].  [view_raises]
    tells whether building or running the view raised; [tracker.stop()] is in
    the [finally]. *)
Definition main (pygame_found : bool) (host : Host) (clock : nat → nat → Z)
    (polls : list Poll) (view_raises : bool) : MainResult :=
  if negb pygame_found then PygameNotFound
  else
    let supported := get_supported_platforms host in
    match supported with
    | [] => UnsupportedPlatform (sys_platform host)
    | _ :: _ =>
        match TimeTracker_new host false with
        | inr e => FailedToInitialize e
        | inl tracker =>
            let tracker := start (clock 0%nat) tracker in
            let tracker := run clock 1 (map Cycle polls) tracker in
            let tracker := stop tracker in
            if view_raises then ErrorRunning tracker else Finished tracker
        end
    end.

(** What [_is_valid_window] asks of a window: it is visible, titled, neither
    its title nor its class is excluded, it is no tool window, and it is an
    application window or has no owner. *)
Definition valid_window (a : window_tracker_windows.Answers) : Prop :=
  window_tracker_windows.IsWindowVisible a = Some true ∧
  (∃ title, window_tracker_windows.GetWindowText a = Some title ∧
            title ≠ EmptyString ∧ title ∉ EXCLUDED_WINDOW_TITLES) ∧
  (∃ class_name, window_tracker_windows.GetClassName a = Some class_name ∧
                 class_name ∉ EXCLUDED_WINDOW_CLASSES) ∧
  (∃ ex_style, window_tracker_windows.GetWindowLong a = Some ex_style ∧
               Z.land ex_style window_tracker_windows.WS_EX_TOOLWINDOW = 0 ∧
               (Z.land ex_style window_tracker_windows.WS_EX_APPWINDOW ≠ 0 ∨
                window_tracker_windows.GetWindow a = Some 0)).

(** What the loop of the macOS tracker asks of a window: layer 0, a title,
    an owner that is not excluded. *)
Definition listed_window (window : window_tracker_macos.CGWindow) : Prop :=
  default 0 (window_tracker_macos.kCGWindowLayer window) = 0 ∧
  default EmptyString (window_tracker_macos.kCGWindowName window) ≠ EmptyString ∧
  default EmptyString (window_tracker_macos.kCGWindowOwnerName window)
  ∉ window_tracker_macos.excluded_apps.

(* ===================================================================== *)
(** ** core/personification.py *)
(* ===================================================================== *)

(** Python's own [str] methods that the module calls on process names are
    taken as given: [replace], [strip], [upper], [lower], and the item [s[0]]
    and the slice [s[1:]] of a string that is not empty. *)
Record StrMethods : Type := mkStrMethods {
  str_replace : string → string → string → string;
  str_strip : string → string;
  str_upper : string → string;
  str_lower : string → string;
  str_item0 : string → string;
  str_slice1 : string → string
}.

(** The draws of [random.choice] are inputs, and so is the pool as
    [random.shuffle] left it.  [None] is a call that raises. *)
Module personification.

Definition EMOJI_MAP : list (string * string) :=
  [("chrome", "🌐");
   ("firefox", "🦊");
   ("edge", "🌊");
   ("safari", "🧭");
   ("discord", "🎧");
   ("slack", "💼");
   ("teams", "👔");
   ("zoom", "📹");
   ("spotify", "🎵");
   ("music", "🎵");
   ("netflix", "🎬");
   ("vlc", "📺");
   ("word", "📝");
   ("excel", "📊");
   ("powerpoint", "📊");
   ("outlook", "📧");
   ("code", "💻");
   ("vscode", "💻");
   ("terminal", "⌨️");
   ("cmd", "⌨️");
   ("calculator", "🔢");
   ("notepad", "📄");
   ("photos", "📷");
   ("files", "📁");
   ("steam", "🎮");
   ("minecraft", "⛏️");
   ("roblox", "🎮");
   ("game", "🎮");
   ("default", "🧑")].

Definition DIVERSE_PEOPLE : list string :=
  ["👨"; "👩"; "🧑"; "👨🏻"; "👩🏻"; "🧑🏻";
   "👨🏼"; "👩🏼"; "🧑🏼"; "👨🏽"; "👩🏽"; "🧑🏽";
   "👨🏾"; "👩🏾"; "🧑🏾"; "👨🏿"; "👩🏿"; "🧑🏿";
   "👱"; "👱‍♀️"; "👱‍♂️"; "👨‍🦰"; "👩‍🦰"; "👨‍🦱";
   "👩‍🦱"; "👨‍🦳"; "👩‍🦳"; "👨‍🦲"; "👩‍🦲"; "🧒";
   "🧒🏻"; "🧒🏼"; "🧒🏽"; "🧒🏾"; "🧒🏿"; "🧓";
   "🧓🏻"; "🧓🏼"; "🧓🏽"; "🧓🏾"; "🧓🏿"].

Definition ACTIVITY_MAPPINGS : list (string * list string) :=
  [("chrome",
    ["reading on the couch";
     "relaxing in living room";
     "looking something up at kitchen table";
     "browsing on tablet in den"]);
   ("firefox",
    ["reading in the den";
     "sitting at the desk";
     "looking at something on laptop"]);
   ("edge",
    ["working in home office";
     "researching at desk";
     "reading at computer"]);
   ("safari",
    ["browsing on laptop in bedroom";
     "looking at screen on couch"]);
   ("discord",
    ["chatting in bedroom";
     "talking on phone";
     "laughing at something funny"]);
   ("slack",
    ["working quietly in home office";
     "typing messages at desk"]);
   ("teams",
    ["on a call in study";
     "having a meeting in office"]);
   ("zoom",
    ["on a video call";
     "meeting in home office"]);
   ("skype",
    ["video calling relatives";
     "talking to friends"]);
   ("messenger",
    ["texting in bedroom";
     "sending messages"]);
   ("spotify",
    ["listening to music in bedroom";
     "humming along to music";
     "enjoying tunes in living room"]);
   ("netflix",
    ["watching TV in living room";
     "relaxing with entertainment";
     "enjoying a show"]);
   ("youtube",
    ["watching something on couch";
     "entertained in den"]);
   ("vlc",
    ["watching something in living room";
     "enjoying media"]);
   ("steam",
    ["playing games in bedroom";
     "having fun at computer";
     "gaming in den"]);
   ("minecraft",
    ["playing in playroom";
     "building something creative";
     "having fun at desk"]);
   ("roblox",
    ["playing in playroom";
     "creating in bedroom";
     "having fun"]);
   ("word",
    ["writing at desk";
     "working on project in study";
     "typing in office"]);
   ("excel",
    ["working with numbers at desk";
     "organizing at computer";
     "calculating in office"]);
   ("powerpoint",
    ["preparing something in office";
     "working on project at desk"]);
   ("outlook",
    ["checking messages at desk";
     "organizing in office";
     "planning at computer"]);
   ("notepad",
    ["jotting notes at desk";
     "writing ideas down";
     "making a list"]);
   ("code",
    ["working in home office";
     "concentrating at computer";
     "focused at desk"]);
   ("vscode",
    ["working at desk";
     "typing away in office";
     "focused on project"]);
   ("terminal",
    ["working at computer";
     "doing technical work at desk"]);
   ("calculator",
    ["doing math at desk";
     "calculating in office";
     "working on numbers"]);
   ("calendar",
    ["planning at desk";
     "organizing schedule";
     "checking dates"]);
   ("photos",
    ["looking at photo albums";
     "organizing pictures";
     "browsing photos"]);
   ("files",
    ["organizing in office";
     "looking for something";
     "tidying up files"]);
   ("explorer",
    ["organizing in office";
     "searching for something"]);
   ("default",
    ["busy at desk";
     "working on something";
     "focused at computer";
     "doing something at laptop"])].

Record Persona : Type := mkPersona {
  name : string;
  emoji : string
}.

Record PersonificationManager : Type := mkPersonificationManager {
  _window_to_persona : gmap Z Persona;
  _used_names : gmap string nat;
  _person_emoji_pool : list string;
  _person_emoji_index : nat
}.

(** [PersonificationManager()] *)
Definition PersonificationManager_init (shuffled : list string)
    : PersonificationManager :=
  mkPersonificationManager ∅ ∅ shuffled 0.

(** [_generate_unique_name(base_name, process_lower)] *)
Definition _generate_unique_name (base_name process_lower : string)
    (self : PersonificationManager) : string * PersonificationManager :=
  match _used_names self !! base_name with
  | None =>
      (base_name,
       mkPersonificationManager (_window_to_persona self)
         (<[base_name := 0%nat]> (_used_names self))
         (_person_emoji_pool self) (_person_emoji_index self))
  | Some used =>
      let count := S used in
      (base_name +:+ " #" +:+ str (Z.of_nat count + 1),
       mkPersonificationManager (_window_to_persona self)
         (<[base_name := count]> (_used_names self))
         (_person_emoji_pool self) (_person_emoji_index self))
  end.

(** [_get_emoji_for_app(process_lower)] *)
Definition _get_emoji_for_app (process_lower : string)
    (self : PersonificationManager) : option (string * PersonificationManager) :=
  match find (λ item, contains item.1 process_lower) EMOJI_MAP with
  | Some (_, emoji) => Some (emoji, self)
  | None =>
      match _person_emoji_pool self !! _person_emoji_index self with
      | Some emoji =>
          Some (emoji,
                mkPersonificationManager (_window_to_persona self) (_used_names self)
                  (_person_emoji_pool self)
                  ((_person_emoji_index self + 1) mod length (_person_emoji_pool self))%nat)
      | None => None
      end
  end.

(** The base name that [_assign_persona] makes of a process name. *)
Definition base_name_of (py : StrMethods) (process_name : string) : string :=
  let clean_name :=
    str_replace py (str_replace py process_name ".exe" EmptyString) ".app" EmptyString in
  let clean_name := str_strip py clean_name in
  if negb (String.eqb clean_name EmptyString)
  then str_upper py (str_item0 py clean_name) +:+ str_slice1 py clean_name
  else "Unknown".

(** [_assign_persona(process_name)] *)
Definition _assign_persona (py : StrMethods) (process_name : string)
    (self : PersonificationManager) : option (Persona * PersonificationManager) :=
  let base_name := base_name_of py process_name in
  let '(persona_name, self) :=
    _generate_unique_name base_name (str_lower py process_name) self in
  match _get_emoji_for_app (str_lower py process_name) self with
  | Some (emoji, self) => Some (mkPersona persona_name emoji, self)
  | None => None
  end.

(** [_generate_activity(title, process_name, persona)] *)
Definition _generate_activity (py : StrMethods) (draw : nat)
    (title process_name : string) (persona : Persona) : option string :=
  let process_lower := str_lower py process_name in
  let activities :=
    snd <$> find (λ item, contains item.1 process_lower) ACTIVITY_MAPPINGS in
  let activities :=
    match activities with
    | Some (activity :: rest) => Some (activity :: rest)
    | _ => simulation.lookup "default" ACTIVITY_MAPPINGS
    end in
  match activities with
  | Some activities =>
      match simulation.choice draw activities with
      | Some activity => Some (emoji persona +:+ " " +:+ activity)
      | None => None
      end
  | None => None
  end.

(** [get_persona_for_window(hwnd, title, process_name)] *)
Definition get_persona_for_window (py : StrMethods) (draw : nat) (hwnd : Z)
    (title process_name : string) (self : PersonificationManager)
    : option (PersonificationManager * (string * string)) :=
  match _window_to_persona self !! hwnd with
  | Some persona_info =>
      match _generate_activity py draw title process_name persona_info with
      | Some activity => Some (self, (name persona_info, activity))
      | None => None
      end
  | None =>
      match _assign_persona py process_name self with
      | Some (persona, self) =>
          let self :=
            mkPersonificationManager (<[hwnd := persona]> (_window_to_persona self))
              (_used_names self) (_person_emoji_pool self) (_person_emoji_index self) in
          match _generate_activity py draw title process_name persona with
          | Some activity => Some (self, (name persona, activity))
          | None => None
          end
      | None => None
      end
  end.

(** [remove_window(hwnd)] *)
Definition remove_window (hwnd : Z) (self : PersonificationManager)
    : PersonificationManager :=
  match _window_to_persona self !! hwnd with
  | Some _ =>
      mkPersonificationManager (delete hwnd (_window_to_persona self))
        (_used_names self) (_person_emoji_pool self) (_person_emoji_index self)
  | None => self
  end.

(** [clear_all()] *)
Definition clear_all (self : PersonificationManager) : PersonificationManager :=
  mkPersonificationManager ∅ ∅ (_person_emoji_pool self) (_person_emoji_index self).

(** [get_persona_count()] *)
Definition get_persona_count (self : PersonificationManager) : nat :=
  size (_window_to_persona self).

(** [format_window_for_display(hwnd, title, process_name, is_active)] *)
Definition format_window_for_display (py : StrMethods) (draw : nat) (hwnd : Z)
    (title process_name : string) (is_active : bool) (self : PersonificationManager)
    : option (PersonificationManager * (string * string)) :=
  match get_persona_for_window py draw hwnd title process_name self with
  | Some (self, (persona_name, activity)) =>
      let status_indicator := if is_active then "🗣️ " else EmptyString in
      let display_title := status_indicator +:+ persona_name +:+ " - " +:+ activity in
      let display_process := "in the house" in
      Some (self, (display_title, display_process))
  | None => None
  end.

End personification.

(** What the owner of a manager can call. *)
Inductive PersonaCall : Type :=
  | GetPersona (draw : nat) (hwnd : Z) (title process_name : string)
  | FormatWindow (draw : nat) (hwnd : Z) (title process_name : string) (is_active : bool)
  | RemoveWindow (hwnd : Z)
  | ClearAll.

Definition persona_exec (py : StrMethods) (c : PersonaCall)
    (self : personification.PersonificationManager)
    : option personification.PersonificationManager :=
  match c with
  | GetPersona draw hwnd title process_name =>
      fst <$> personification.get_persona_for_window py draw hwnd title process_name self
  | FormatWindow draw hwnd title process_name is_active =>
      fst <$> personification.format_window_for_display py draw hwnd title process_name
                is_active self
  | RemoveWindow hwnd => Some (personification.remove_window hwnd self)
  | ClearAll => Some (personification.clear_all self)
  end.

(** The calls in order, as long as none raises. *)
Fixpoint persona_run (py : StrMethods) (calls : list PersonaCall)
    (self : personification.PersonificationManager)
    : option personification.PersonificationManager :=
  match calls with
  | [] => Some self
  | c :: calls' =>
      match persona_exec py c self with
      | Some self' => persona_run py calls' self'
      | None => None
      end
  end.

(* ===================================================================== *)
(** ** The dictionary and the store *)
(* ===================================================================== *)

Section Dict.
Implicit Types (d : list (Z * nat)) (k h : Z) (a : nat).

Lemma dict_get_set_eq d k a : dict_get (dict_set d k a) k = Some a.
Proof.
  induction d as [|[k' a'] d IH]; simpl.
  - by rewrite Z.eqb_refl.
  - destruct (k =? k') eqn:E; simpl; rewrite E; [done | apply IH].
Qed.

Lemma dict_get_set_ne d k h a :
  h ≠ k → dict_get (dict_set d k a) h = dict_get d h.
Proof.
  intros Hne. induction d as [|[k' a'] d IH]; simpl.
  - destruct (h =? k) eqn:E; [apply Z.eqb_eq in E; congruence | done].
  - destruct (k =? k') eqn:E; simpl.
    + apply Z.eqb_eq in E. subst k'.
      by destruct (h =? k) eqn:E'; [apply Z.eqb_eq in E'|].
    + by rewrite IH.
Qed.

Lemma elem_of_keys d h : h ∈ keys d ↔ is_Some (dict_get d h).
Proof.
  induction d as [|[k' a'] d IH]; simpl.
  - split; [by intros ?%elem_of_nil | by intros [? ?]].
  - rewrite elem_of_cons, IH. destruct (h =? k') eqn:E.
    + apply Z.eqb_eq in E. split; eauto.
    + apply Z.eqb_neq in E. split; [intros [?|?]; [congruence | done] | eauto].
Qed.

Lemma keys_dict_set_new d k a :
  dict_get d k = None → keys (dict_set d k a) = keys d ++ [k].
Proof.
  induction d as [|[k' a'] d IH]; simpl; [done|].
  destruct (k =? k') eqn:E; [done|]. intros H. simpl. by rewrite IH.
Qed.
End Dict.

(* ===================================================================== *)
(** ** The scenarios of the specification, run *)
(* ===================================================================== *)

(** One cycle of one second: [Editor] is tracked, focused and visible, and
    has no active time yet. *)
Example after_first_cycle :
  window (run one_per_second 0 editor_once (TimeTracker_init true)) 1
  = Some (mkWindowInfo 1 "Editor" "editor" (seconds 1) (seconds 1) 0 0 true true).
Proof. vm_compute. reflexivity. Qed.

(** A second cycle, two seconds later, with [Editor] unfocused and [Browser]
    new and focused. *)
Example after_second_cycle :
  let self :=
    run (λ i _, match i with 2%nat => seconds 3 | _ => seconds (Z.of_nat i) end) 0
      [Start;
       Cycle (SimulationUpdate [(1, "Editor", "editor")] 1);
       Cycle (SimulationUpdate [(1, "Editor", "editor"); (2, "Browser", "browser")] 2)]
      (TimeTracker_init true) in
  window self 1
  = Some (mkWindowInfo 1 "Editor" "editor" (seconds 1) (seconds 3) (seconds 2) 0 false true) ∧
  window self 2
  = Some (mkWindowInfo 2 "Browser" "browser" (seconds 3) (seconds 3) 0 0 true true).
Proof. split; vm_compute; reflexivity. Qed.

(** [clear()] empties the map; the statistics count nothing. *)
Example after_clear :
  let self := exec (one_per_second 3) Clear
                (run one_per_second 0 editor_then_browser (TimeTracker_init true)) in
  get_all_windows self = [] ∧ total_windows (get_stats self) = 0%nat ∧
  active_window (get_stats self) = None.
Proof. repeat split. Qed.

(** [stop()] without [start()] logs a warning and changes nothing else. *)
Example stop_before_start :
  stop (TimeTracker_init false)
  = emit (Logged WARNING (Text "TimeTracker not running")) (TimeTracker_init false).
Proof. reflexivity. Qed.

(** On macOS every window of the application in front is flagged: two
    visible records are active after one cycle. *)
Example macos_flags_every_window_of_the_app :
  let self := run one_per_second 0 two_documents (TimeTracker_init false) in
  ¬ one_focus_reported (Cycle (Enumerated
      (MacOSWindowTracker_found
         [(1, "Notes", "TextEdit"); (2, "Draft", "TextEdit")] "TextEdit"))) ∧
  ¬ visible_single_focus self.
Proof.
  split.
  - intros H. simpl in H.
    specialize (H (1, "Notes", "TextEdit", true) (2, "Draft", "TextEdit", true)).
    assert (Hne : (1 : Z) = 2); [|discriminate].
    apply H; try reflexivity; apply list_elem_of_In; simpl; auto.
  - intros H.
    specialize (H 1 2 _ _ ltac:(vm_compute; reflexivity) ltac:(vm_compute; reflexivity)
                  eq_refl eq_refl eq_refl eq_refl).
    discriminate.
Qed.

(* ===================================================================== *)
(** ** One sighting *)
(* ===================================================================== *)

Lemma track_tuple_found clock itv a acc e :
  track_tuple clock itv a acc e = track_found clock itv acc (tuple_found a e).
Proof.
  destruct acc as [self n], e as [[h t] p].
  unfold track_tuple, track_found, track_info, tuple_found; simpl.
  destruct (dict_get (_windows self) h) as [ad|]; [|reflexivity].
  f_equal. f_equal. apply list_alter_ext; [|done].
  intros w _. unfold update_times. by destruct (h =? a).
Qed.

Lemma track_info_built clock itv acc x y f :
  track_info clock itv acc (tracker_WindowInfo x y f) = track_found clock itv acc f.
Proof. by destruct acc as [self n], f as [[[h t] p] a]. Qed.

Lemma window_unfold self h :
  window self h = match dict_get (_windows self) h with
                  | Some a => objects self !! a
                  | None => None
                  end.
Proof. unfold window, get_window, deref. by destruct (dict_get _ _). Qed.

Lemma sound_lookup self h a :
  sound self → dict_get (_windows self) h = Some a →
  ∃ w, objects self !! a = Some w ∧ hwnd w = h.
Proof. intros [H _] Hg. exact (H h a Hg). Qed.

Lemma track_found_spec clock itv self n f :
  sound self →
  let acc := track_found clock itv (self, n) f in
  sound acc.1 ∧ acc.2 = S (S n) ∧
  _running acc.1 = _running self ∧
  _last_update_time acc.1 = _last_update_time self ∧
  _simulation_mode acc.1 = _simulation_mode self ∧
  (∀ h a, get_window self h = Some a → get_window acc.1 h = Some a) ∧
  (∀ h, window acc.1 h =
        if decide (h = handle f)
        then Some (match window self h with
                   | Some w => refresh (clock n) (clock (S n)) itv f w
                   | None => adopt (clock n) (clock (S n)) f
                   end)
        else window self h).
Proof.
  intros Hs. destruct f as [[[k t] p] act].
  unfold track_found, track_info, handle; simpl.
  destruct (dict_get (_windows self) k) as [ad|] eqn:Hk; simpl.
  - destruct (sound_lookup _ _ _ Hs Hk) as (w0 & Hw0 & Hh0).
    repeat split; try done.
    + intros h a Hg. unfold get_window, deref in *; simpl in *.
      destruct (sound_lookup _ _ _ Hs Hg) as (w & Hw & Hh).
      destruct (decide (a = ad)) as [->|Hne].
      * rewrite list_lookup_alter_eq, Hw. simpl. eexists; split; [done|].
        by destruct act.
      * rewrite list_lookup_alter_ne by done. eauto.
    + apply Hs.
    + intros h. rewrite !window_unfold; simpl.
      destruct (decide (h = k)) as [->|Hne].
      * rewrite Hk, list_lookup_alter_eq, Hw0. done.
      * destruct (dict_get (_windows self) h) as [a|] eqn:Hg; [|done].
        destruct (sound_lookup _ _ _ Hs Hg) as (w & Hw & Hh).
        rewrite list_lookup_alter_ne; [done|]. intros ->. congruence.
  - repeat split; try done.
    + intros h a Hg. unfold get_window, deref in *; simpl in *.
      destruct (decide (h = k)) as [->|Hne].
      * rewrite dict_get_set_eq in Hg. injection Hg as <-.
        rewrite lookup_app_r by done. rewrite Nat.sub_diag. simpl. eauto.
      * rewrite dict_get_set_ne in Hg by done.
        destruct (sound_lookup _ _ _ Hs Hg) as (w & Hw & Hh).
        rewrite lookup_app_l by (by eapply lookup_lt_Some). eauto.
    + apply Hs.
    + intros h a Hg. unfold get_window in *; simpl.
      destruct (decide (h = k)) as [->|Hne]; [congruence|].
      by rewrite dict_get_set_ne.
    + intros h. rewrite !window_unfold; simpl.
      destruct (decide (h = k)) as [->|Hne].
      * rewrite dict_get_set_eq, Hk.
        rewrite lookup_app_r by done. by rewrite Nat.sub_diag.
      * rewrite dict_get_set_ne by done.
        destruct (dict_get (_windows self) h) as [a|] eqn:Hg; [|done].
        destruct (sound_lookup _ _ _ Hs Hg) as (w & Hw & Hh).
        by rewrite lookup_app_l by (by eapply lookup_lt_Some).
Qed.

(* ===================================================================== *)
(** ** The two loops of the locked section *)
(* ===================================================================== *)

Local Arguments track_found : simpl never.
Local Arguments mark_hidden : simpl never.

Lemma track_all_spec clock itv fs : ∀ self n,
  sound self →
  let acc := fold_left (track_found clock itv) fs (self, n) in
  sound acc.1 ∧
  _running acc.1 = _running self ∧
  _last_update_time acc.1 = _last_update_time self ∧
  _simulation_mode acc.1 = _simulation_mode self ∧
  (∀ h a, get_window self h = Some a → get_window acc.1 h = Some a) ∧
  (∀ h, window acc.1 h = record_after clock n itv fs h (window self h)).
Proof.
  induction fs as [|f fs IH]; intros self n Hs; simpl.
  - repeat split; try done; apply Hs.
  - destruct (track_found_spec clock itv self n f Hs)
      as (Hs1 & Hn & Hr & Hl & Hm & Hg & Hw).
    destruct (track_found clock itv (self, n) f) as [self1 n1] eqn:E.
    simpl in *. subst n1.
    destruct (IH self1 (S (S n)) Hs1) as (Hs2 & Hr2 & Hl2 & Hm2 & Hg2 & Hw2).
    split; [done|]. split; [congruence|]. split; [congruence|].
    split; [congruence|]. split; [eauto|].
    intros h. by rewrite Hw2, Hw.
Qed.

Lemma set_is_visible_twice v w :
  set_is_visible v (set_is_visible v w) = set_is_visible v w.
Proof. done. Qed.

Lemma mark_hidden_spec cur self k :
  sound self →
  let self' := mark_hidden cur self k in
  sound self' ∧
  _windows self' = _windows self ∧
  _running self' = _running self ∧
  _last_update_time self' = _last_update_time self ∧
  _simulation_mode self' = _simulation_mode self ∧
  (∀ h, window self' h =
        if decide (h = k ∧ k ∉ cur)
        then set_is_visible false <$> window self h
        else window self h).
Proof.
  intros Hs. unfold mark_hidden.
  destruct (bool_decide (k ∈ cur)) eqn:Hc.
  { apply bool_decide_eq_true in Hc. repeat split; try done; try apply Hs.
    intros h. by rewrite decide_False by tauto. }
  apply bool_decide_eq_false in Hc.
  destruct (dict_get (_windows self) k) as [ad|] eqn:Hk.
  - destruct (sound_lookup _ _ _ Hs Hk) as (w0 & Hw0 & Hh0).
    repeat split; try done; simpl.
    + intros h a Hg. unfold get_window, deref in *; simpl in *.
      destruct (sound_lookup _ _ _ Hs Hg) as (w & Hw & Hh).
      destruct (decide (a = ad)) as [->|Hne].
      * rewrite list_lookup_alter_eq, Hw. simpl. eauto.
      * rewrite list_lookup_alter_ne by done. eauto.
    + apply Hs.
    + intros h. rewrite !window_unfold; simpl.
      destruct (decide (h = k ∧ k ∉ cur)) as [[-> _]|Hn].
      * by rewrite Hk, list_lookup_alter_eq.
      * assert (h ≠ k) by tauto.
        destruct (dict_get (_windows self) h) as [a|] eqn:Hg; [|done].
        destruct (sound_lookup _ _ _ Hs Hg) as (w & Hw & Hh).
        rewrite list_lookup_alter_ne; [done|]. intros ->. congruence.
  - repeat split; try done; try apply Hs.
    intros h. destruct (decide (h = k ∧ k ∉ cur)) as [[-> _]|Hn]; [|done].
    by rewrite window_unfold, Hk.
Qed.

Lemma mark_all_hidden_spec cur ks : ∀ self,
  sound self →
  let self' := fold_left (mark_hidden cur) ks self in
  sound self' ∧
  _windows self' = _windows self ∧
  _running self' = _running self ∧
  _last_update_time self' = _last_update_time self ∧
  _simulation_mode self' = _simulation_mode self ∧
  (∀ h, window self' h =
        if decide (h ∈ ks ∧ h ∉ cur)
        then set_is_visible false <$> window self h
        else window self h).
Proof.
  induction ks as [|k ks IH]; intros self Hs; simpl.
  - repeat split; try done; apply Hs.
  - destruct (mark_hidden_spec cur self k Hs) as (Hs1 & Hd1 & Hr1 & Hl1 & Hm1 & Hw1).
    destruct (IH _ Hs1) as (Hs2 & Hd2 & Hr2 & Hl2 & Hm2 & Hw2).
    split; [done|]. split; [congruence|]. split; [congruence|].
    split; [congruence|]. split; [congruence|].
    intros h. rewrite Hw2, Hw1.
    assert (Hcons : h ∈ k :: ks ↔ h = k ∨ h ∈ ks) by apply elem_of_cons.
    destruct (decide (h ∈ ks ∧ h ∉ cur)) as [[Hin Hc]|Hn1];
      destruct (decide (h = k ∧ k ∉ cur)) as [[Heq Hc']|Hn2];
      destruct (decide (h ∈ k :: ks ∧ h ∉ cur)) as [[Hin' Hc'']|Hn3];
      try done; try (exfalso; clear IH Hw1 Hw2; intuition (subst; tauto)).
    destruct (window self h) as [w|]; done.
Qed.

Lemma record_after_absent clock itv fs : ∀ n h r,
  h ∉ map handle fs → record_after clock n itv fs h r = r.
Proof.
  induction fs as [|f fs IH]; intros n h r Hn; simpl; [done|].
  simpl in Hn. apply not_elem_of_cons in Hn as [Hne Hn].
  rewrite decide_False by done. by apply IH.
Qed.

(** The record of every handle after the locked section. *)
Lemma reconcile_spec clock n itv fs self :
  sound self →
  let self' := reconcile clock n itv fs self in
  sound self' ∧
  _running self' = _running self ∧
  _last_update_time self' = _last_update_time self ∧
  _simulation_mode self' = _simulation_mode self ∧
  (∀ h a, get_window self h = Some a → get_window self' h = Some a) ∧
  (∀ h, window self' h =
        if decide (h ∈ map handle fs)
        then record_after clock n itv fs h (window self h)
        else set_is_visible false <$> window self h).
Proof.
  intros Hs. unfold reconcile.
  destruct (track_all_spec clock itv fs self n Hs) as (Hs1 & Hr1 & Hl1 & Hm1 & Hg1 & Hw1).
  set (self1 := (fold_left (track_found clock itv) fs (self, n)).1) in *.
  destruct (mark_all_hidden_spec (list_to_set (map handle fs)) (keys (_windows self1)) self1 Hs1)
    as (Hs2 & Hd2 & Hr2 & Hl2 & Hm2 & Hw2).
  split; [done|]. split; [congruence|]. split; [congruence|]. split; [congruence|].
  split.
  { intros h a Hg. unfold get_window in *. rewrite Hd2. by apply Hg1. }
  intros h. rewrite Hw2, Hw1.
  destruct (decide (h ∈ map handle fs)) as [Hin|Hout].
  - rewrite decide_False; [done|]. intros [_ Hc]. apply Hc.
    by apply elem_of_list_to_set.
  - rewrite record_after_absent by done.
    destruct (decide _) as [_|Hn]; [done|].
    destruct (window self h) as [w|] eqn:Hw; [|done].
    exfalso. apply Hn. split.
    + apply elem_of_keys. specialize (Hw1 h).
      rewrite record_after_absent, Hw in Hw1 by done.
      rewrite window_unfold in Hw1.
      destruct (dict_get (_windows self1) h); [eauto | done].
    + by rewrite elem_of_list_to_set.
Qed.

(* ===================================================================== *)
(** ** The cycle *)
(* ===================================================================== *)

Lemma enumerate_windows_spec clock itv found : ∀ n acc,
  (enumerate_windows clock n found).2 = (n + 2 * length found)%nat ∧
  map hwnd (enumerate_windows clock n found).1 = map handle found ∧
  fold_left (track_info clock itv) (enumerate_windows clock n found).1 acc
  = fold_left (track_found clock itv) found acc.
Proof.
  induction found as [|f found IH]; intros n acc; simpl.
  - split; [lia | done].
  - destruct (IH (S (S n)) (track_found clock itv acc f)) as (Hn & Hh & Hf).
    destruct (enumerate_windows clock (S (S n)) found) as [ws n'] eqn:E.
    simpl in *. split; [lia|]. split.
    + f_equal; [by destruct f as [[[? ?] ?] ?] | done].
    + by rewrite track_info_built.
Qed.

Lemma _update_windows_answered clock n itv poll self :
  answered self poll = true →
  _update_windows clock n itv poll self
  = (reconcile clock (n + (first_tick poll - 1)) itv (reported poll) self, None).
Proof.
  unfold answered, _update_windows, reconcile.
  destruct poll as [ws a|found|e], (_simulation_mode self); try done; intros _.
  - replace (n + (first_tick (SimulationUpdate ws a) - 1))%nat with n by (simpl; lia).
    assert (Hf : ∀ acc, fold_left (track_tuple clock itv a) ws acc
               = fold_left (track_found clock itv) (map (tuple_found a) ws) acc).
    { induction ws as [|e ws IH]; intros acc; simpl; [done|].
      by rewrite track_tuple_found, IH. }
    rewrite Hf. simpl reported.
    replace (map handle (map (tuple_found a) ws)) with (map (λ e : Z * string * string, e.1.1) ws)
      by (by rewrite map_map).
    by destruct (fold_left _ _ _).
  - destruct (enumerate_windows_spec clock itv found n (self, n)) as (Hn & Hh & _).
    destruct (enumerate_windows clock n found) as [ws n'] eqn:E.
    simpl in Hn, Hh. subst n'.
    destruct (enumerate_windows_spec clock itv found n (self, (n + 2 * length found)%nat))
      as (_ & _ & Hf).
    rewrite E in Hf. simpl in Hf. rewrite Hf, Hh. simpl reported.
    replace (n + (first_tick (Enumerated found) - 1))%nat
      with (n + (length found + (length found + 0)))%nat by (simpl; lia).
    by destruct (fold_left (track_found clock itv) found _).
Qed.

Lemma _update_windows_failed clock n itv poll self :
  answered self poll = false →
  _update_windows clock n itv poll self = (self, Some (failure poll)).
Proof.
  unfold answered, _update_windows.
  by destruct poll as [ws a|found|e], (_simulation_mode self).
Qed.

Lemma tracking_cycle_answered clock poll self last :
  _last_update_time self = Some last → answered self poll = true →
  tracking_cycle clock poll self
  = emit (Slept WINDOW_ENUMERATION_INTERVAL)
      (reconcile clock (first_tick poll) (clock 0%nat - last) (reported poll)
         (set__last_update_time (Some (clock 0%nat)) self)).
Proof.
  intros Hl Ha. unfold tracking_cycle. rewrite Hl.
  rewrite _update_windows_answered by done.
  replace (1 + (first_tick poll - 1))%nat with (first_tick poll); [done|].
  destruct poll; simpl; lia.
Qed.

Lemma tracking_cycle_failed clock poll self last :
  _last_update_time self = Some last → answered self poll = false →
  tracking_cycle clock poll self
  = emit (Slept WINDOW_ENUMERATION_INTERVAL)
      (emit (Logged ERROR (ErrorInTrackingLoop (failure poll)))
         (set__last_update_time (Some (clock 0%nat)) self)).
Proof.
  intros Hl Ha. unfold tracking_cycle. rewrite Hl.
  by rewrite _update_windows_failed.
Qed.

Lemma sound_frame self self' :
  objects self' = objects self → _windows self' = _windows self →
  (_running self' = true → is_Some (_last_update_time self')) →
  sound self → sound self'.
Proof.
  intros Ho Hd Hr [Hs _]. split; [|done].
  unfold get_window, deref. rewrite Ho, Hd. apply Hs.
Qed.

Lemma sound_set_last_update t self :
  sound self → sound (set__last_update_time (Some t) self).
Proof.
  intros Hs. apply (sound_frame self); [done | done | | done]. simpl. eauto.
Qed.

Lemma window_frame self self' h :
  objects self' = objects self → _windows self' = _windows self →
  window self' h = window self h.
Proof. intros Ho Hd. by rewrite !window_unfold, Ho, Hd. Qed.

(** The record of a handle after a cycle whose source answered. *)
Lemma cycle_window clock poll self :
  sound self → _running self = true → answered self poll = true →
  ∃ last, _last_update_time self = Some last ∧
    ∀ h, window (exec clock (Cycle poll) self) h =
         if decide (h ∈ map handle (reported poll))
         then record_after clock (first_tick poll) (clock 0%nat - last)
                (reported poll) h (window self h)
         else set_is_visible false <$> window self h.
Proof.
  intros Hs Hr Ha. destruct (proj2 Hs Hr) as [last Hl].
  exists last. split; [done|]. intros h. simpl. rewrite Hr.
  rewrite (tracking_cycle_answered _ _ _ last) by done.
  set (self0 := set__last_update_time (Some (clock 0%nat)) self).
  assert (Hs0 : sound self0) by by apply sound_set_last_update.
  destruct (reconcile_spec clock (first_tick poll) (clock 0%nat - last) (reported poll) self0 Hs0)
    as (_ & _ & _ & _ & _ & Hw).
  rewrite (window_frame (reconcile _ _ _ _ self0)) by done.
  rewrite Hw. by rewrite (window_frame self).
Qed.

Lemma sound_exec clock c self : sound self → sound (exec clock c self).
Proof.
  intros Hs. destruct c as [| | |poll]; simpl.
  - unfold start. destruct (_running self) eqn:Hr.
    + apply (sound_frame self); [done | done | | done].
      simpl. intros _. by apply Hs.
    + apply (sound_frame self); [done | done | | done]. simpl. eauto.
  - unfold stop. destruct (_running self) eqn:Hr; simpl.
    + by apply (sound_frame self).
    + apply (sound_frame self); [done | done | | done]. simpl. by rewrite Hr.
  - split; [|apply Hs]. intros h a. by unfold get_window.
  - destruct (_running self) eqn:Hr; [|done].
    destruct (proj2 Hs Hr) as [last Hl].
    set (self0 := set__last_update_time (Some (clock 0%nat)) self).
    assert (Hs0 : sound self0) by by apply sound_set_last_update.
    destruct (answered self poll) eqn:Ha.
    + rewrite (tracking_cycle_answered _ _ _ last) by done.
      destruct (reconcile_spec clock (first_tick poll) (clock 0%nat - last) (reported poll) self0 Hs0)
        as (Hs1 & Hr1 & Hl1 & _).
      fold self0.
      apply (sound_frame (reconcile clock (first_tick poll) (clock 0%nat - last) (reported poll) self0));
        [done | done | | done].
      simpl. rewrite Hl1. simpl. eauto.
    + rewrite (tracking_cycle_failed _ _ _ last) by done.
      apply (sound_frame self0); [done | done | | done]. simpl. eauto.
Qed.

Lemma sound_init mode : sound (TimeTracker_init mode).
Proof. split; [by intros h a | done]. Qed.

Lemma sound_run clock calls : ∀ i self,
  sound self → sound (run clock i calls self).
Proof.
  induction calls as [|c calls IH]; intros i self Hs; simpl; [done|].
  apply IH. by apply sound_exec.
Qed.

Lemma reachable_sound self : reachable self → sound self.
Proof. intros (clock & calls & mode & ->). apply sound_run, sound_init. Qed.

(* ===================================================================== *)
(** ** The factory *)
(* ===================================================================== *)

Lemma append_length (s1 s2 : string) :
  String.length (s1 +:+ s2) = (String.length s1 + String.length s2)%nat.
Proof. induction s1 as [|c s1 IH]; simpl; [done | by rewrite IH]. Qed.

Lemma append_hint_differs (s hint : string) :
  hint ≠ EmptyString → s +:+ hint ≠ s.
Proof.
  intros Hh Heq. apply (f_equal String.length) in Heq.
  rewrite append_length in Heq. destruct hint; [done | simpl in Heq; lia].
Qed.

(** C9.  The factory asks the Windows tracker first and the macOS tracker
    second and returns the first that is supported.  When neither is, the
    error is the sentence naming the platform; on [win32] it goes on to say
    that pywin32 is missing and on [darwin] that PyObjC is missing, and on
    any other platform nothing is added, so that the three messages differ. *)
Theorem create_window_tracker_spec (host : Host) :
  (is_supported host WindowsWindowTracker = true →
   create_window_tracker host = inl WindowsWindowTracker) ∧
  (is_supported host WindowsWindowTracker = false →
   is_supported host MacOSWindowTracker = true →
   create_window_tracker host = inl MacOSWindowTracker) ∧
  (is_supported host WindowsWindowTracker = false →
   is_supported host MacOSWindowTracker = false →
   let base := unsupported_platform (sys_platform host) in
   (sys_platform host = "win32" →
    create_window_tracker host = inr (base +:+ pywin32_missing)) ∧
   (sys_platform host = "darwin" →
    create_window_tracker host = inr (base +:+ pyobjc_missing)) ∧
   (sys_platform host ≠ "win32" → sys_platform host ≠ "darwin" →
    create_window_tracker host = inr base) ∧
   contains "pywin32" pywin32_missing = true ∧
   contains "PyObjC" pyobjc_missing = true ∧
   contains "PyObjC" pywin32_missing = false ∧
   contains "pywin32" pyobjc_missing = false ∧
   base +:+ pywin32_missing ≠ base ∧
   base +:+ pyobjc_missing ≠ base).
Proof.
  unfold create_window_tracker. split; [|split].
  - by intros ->.
  - by intros -> ->.
  - intros -> ->. simpl. repeat split.
    + by intros ->.
    + by intros ->.
    + intros Hw Hd.
      apply String.eqb_neq in Hw, Hd. by rewrite Hw, Hd.
    + by apply append_hint_differs.
    + by apply append_hint_differs.
Qed.

Lemma create_window_tracker_spec_witness :
  create_window_tracker (mkHost "win32" false false)
  = inr (unsupported_platform "win32" +:+ pywin32_missing) ∧
  create_window_tracker (mkHost "darwin" false true) = inl MacOSWindowTracker ∧
  create_window_tracker (mkHost "linux" false false)
  = inr (unsupported_platform "linux").
Proof.
  pose proof (create_window_tracker_spec (mkHost "win32" false false)) as (_ & _ & H1).
  pose proof (create_window_tracker_spec (mkHost "darwin" false true)) as (_ & H2 & _).
  pose proof (create_window_tracker_spec (mkHost "linux" false false)) as (_ & _ & H3).
  split; [|split].
  - apply H1; reflexivity.
  - apply H2; reflexivity.
  - apply H3; try reflexivity; discriminate.
Defined.

(* ===================================================================== *)
(** ** A failed poll *)
(* ===================================================================== *)

Lemma failed_cycle_frame clock poll self :
  _running self = true → answered self poll = false →
  let self' := exec clock (Cycle poll) self in
  (∀ h, window self' h = window self h) ∧
  objects self' = objects self ∧ _windows self' = _windows self.
Proof.
  intros Hr Ha. simpl. rewrite Hr. unfold tracking_cycle.
  destruct (_last_update_time self) as [last|] eqn:Hl.
  - by rewrite _update_windows_failed by done.
  - done.
Qed.

(** C8.  A turn of the loop whose source raises (or gives no usable answer)
    catches the exception: the store and the map are exactly what they were,
    every record reads as before, an error is logged, the loop sleeps
    the polling interval, and the flag is still set, so that the next turn of
    the loop is taken. *)
Theorem failed_cycle_keeps_records clock poll self :
  _running self = true → answered self poll = false →
  let self' := exec clock (Cycle poll) self in
  objects self' = objects self ∧
  _windows self' = _windows self ∧
  (∀ h, window self' h = window self h) ∧
  get_all_windows self' = get_all_windows self ∧
  (∃ e, events self' =
        events self ++ [Logged ERROR (ErrorInTrackingLoop e);
                        Slept WINDOW_ENUMERATION_INTERVAL]) ∧
  _running self' = true ∧
  (∀ clock' poll', exec clock' (Cycle poll') self' = tracking_cycle clock' poll' self').
Proof.
  intros Hr Ha. simpl. rewrite Hr. unfold tracking_cycle.
  destruct (_last_update_time self) as [last|] eqn:Hl.
  - rewrite _update_windows_failed by done. simpl.
    repeat split; try done.
    + exists (failure poll). by rewrite <- app_assoc.
    + intros clock' poll'. by rewrite Hr.
  - simpl. repeat split; try done.
    + exists "TypeError". by rewrite <- app_assoc.
    + intros clock' poll'. by rewrite Hr.
Qed.

Lemma failed_cycle_keeps_records_witness :
  let self := run one_per_second 0 editor_then_browser (TimeTracker_init true) in
  let self' := exec (one_per_second 3) (Cycle (SourceRaises "OSError")) self in
  _windows self' = _windows self ∧ objects self' = objects self ∧
  _running self' = true.
Proof.
  intros self self'.
  destruct (failed_cycle_keeps_records (one_per_second 3) (SourceRaises "OSError") self)
    as (Ho & Hw & _ & _ & _ & Hr & _); [reflexivity | reflexivity |].
  exact (conj Hw (conj Ho Hr)).
Defined.

(* ===================================================================== *)
(** ** Statistics *)
(* ===================================================================== *)

(** C10.  [get_stats] reports the title of the first record, in the order of
    the map, whose [is_active] is set, whatever its [is_visible]; and there is
    a run after which the window so reported is absent from the latest
    snapshot and not visible. *)
Theorem get_stats_reports_ghost :
  (∀ self w, find is_active (window_values self) = Some w →
             active_window (get_stats self) = Some (title w)) ∧
  (∀ self, find is_active (window_values self) = None →
           active_window (get_stats self) = None) ∧
  (let self := run one_per_second 0 editor_then_browser (TimeTracker_init true) in
   ∃ w, window self 1 = Some w ∧
        is_visible w = false ∧
        (1 ∉ map handle (reported (SimulationUpdate [(2, "Browser", "browser")] 2))) ∧
        active_window (get_stats self) = Some (title w)).
Proof.
  split; [|split].
  - intros self w H. unfold get_stats; simpl. by rewrite H.
  - intros self H. unfold get_stats; simpl. by rewrite H.
  - eexists. split; [vm_compute; reflexivity|].
    split; [reflexivity|]. split; [|vm_compute; reflexivity].
    rewrite list_elem_of_In. simpl. intros [H|[]]. discriminate.
Qed.

(* ===================================================================== *)
(** ** The record of one handle through a cycle *)
(* ===================================================================== *)

Lemma refresh_fields s o itv f w :
  let w' := refresh s o itv f w in
  hwnd w' = hwnd w ∧ title w' = f.1.1.2 ∧ process_name w' = process_name w ∧
  first_seen w' = first_seen w ∧ last_seen w' = s ∧
  total_open_time w' = o - first_seen w ∧
  active_time w' = (if f.2 then active_time w + itv else active_time w) ∧
  is_active w' = f.2 ∧ is_visible w' = true.
Proof. unfold refresh, update_times. by destruct f.2. Qed.

Lemma record_after_app clock itv fs1 fs2 h : ∀ n r,
  record_after clock n itv (fs1 ++ fs2) h r
  = record_after clock (n + 2 * length fs1) itv fs2 h
      (record_after clock n itv fs1 h r).
Proof.
  induction fs1 as [|f fs1 IH]; intros n r; simpl.
  - by rewrite Nat.add_0_r.
  - rewrite IH. f_equal. lia.
Qed.

Lemma record_after_kept clock itv fs h : ∀ n w,
  ∃ w', record_after clock n itv fs h (Some w) = Some w' ∧
        hwnd w' = hwnd w ∧ process_name w' = process_name w ∧
        first_seen w' = first_seen w.
Proof.
  induction fs as [|f fs IH]; intros n w; simpl; [by eexists|].
  destruct (decide (h = handle f)); [|apply IH].
  destruct (IH (S (S n)) (refresh (clock n) (clock (S n)) itv f w))
    as (w' & -> & Hh & Hp & Hf).
  destruct (refresh_fields (clock n) (clock (S n)) itv f w) as (? & _ & ? & ? & _).
  eexists; split; [done|]. repeat split; congruence.
Qed.

(** The last sighting of a handle decides its record. *)
Lemma record_after_last clock n itv fs1 f fs2 r :
  handle f ∉ map handle fs2 →
  let m := (n + 2 * length fs1)%nat in
  record_after clock n itv (fs1 ++ f :: fs2) (handle f) r
  = Some (match record_after clock n itv fs1 (handle f) r with
          | Some w => refresh (clock m) (clock (S m)) itv f w
          | None => adopt (clock m) (clock (S m)) f
          end).
Proof.
  intros Hout. rewrite record_after_app. simpl.
  rewrite decide_True by done. by rewrite record_after_absent.
Qed.

Lemma last_sighting (fs : list Found) h :
  h ∈ map handle fs →
  ∃ fs1 f fs2, fs = fs1 ++ f :: fs2 ∧ handle f = h ∧ h ∉ map handle fs2.
Proof.
  induction fs as [|f fs IH]; simpl; [by intros ?%elem_of_nil|].
  intros Hin. destruct (decide (h ∈ map handle fs)) as [Hi|Ho].
  - destruct (IH Hi) as (fs1 & f' & fs2 & -> & Hh & Hout).
    by exists (f :: fs1), f', fs2.
  - apply elem_of_cons in Hin as [->|?]; [|done].
    by exists [], f, fs.
Qed.

Lemma record_after_present clock n itv fs h r :
  h ∈ map handle fs →
  ∃ f w, f ∈ fs ∧ handle f = h ∧
         record_after clock n itv fs h r = Some w ∧
         title w = f.1.1.2 ∧ is_active w = f.2 ∧ is_visible w = true.
Proof.
  intros Hin. destruct (last_sighting fs h Hin) as (fs1 & f & fs2 & -> & <- & Hout).
  exists f. eexists. split; [apply elem_of_app; right; by left|].
  split; [done|]. rewrite record_after_last by done. split; [done|].
  destruct (record_after clock n itv fs1 (handle f) r) as [w|] eqn:E; [|done].
  destruct (refresh_fields (clock (n + 2 * length fs1)%nat)
              (clock (S (n + 2 * length fs1))) itv f w)
    as (_ & Ht & _ & _ & _ & _ & _ & Ha & Hv).
  done.
Qed.

(* ===================================================================== *)
(** ** What a call does to the records *)
(* ===================================================================== *)

Lemma reachable_intro clock calls mode :
  reachable (run clock 0 calls (TimeTracker_init mode)).
Proof. by exists clock, calls, mode. Qed.

(** A call clears the map, or leaves every record as it was, or is a cycle
    whose source answered. *)
Lemma exec_window_cases clock c self :
  sound self →
  (c = Clear ∧ ∀ h, window (exec clock c self) h = None) ∨
  (c ≠ Clear ∧ ∀ h, window (exec clock c self) h = window self h) ∨
  (∃ poll last,
     c = Cycle poll ∧ _running self = true ∧ answered self poll = true ∧
     _last_update_time self = Some last ∧
     _last_update_time (exec clock c self) = Some (clock 0%nat) ∧
     ∀ h, window (exec clock c self) h =
          if decide (h ∈ map handle (reported poll))
          then record_after clock (first_tick poll) (clock 0%nat - last)
                 (reported poll) h (window self h)
          else set_is_visible false <$> window self h).
Proof.
  intros Hs. destruct c as [| | |poll].
  - right; left. split; [done|]. intros h. simpl. unfold start.
    by destruct (_running self); apply window_frame.
  - right; left. split; [done|]. intros h. simpl. unfold stop.
    by destruct (_running self); apply window_frame.
  - left. split; [done|]. intros h. by rewrite window_unfold.
  - destruct (_running self) eqn:Hr.
    + destruct (answered self poll) eqn:Ha.
      * right; right. destruct (cycle_window clock poll self Hs Hr Ha) as (last & Hl & Hw).
        exists poll, last. repeat split; try done.
        simpl. rewrite Hr, (tracking_cycle_answered _ _ _ last) by done.
        set (self0 := set__last_update_time (Some (clock 0%nat)) self).
        assert (Hs0 : sound self0) by by apply sound_set_last_update.
        destruct (reconcile_spec clock (first_tick poll) (clock 0%nat - last)
                    (reported poll) self0 Hs0) as (_ & _ & Hl' & _).
        simpl. exact Hl'.
      * right; left. split; [done|].
        by destruct (failed_cycle_frame clock poll self Hr Ha).
    + right; left. split; [done|]. intros h. simpl. by rewrite Hr.
Qed.

Lemma exec_keeps_objects clock c self h a :
  sound self → c ≠ Clear →
  get_window self h = Some a → get_window (exec clock c self) h = Some a.
Proof.
  intros Hs Hc Hg. destruct c as [| | |poll]; simpl; [| |done|].
  - unfold start. by destruct (_running self).
  - unfold stop. by destruct (_running self).
  - destruct (_running self) eqn:Hr; [|done].
    destruct (answered self poll) eqn:Ha.
    + destruct (proj2 Hs Hr) as [last Hl].
      rewrite (tracking_cycle_answered _ _ _ last) by done.
      set (self0 := set__last_update_time (Some (clock 0%nat)) self).
      assert (Hs0 : sound self0) by by apply sound_set_last_update.
      destruct (reconcile_spec clock (first_tick poll) (clock 0%nat - last)
                  (reported poll) self0 Hs0) as (_ & _ & _ & _ & Hk & _).
      unfold get_window. simpl. by apply Hk.
    + destruct (failed_cycle_frame clock poll self Hr Ha) as (_ & _ & Hd).
      simpl in Hd. rewrite Hr in Hd. unfold get_window. by rewrite Hd.
Qed.

Lemma run_keeps_objects clock calls h a : ∀ i self,
  sound self → Clear ∉ calls →
  get_window self h = Some a → get_window (run clock i calls self) h = Some a.
Proof.
  induction calls as [|c calls IH]; intros i self Hs Hc Hg; simpl; [done|].
  apply not_elem_of_cons in Hc as [Hne Hc].
  apply IH; [by apply sound_exec | done | by apply exec_keeps_objects].
Qed.

(* ===================================================================== *)
(** ** Visibility *)
(* ===================================================================== *)

(** C7.  After a cycle whose source answered, every handle of the snapshot
    of that cycle has a record and that record is visible, and a tracked
    record is visible exactly when its handle is in the snapshot. *)
Theorem visible_iff_in_snapshot clock poll self :
  reachable self → _running self = true → answered self poll = true →
  (∀ h, h ∈ map handle (reported poll) →
        ∃ w, window (exec clock (Cycle poll) self) h = Some w ∧
             is_visible w = true) ∧
  (∀ h w, window (exec clock (Cycle poll) self) h = Some w →
          (is_visible w = true ↔ h ∈ map handle (reported poll))).
Proof.
  intros Hre Hr Ha. apply reachable_sound in Hre.
  destruct (cycle_window clock poll self Hre Hr Ha) as (last & Hl & Hc).
  assert (Hpresent : ∀ h, h ∈ map handle (reported poll) →
            ∃ w, window (exec clock (Cycle poll) self) h = Some w ∧
                 is_visible w = true).
  { intros h Hin. rewrite Hc, decide_True by done.
    destruct (record_after_present clock (first_tick poll) (clock 0%nat - last)
                (reported poll) h (window self h) Hin)
      as (f & w & _ & _ & E & _ & _ & Hv).
    by exists w. }
  split; [exact Hpresent|]. intros h w Hw.
  destruct (decide (h ∈ map handle (reported poll))) as [Hin|Hout].
  - split; [done|]. intros _.
    destruct (Hpresent h Hin) as (w' & Hw' & Hv). congruence.
  - split; [|done]. rewrite Hc, decide_False in Hw by done.
    destruct (window self h) as [w0|]; [|done].
    injection Hw as <-. done.
Qed.

Lemma visible_iff_in_snapshot_witness :
  let self := run one_per_second 0 editor_once (TimeTracker_init true) in
  let poll := SimulationUpdate [(2, "Browser", "browser")] 2 in
  let w := mkWindowInfo 1 "Editor" "editor" (seconds 1) (seconds 1) 0 0 true false in
  (∃ w', window (exec (one_per_second 2) (Cycle poll) self) 2 = Some w' ∧
         is_visible w' = true) ∧
  (is_visible w = true ↔ 1 ∈ map handle (reported poll)).
Proof.
  intros self poll w.
  destruct (visible_iff_in_snapshot (one_per_second 2) poll self) as [Hin Hiff].
  - apply reachable_intro.
  - reflexivity.
  - reflexivity.
  - split.
    + apply Hin. subst poll. simpl. by left.
    + apply (Hiff 1 w). vm_compute. reflexivity.
Defined.

(* ===================================================================== *)
(** ** Retention *)
(* ===================================================================== *)

(** C5.  A handle in the map stays in it through every run of calls that
    has no [clear()]; a cycle whose snapshot omits a tracked handle turns its
    [is_visible] off and changes no other field of its record; [clear()]
    empties the map. *)
Theorem records_retained_until_clear self :
  reachable self →
  (∀ clock i calls h,
     Clear ∉ calls → h ∈ keys (_windows self) →
     h ∈ keys (_windows (run clock i calls self))) ∧
  (∀ clock poll h w,
     _running self = true → answered self poll = true →
     h ∉ map handle (reported poll) → window self h = Some w →
     window (exec clock (Cycle poll) self) h = Some (set_is_visible false w)) ∧
  _windows (clear self) = [].
Proof.
  intros Hre. apply reachable_sound in Hre. split; [|split; [|done]].
  - intros clock i calls h Hc Hin. apply elem_of_keys in Hin as [a Ha].
    apply elem_of_keys. exists a. by apply (run_keeps_objects clock calls h a).
  - intros clock poll h w Hr Ha Hout Hw.
    destruct (cycle_window clock poll self Hre Hr Ha) as (last & Hl & Hc).
    by rewrite Hc, decide_False, Hw by done.
Qed.

Lemma records_retained_until_clear_witness :
  let self := run one_per_second 0 editor_once (TimeTracker_init true) in
  window (exec (one_per_second 2) (Cycle (SimulationUpdate [(2, "Browser", "browser")] 2)) self) 1
  = Some (mkWindowInfo 1 "Editor" "editor" (seconds 1) (seconds 1) 0 0 true false).
Proof.
  intros self.
  destruct (records_retained_until_clear self (reachable_intro _ _ _)) as (_ & H & _).
  apply (H (one_per_second 2) (SimulationUpdate [(2, "Browser", "browser")] 2) 1
           (mkWindowInfo 1 "Editor" "editor" (seconds 1) (seconds 1) 0 0 true true)).
  - reflexivity.
  - reflexivity.
  - rewrite list_elem_of_In. simpl. intros [H1|[]]. discriminate.
  - vm_compute. reflexivity.
Defined.

(* ===================================================================== *)
(** ** A window sighted again *)
(* ===================================================================== *)

(** C6, as stated, fails: the window is reported with process name
    ["notepad.exe"] in the latest cycle and its record still says
    ["Unknown"]. *)
Lemma process_name_not_refreshed :
  let self := run one_per_second 0 process_named_later (TimeTracker_init false) in
  reported (Enumerated (WindowsWindowTracker_found [(1, "Untitled", "notepad.exe")] (Some 1)))
  = [(1, "Untitled", "notepad.exe", true)] ∧
  ¬ (∃ w, window self 1 = Some w ∧ process_name w = "notepad.exe").
Proof.
  split; [reflexivity|]. intros (w & Hw & Hp).
  vm_compute in Hw. injection Hw as <-. discriminate.
Qed.

(** C6, amended.  When a cycle sights a tracked handle, its record goes
    through [update_times] and takes the title, the visibility and the focus
    flag of the last sighting; its process name and [first_seen] stay those
    of the record. *)
Theorem sighting_refreshes_title clock poll self fs1 f fs2 w :
  reachable self → _running self = true → answered self poll = true →
  reported poll = fs1 ++ f :: fs2 → handle f ∉ map handle fs2 →
  window self (handle f) = Some w →
  ∃ last w1 now_seen now_open,
    _last_update_time self = Some last ∧
    (handle f ∉ map handle fs1 → w1 = w) ∧
    window (exec clock (Cycle poll) self) (handle f)
    = Some (set_is_active f.2
              (set_is_visible true
                 (set_title f.1.1.2
                    (update_times now_seen now_open (clock 0%nat - last) f.2 w1)))) ∧
    ∀ w', window (exec clock (Cycle poll) self) (handle f) = Some w' →
          title w' = f.1.1.2 ∧ is_visible w' = true ∧ is_active w' = f.2 ∧
          process_name w' = process_name w ∧ first_seen w' = first_seen w.
Proof.
  intros Hre Hr Ha Hrep Hout Hw. apply reachable_sound in Hre.
  destruct (cycle_window clock poll self Hre Hr Ha) as (last & Hl & Hc).
  specialize (Hc (handle f)). rewrite Hrep in Hc.
  rewrite decide_True in Hc
    by (rewrite map_app; apply elem_of_app; right; by left).
  rewrite record_after_last, Hw in Hc by done.
  destruct (record_after_kept clock (clock 0%nat - last) fs1 (handle f) (first_tick poll) w)
    as (w1 & E & _ & Hp & Hf).
  rewrite E in Hc.
  exists last, w1. do 2 eexists. split; [done|]. split; [|split; [exact Hc|]].
  - intros Hnot. rewrite record_after_absent in E by done. congruence.
  - intros w' Hw'. rewrite Hc in Hw'. injection Hw' as <-.
    match goal with |- context [refresh ?s ?o ?i f w1] =>
      destruct (refresh_fields s o i f w1) as (_ & ? & ? & ? & _ & _ & _ & ? & ?)
    end.
    repeat split; congruence.
Qed.

Lemma sighting_refreshes_title_witness :
  let self := run one_per_second 0 editor_once (TimeTracker_init true) in
  ∃ last w1 now_seen now_open,
    _last_update_time self = Some last ∧
    (1 ∉ map handle [] → w1 = mkWindowInfo 1 "Editor" "editor" (seconds 1) (seconds 1) 0 0 true true) ∧
    window (exec (one_per_second 2)
              (Cycle (SimulationUpdate [(1, "Editor - notes", "editor")] 1)) self) 1
    = Some (set_is_active true
              (set_is_visible true
                 (set_title "Editor - notes"
                    (update_times now_seen now_open (one_per_second 2 0%nat - last) true w1)))).
Proof.
  intros self.
  destruct (sighting_refreshes_title (one_per_second 2)
              (SimulationUpdate [(1, "Editor - notes", "editor")] 1) self
              [] (1, "Editor - notes", "editor", true) []
              (mkWindowInfo 1 "Editor" "editor" (seconds 1) (seconds 1) 0 0 true true))
    as (last & w1 & s & o & Hl & H1 & Hw & _).
  - apply reachable_intro.
  - reflexivity.
  - reflexivity.
  - reflexivity.
  - simpl. apply not_elem_of_nil.
  - vm_compute. reflexivity.
  - exists last, w1, s, o. exact (conj Hl (conj H1 Hw)).
Defined.

(* ===================================================================== *)
(** ** A window sighted for the first time *)
(* ===================================================================== *)

(** C1, as stated, fails: the cycle lasts one second and inserts the focused
    window, whose record is active and visible with no active time at all,
    a whole interval away from the interval. *)
Lemma first_cycle_credits_nothing :
  let self := run one_per_second 0 editor_once (TimeTracker_init true) in
  one_per_second 1 0%nat - one_per_second 0 0%nat = seconds 1 ∧
  window self 1
  = Some (mkWindowInfo 1 "Editor" "editor" (seconds 1) (seconds 1) 0 0 true true) ∧
  ¬ (∃ w, window self 1 = Some w ∧ Z.abs (active_time w - seconds 1) < seconds 1).
Proof.
  split; [reflexivity|]. split; [vm_compute; reflexivity|].
  intros (w & Hw & Hlt). vm_compute in Hw. injection Hw as <-.
  vm_compute in Hlt. discriminate.
Qed.

(** C1, amended.  A handle that is not tracked and that the cycle sights
    once, as focused, gets a new record that is active and visible and
    carries what was reported, with no active time and no open time: the
    interval of the cycle is not credited to it. *)
Theorem first_sighting_record clock poll self fs1 f fs2 :
  reachable self → _running self = true → answered self poll = true →
  reported poll = fs1 ++ f :: fs2 →
  handle f ∉ map handle fs1 → handle f ∉ map handle fs2 →
  window self (handle f) = None → f.2 = true →
  ∃ now1 now2,
    window (exec clock (Cycle poll) self) (handle f)
    = Some (mkWindowInfo (handle f) f.1.1.2 f.1.2 now1 now2 0 0 true true).
Proof.
  intros Hre Hr Ha Hrep Hout1 Hout2 Hw Hf. apply reachable_sound in Hre.
  destruct (cycle_window clock poll self Hre Hr Ha) as (last & Hl & Hc).
  specialize (Hc (handle f)). rewrite Hrep in Hc.
  rewrite decide_True in Hc
    by (rewrite map_app; apply elem_of_app; right; by left).
  rewrite record_after_last, record_after_absent, Hw in Hc by done.
  do 2 eexists. rewrite Hc. unfold adopt. by rewrite Hf.
Qed.

Lemma first_sighting_record_witness :
  ∃ now1 now2,
    window (run one_per_second 0 editor_once (TimeTracker_init true)) 1
    = Some (mkWindowInfo 1 "Editor" "editor" now1 now2 0 0 true true).
Proof.
  apply (first_sighting_record (one_per_second 1)
           (SimulationUpdate [(1, "Editor", "editor")] 1)
           (run one_per_second 0 [Start] (TimeTracker_init true))
           [] (1, "Editor", "editor", true) []).
  - apply reachable_intro.
  - reflexivity.
  - reflexivity.
  - reflexivity.
  - simpl. apply not_elem_of_nil.
  - simpl. apply not_elem_of_nil.
  - reflexivity.
  - reflexivity.
Defined.

(* ===================================================================== *)
(** ** Focus *)
(* ===================================================================== *)

(** C2, as stated, fails: each cycle reports one focused handle, the window
    focused first is absent from the second snapshot, and both records are
    active afterwards. *)
Lemma stale_focus_survives :
  let self := run one_per_second 0 editor_then_browser (TimeTracker_init true) in
  Forall one_focus_reported editor_then_browser ∧
  window self 1
  = Some (mkWindowInfo 1 "Editor" "editor" (seconds 1) (seconds 1) 0 0 true false) ∧
  window self 2
  = Some (mkWindowInfo 2 "Browser" "browser" (seconds 2) (seconds 2) 0 0 true true) ∧
  ¬ single_focus self.
Proof.
  split; [|split; [vm_compute; reflexivity | split; [vm_compute; reflexivity|]]].
  - repeat constructor; simpl; intros f g Hf Hg _ _;
      apply list_elem_of_In in Hf, Hg; simpl in Hf, Hg;
      destruct Hf as [<-|[]], Hg as [<-|[]]; reflexivity.
  - intros H.
    specialize (H 1 2 _ _ ltac:(vm_compute; reflexivity) ltac:(vm_compute; reflexivity)
                  eq_refl eq_refl).
    discriminate.
Qed.

Lemma visible_single_focus_exec clock c self :
  sound self → one_focus_reported c →
  visible_single_focus self → visible_single_focus (exec clock c self).
Proof.
  intros Hs Hone Hinv.
  destruct (exec_window_cases clock c self Hs)
    as [[_ Hw]|[[_ Hw]|(poll & last & -> & Hr & Ha & Hl & _ & Hw)]];
    intros h1 h2 w1 w2; rewrite !Hw.
  - done.
  - apply Hinv.
  - intros H1 H2 Hv1 Ha1 Hv2 Ha2.
    destruct (decide (h1 ∈ map handle (reported poll))) as [Hin1|Hout1]; cycle 1.
    { destruct (window self h1); [|done]. injection H1 as <-. done. }
    destruct (decide (h2 ∈ map handle (reported poll))) as [Hin2|Hout2]; cycle 1.
    { destruct (window self h2); [|done]. injection H2 as <-. done. }
    destruct (record_after_present clock (first_tick poll) (clock 0%nat - last)
                (reported poll) h1 (window self h1) Hin1)
      as (f & w1' & Hf & <- & E1 & _ & Hact1 & _).
    destruct (record_after_present clock (first_tick poll) (clock 0%nat - last)
                (reported poll) h2 (window self h2) Hin2)
      as (g & w2' & Hg & <- & E2 & _ & Hact2 & _).
    apply (Hone f g Hf Hg); congruence.
Qed.

(** C2, amended.  Whatever the calls, as long as every poll flags at most
    one handle as focused, no two visible records are active.  (A record that
    is no longer visible keeps the flag it had.) *)
Theorem at_most_one_visible_focus clock calls mode :
  Forall one_focus_reported calls →
  visible_single_focus (run clock 0 calls (TimeTracker_init mode)).
Proof.
  intros Hall.
  assert (Hgen : ∀ i self, sound self → visible_single_focus self →
                           visible_single_focus (run clock i calls self)).
  { induction Hall as [|c calls Hc Hall IH]; intros i self Hs Hinv; simpl; [done|].
    apply IH; [by apply sound_exec | by apply visible_single_focus_exec]. }
  apply Hgen; [apply sound_init|].
  intros h1 h2 w1 w2 H1. by rewrite window_unfold in H1.
Qed.

Lemma at_most_one_visible_focus_witness :
  visible_single_focus (run one_per_second 0 editor_then_browser (TimeTracker_init true)).
Proof.
  apply at_most_one_visible_focus.
  repeat constructor; simpl; intros f g Hf Hg _ _;
    apply list_elem_of_In in Hf, Hg; simpl in Hf, Hg;
    destruct Hf as [<-|[]], Hg as [<-|[]]; reflexivity.
Defined.

(* ===================================================================== *)
(** ** What a reader holds *)
(* ===================================================================== *)

Lemma dict_get_values d h a : dict_get d h = Some a → a ∈ values d.
Proof.
  induction d as [|[k' a'] d IH]; simpl; [done|].
  destruct (h =? k'); [intros [= ->]; by left | intros; right; by apply IH].
Qed.

(** C3, as stated, fails: the object [get_window] and [get_all_windows]
    hand out after the first cycle is the one the next cycle updates, and the
    reader holding it finds other times in it afterwards. *)
Lemma reader_sees_later_cycle :
  let self := run one_per_second 0 editor_once (TimeTracker_init true) in
  let self' := exec (one_per_second 2)
                 (Cycle (SimulationUpdate [(1, "Editor", "editor")] 1)) self in
  get_window self 1 = Some 0%nat ∧
  get_all_windows self = [0%nat] ∧
  deref self 0
  = Some (mkWindowInfo 1 "Editor" "editor" (seconds 1) (seconds 1) 0 0 true true) ∧
  deref self' 0
  = Some (mkWindowInfo 1 "Editor" "editor" (seconds 1) (seconds 2) (seconds 1)
            (seconds 1) true true) ∧
  deref self' 0 ≠ deref self 0.
Proof.
  repeat split; try (vm_compute; reflexivity).
  vm_compute. discriminate.
Qed.

(** C3, amended.  [get_window] returns the object of the map itself and
    [get_all_windows] a new list of the objects of the map.  Through every
    later call other than [clear()] the handle stays bound to that object, so
    what the reader holds always shows the current record of the engine. *)
Theorem readers_hold_the_live_object self h a :
  reachable self → get_window self h = Some a →
  a ∈ get_all_windows self ∧
  deref self a = window self h ∧
  ∀ clock c, c ≠ Clear →
    get_window (exec clock c self) h = Some a ∧
    a ∈ get_all_windows (exec clock c self) ∧
    deref (exec clock c self) a = window (exec clock c self) h.
Proof.
  intros Hre Hg. apply reachable_sound in Hre.
  split; [by apply (dict_get_values _ h)|].
  split; [unfold window; by rewrite Hg|].
  intros clock c Hc.
  pose proof (exec_keeps_objects clock c self h a Hre Hc Hg) as Hg'.
  split; [done|]. split; [by apply (dict_get_values _ h)|].
  unfold window. by rewrite Hg'.
Qed.

Lemma readers_hold_the_live_object_witness :
  let self := run one_per_second 0 editor_once (TimeTracker_init true) in
  let self' := exec (one_per_second 2)
                 (Cycle (SimulationUpdate [(1, "Editor", "editor")] 1)) self in
  get_window self' 1 = Some 0%nat ∧ deref self' 0 = window self' 1.
Proof.
  intros self self'.
  destruct (readers_hold_the_live_object self 1 0%nat (reachable_intro _ _ _))
    as (_ & _ & H); [reflexivity|].
  destruct (H (one_per_second 2) (Cycle (SimulationUpdate [(1, "Editor", "editor")] 1)))
    as (H1 & _ & H2); [discriminate|].
  exact (conj H1 H2).
Defined.

(* ===================================================================== *)
(** ** Time accounting *)
(* ===================================================================== *)

Lemma cycle_last_update clock poll self :
  sound self → _running self = true →
  _last_update_time (exec clock (Cycle poll) self) = Some (clock 0%nat).
Proof.
  intros Hs Hr. simpl. rewrite Hr. destruct (proj2 Hs Hr) as [last Hl].
  destruct (answered self poll) eqn:Ha.
  - rewrite (tracking_cycle_answered _ _ _ last) by done.
    set (self0 := set__last_update_time (Some (clock 0%nat)) self).
    assert (Hs0 : sound self0) by by apply sound_set_last_update.
    destruct (reconcile_spec clock (first_tick poll) (clock 0%nat - last)
                (reported poll) self0 Hs0) as (_ & _ & Hl' & _).
    simpl. exact Hl'.
  - by rewrite (tracking_cycle_failed _ _ _ last) by done.
Qed.

Lemma exec_last_update clock c self last' :
  sound self → _last_update_time (exec clock c self) = Some last' →
  last' = clock 0%nat ∨ _last_update_time self = Some last'.
Proof.
  intros Hs. destruct c as [| | |poll].
  - simpl. unfold start.
    destruct (_running self); simpl; [by right | intros [= <-]; by left].
  - simpl. unfold stop. destruct (_running self); simpl; by right.
  - by right.
  - destruct (_running self) eqn:Hr.
    + rewrite cycle_last_update by done. intros [= <-]. by left.
    + simpl. rewrite Hr. by right.
Qed.

Lemma record_after_sighted clock n itv fs h r w' :
  h ∈ map handle fs → record_after clock n itv fs h r = Some w' →
  ∃ m, first_seen w' + total_open_time w' = clock m ∧
       ∀ w, r = Some w → first_seen w' = first_seen w.
Proof.
  intros Hin. destruct (last_sighting fs h Hin) as (fs1 & f & fs2 & -> & <- & Hout).
  rewrite record_after_last by done.
  destruct r as [w|].
  - destruct (record_after_kept clock itv fs1 (handle f) n w) as (w1 & -> & _ & _ & Hf).
    intros [= <-].
    match goal with |- context [refresh (clock ?s) (clock ?o) ?i f w1] =>
      destruct (refresh_fields (clock s) (clock o) i f w1)
        as (_ & _ & _ & Hf' & _ & Ht & _);
      exists o
    end.
    split; [lia|]. intros w0 [= <-]. congruence.
  - destruct (record_after clock n itv fs1 (handle f) None) as [w1|].
    + intros [= <-].
      match goal with |- context [refresh (clock ?s) (clock ?o) ?i f w1] =>
        destruct (refresh_fields (clock s) (clock o) i f w1)
          as (_ & _ & _ & Hf' & _ & Ht & _);
        exists o
      end.
      split; [lia | done].
    + intros [= <-]. eexists. split; [simpl; apply Z.add_0_r | done].
Qed.



Section Clock.
Variable clock : nat → nat → Z.
Hypothesis clock_monotone : monotone clock.

Lemma monotone_from_zero i m : clock i 0%nat ≤ clock i m.
Proof. destruct clock_monotone as [H _]. apply H. lia. Qed.

Lemma monotone_next i n m : clock i n ≤ clock (S i) m.
Proof. destruct clock_monotone as [_ H]. apply H. Qed.

Lemma timely_exec i c self :
  sound self → timely clock i self →
  timely clock (S i) (exec (clock i) c self).
Proof.
  intros Hs [Hl Hw]. split.
  - intros last' Hl'.
    apply exec_last_update in Hl' as [->|Hl']; [apply monotone_next | | done].
    specialize (Hl _ Hl'). pose proof (monotone_next i 0 0). lia.
  - intros h w'.
    destruct (exec_window_cases (clock i) c self Hs)
      as [[_ Hc]|[[_ Hc]|(poll & last & -> & Hr & Ha & Hl0 & _ & Hc)]]; rewrite Hc.
    + done.
    + intros H. specialize (Hw _ _ H). pose proof (monotone_next i 0 0). lia.
    + destruct (decide (h ∈ map handle (reported poll))) as [Hin|Hout].
      * intros H. destruct (record_after_sighted _ _ _ _ _ _ _ Hin H) as (m & -> & _).
        apply monotone_next.
      * destruct (window self h) as [w|] eqn:E; [|done]. intros [= <-]. simpl.
        specialize (Hw _ _ E). pose proof (monotone_next i 0 0). lia.
Qed.

Lemma timely_run calls : ∀ i self,
  sound self → timely clock i self →
  timely clock (i + length calls) (run clock i calls self).
Proof.
  induction calls as [|c calls IH]; intros i self Hs Ht; simpl.
  - by rewrite Nat.add_0_r.
  - replace (i + S (length calls))%nat with (S i + length calls)%nat by lia.
    apply IH; [by apply sound_exec | by apply timely_exec].
Qed.

Lemma timely_init mode : timely clock 0 (TimeTracker_init mode).
Proof. split; [done|]. intros h w H. by rewrite window_unfold in H. Qed.



Hypothesis clock_instantaneous : instantaneous clock.



End Clock.


(** Two simulated people can draw the same random handle.  The second tuple
    of the cycle then updates the record the first one has just created, and
    the interval is credited to a window that has been open for no time at
    all, even on a clock that stands still during the cycle. *)
Example colliding_handles_credit_at_once :
  let self := run one_per_second 0
                [Start;
                 Cycle (SimulationUpdate
                          [(70000, "Mom - Doing laundry", "parent.exe");
                           (70000, "Dad - Napping on recliner", "parent.exe")] 70000)]
                (TimeTracker_init true) in
  instantaneous one_per_second ∧
  window self 70000
  = Some (mkWindowInfo 70000 "Dad - Napping on recliner" "parent.exe"
            (seconds 1) (seconds 1) 0 (seconds 1) true true).
Proof. split; [by intros i n | vm_compute; reflexivity]. Qed.



(* ===================================================================== *)
(** ** The shape of the map and of the store *)
(* ===================================================================== *)

Lemma dict_set_new (d : list (Z * nat)) k a :
  dict_get d k = None → dict_set d k a = d ++ [(k, a)].
Proof.
  induction d as [|[k' a'] d IH]; simpl; [done|].
  destruct (k =? k'); [done|]. intros H. by rewrite IH.
Qed.

Lemma dict_get_elem_of (d : list (Z * nat)) h a :
  dict_get d h = Some a → (h, a) ∈ d.
Proof.
  induction d as [|[k' a'] d IH]; simpl; [done|].
  destruct (h =? k') eqn:E.
  - apply Z.eqb_eq in E as ->. intros [= ->]. by left.
  - intros H. right. by apply IH.
Qed.

Lemma elem_of_dict_get (d : list (Z * nat)) h a :
  NoDup (keys d) → (h, a) ∈ d → dict_get d h = Some a.
Proof.
  induction d as [|[k' a'] d IH]; simpl; [by intros _ ?%elem_of_nil|].
  intros Hnd Hin. apply NoDup_cons in Hnd as [Hk Hnd].
  apply elem_of_cons in Hin as [Heq|Hin].
  - injection Heq as -> ->. by rewrite Z.eqb_refl.
  - destruct (h =? k') eqn:E; [|by apply IH].
    apply Z.eqb_eq in E as ->. exfalso. apply Hk.
    apply list_elem_of_fmap. by exists (k', a).
Qed.

(** What one sighting does to the map and to the store. *)
Lemma track_found_shape clock itv self n f :
  let self' := (track_found clock itv (self, n) f).1 in
  (∃ a, get_window self (handle f) = Some a ∧
        _windows self' = _windows self ∧
        objects self'
        = alter (refresh (clock n) (clock (S n)) itv f) a (objects self)) ∨
  (get_window self (handle f) = None ∧
   _windows self' = _windows self ++ [(handle f, length (objects self))] ∧
   objects self' = objects self ++ [adopt (clock n) (clock (S n)) f]).
Proof.
  destruct f as [[[k t] p] act].
  unfold track_found, track_info, get_window, handle; simpl.
  destruct (dict_get (_windows self) k) as [a|] eqn:Hk; simpl.
  - left. by exists a.
  - right. by rewrite dict_set_new.
Qed.

Lemma fresh_handles_NoDup fs : ∀ known,
  NoDup known → NoDup (known ++ fresh_handles known fs).
Proof.
  induction fs as [|f fs IH]; intros known Hnd; simpl.
  - by rewrite app_nil_r.
  - destruct (decide (handle f ∈ known)) as [Hin|Hout]; [by apply IH|].
    replace (known ++ handle f :: fresh_handles (known ++ [handle f]) fs)
      with ((known ++ [handle f]) ++ fresh_handles (known ++ [handle f]) fs)
      by (by rewrite <- app_assoc).
    apply IH. apply NoDup_app. split; [done|]. split; [|apply NoDup_singleton].
    intros x Hx ->%list_elem_of_singleton. done.
Qed.

Lemma elem_of_fresh_handles fs : ∀ known h,
  h ∈ known ++ fresh_handles known fs ↔ h ∈ known ∨ h ∈ map handle fs.
Proof.
  induction fs as [|f fs IH]; intros known h; simpl.
  - rewrite app_nil_r. split; [by left | intros [?|?%elem_of_nil]; done].
  - destruct (decide (handle f ∈ known)) as [Hin|Hout].
    + rewrite IH, elem_of_cons. split; [intros [?|?]; auto|].
      intros [?|[->|?]]; auto.
    + replace (known ++ handle f :: fresh_handles (known ++ [handle f]) fs)
        with ((known ++ [handle f]) ++ fresh_handles (known ++ [handle f]) fs)
        by (by rewrite <- app_assoc).
      rewrite IH, elem_of_app, list_elem_of_singleton, elem_of_cons. tauto.
Qed.

(** The sightings of a cycle append the new handles to the map, in the order
    of their first sighting, and the new objects to the store; what was in
    the map stays where it was. *)
Lemma track_all_shape clock itv fs : ∀ self n,
  filed self →
  let self' := (fold_left (track_found clock itv) fs (self, n)).1 in
  filed self' ∧
  keys (_windows self')
  = keys (_windows self) ++ fresh_handles (keys (_windows self)) fs ∧
  (∃ news, _windows self' = _windows self ++ news ∧
           Forall (λ e, (length (objects self) ≤ e.2)%nat) news) ∧
  (length (objects self) ≤ length (objects self'))%nat ∧
  (∀ a, a ∉ values (_windows self) → (a < length (objects self))%nat →
        objects self' !! a = objects self !! a).
Proof.
  induction fs as [|f fs IH]; intros self n Hf; simpl.
  - split; [done|]. split; [by rewrite app_nil_r|].
    split; [exists []; by rewrite app_nil_r|]. done.
  - destruct Hf as (Hk & Hv & Hb).
    pose proof (track_found_shape clock itv self n f) as Hshape.
    assert (Hn : (track_found clock itv (self, n) f).2 = S (S n)).
    { destruct f as [[[k t] p] act]. unfold track_found, track_info; simpl.
      by destruct (dict_get _ _). }
    destruct (track_found clock itv (self, n) f) as [self1 n1] eqn:E.
    simpl in Hshape, Hn. subst n1.
    destruct Hshape as [(a & Hg & Hd & Ho)|(Hg & Hd & Ho)].
    + assert (Hf1 : filed self1).
      { unfold filed. rewrite Hd, Ho, length_alter. done. }
      destruct (IH self1 (S (S n)) Hf1) as (Hf2 & Hk2 & (news & Hd2 & Hn2) & Hl2 & Ho2).
      rewrite Hd, Ho, ?length_alter in *.
      split; [done|]. split.
      { rewrite Hk2. rewrite decide_True; [done|].
        apply elem_of_keys. unfold get_window in Hg. eauto. }
      split; [by exists news|]. split; [done|].
      intros a' Ha' Hlt. rewrite Ho2 by (by rewrite ?length_alter).
      apply list_lookup_alter_ne. intros ->. apply Ha'.
      by apply (dict_get_values _ (handle f)).
    + assert (Hnew : handle f ∉ keys (_windows self)).
      { intros [a Ha]%elem_of_keys. unfold get_window in Hg. congruence. }
      assert (Hf1 : filed self1).
      { unfold filed, keys, values. rewrite Hd, Ho, !map_app, length_app. simpl.
        split; [|split].
        - apply NoDup_app. split; [done|]. split; [|apply NoDup_singleton].
          intros x Hx ->%list_elem_of_singleton. done.
        - apply NoDup_app. split; [done|]. split; [|apply NoDup_singleton].
          intros x Hx ->%list_elem_of_singleton.
          rewrite Forall_forall in Hb. specialize (Hb _ Hx). simpl in Hb. lia.
        - apply Forall_app. split.
          + eapply Forall_impl; [exact Hb|]. simpl. intros; lia.
          + apply Forall_singleton. lia. }
      destruct (IH self1 (S (S n)) Hf1) as (Hf2 & Hk2 & (news & Hd2 & Hn2) & Hl2 & Ho2).
      split; [done|]. split.
      { rewrite Hk2. unfold keys at 1 2. rewrite Hd, map_app. simpl.
        rewrite decide_False by done. by rewrite <- app_assoc. }
      split.
      { exists ((handle f, length (objects self)) :: news).
        split; [rewrite Hd2, Hd; by rewrite <- app_assoc|].
        apply Forall_cons. split; [simpl; lia|].
        eapply Forall_impl; [exact Hn2|]. simpl. rewrite Ho, length_app. simpl.
        intros; lia. }
      split; [rewrite Ho, length_app in Hl2; simpl in Hl2; lia|].
      intros a' Ha' Hlt. rewrite Ho2.
      * rewrite Ho. by apply lookup_app_l.
      * unfold values. rewrite Hd, map_app. simpl.
        rewrite elem_of_app, list_elem_of_singleton. intros [? | ->]; [done | lia].
      * rewrite Ho, length_app. simpl. lia.
Qed.

Lemma mark_all_hidden_shape cur ks : ∀ self,
  let self' := fold_left (mark_hidden cur) ks self in
  _windows self' = _windows self ∧
  length (objects self') = length (objects self) ∧
  (∀ a, a ∉ values (_windows self) → objects self' !! a = objects self !! a).
Proof.
  induction ks as [|k ks IH]; intros self; simpl; [done|].
  destruct (IH (mark_hidden cur self k)) as (Hd & Hl & Ho).
  assert (H1 : _windows (mark_hidden cur self k) = _windows self ∧
               length (objects (mark_hidden cur self k)) = length (objects self) ∧
               ∀ a, a ∉ values (_windows self) →
                    objects (mark_hidden cur self k) !! a = objects self !! a).
  { unfold mark_hidden. destruct (bool_decide _); [done|].
    destruct (dict_get (_windows self) k) as [ad|] eqn:Hk; [|done]. simpl.
    split; [done|]. split; [by rewrite length_alter|].
    intros a Ha. apply list_lookup_alter_ne. intros ->. apply Ha.
    by apply (dict_get_values _ k). }
  destruct H1 as (Hd1 & Hl1 & Ho1).
  split; [congruence|]. split; [congruence|].
  intros a Ha. rewrite Ho by (by rewrite Hd1). by apply Ho1.
Qed.

(** What the locked section does to the map and to the store. *)
Lemma reconcile_shape clock n itv fs self :
  filed self →
  let self' := reconcile clock n itv fs self in
  filed self' ∧
  keys (_windows self')
  = keys (_windows self) ++ fresh_handles (keys (_windows self)) fs ∧
  (∃ news, _windows self' = _windows self ++ news ∧
           Forall (λ e, (length (objects self) ≤ e.2)%nat) news) ∧
  (length (objects self) ≤ length (objects self'))%nat ∧
  (∀ a, a ∉ values (_windows self) → (a < length (objects self))%nat →
        objects self' !! a = objects self !! a).
Proof.
  intros Hf. unfold reconcile.
  destruct (track_all_shape clock itv fs self n Hf) as (Hf1 & Hk1 & (news & Hd1 & Hn1) & Hl1 & Ho1).
  set (self1 := (fold_left (track_found clock itv) fs (self, n)).1) in *.
  destruct (mark_all_hidden_shape (list_to_set (map handle fs)) (keys (_windows self1)) self1)
    as (Hd2 & Hl2 & Ho2).
  split; [unfold filed; by rewrite Hd2, Hl2|].
  split; [by rewrite Hd2|]. split; [exists news; by rewrite Hd2|].
  split; [by rewrite Hl2|].
  intros a Ha Hlt. rewrite Ho2; [by apply Ho1|].
  unfold values. rewrite Hd1, map_app, elem_of_app. intros [?|Hin]; [done|].
  apply list_elem_of_fmap in Hin as (e & -> & He).
  rewrite Forall_forall in Hn1. specialize (Hn1 _ He). simpl in Hn1. lia.
Qed.

Lemma filed_frame self self' :
  objects self' = objects self → _windows self' = _windows self →
  filed self → filed self'.
Proof. intros Ho Hd. unfold filed. by rewrite Ho, Hd. Qed.

(** What a call other than [clear()] does to the map and to the store. *)
Lemma exec_shape clock c self :
  filed self → c ≠ Clear →
  let self' := exec clock c self in
  filed self' ∧
  (∃ news, _windows self' = _windows self ++ news ∧
           Forall (λ e, (length (objects self) ≤ e.2)%nat) news) ∧
  (length (objects self) ≤ length (objects self'))%nat ∧
  (∀ a, a ∉ values (_windows self) → (a < length (objects self))%nat →
        objects self' !! a = objects self !! a).
Proof.
  intros Hf Hc.
  assert (Hidle : ∀ self', objects self' = objects self → _windows self' = _windows self →
            filed self' ∧
            (∃ news, _windows self' = _windows self ++ news ∧
                     Forall (λ e, (length (objects self) ≤ e.2)%nat) news) ∧
            (length (objects self) ≤ length (objects self'))%nat ∧
            (∀ a, a ∉ values (_windows self) → (a < length (objects self))%nat →
                  objects self' !! a = objects self !! a)).
  { intros self' Ho Hd. split; [by apply (filed_frame self)|].
    split; [exists []; by rewrite app_nil_r|]. rewrite Ho. done. }
  destruct c as [| | |poll]; simpl; [| |done|].
  - unfold start. by destruct (_running self); apply Hidle.
  - unfold stop. by destruct (_running self); apply Hidle.
  - destruct (_running self) eqn:Hr; [|by apply Hidle].
    unfold tracking_cycle.
    destruct (_last_update_time self) as [last|] eqn:Hl; [|by apply Hidle].
    destruct (answered (set__last_update_time (Some (clock 0%nat)) self) poll) eqn:Ha.
    + rewrite _update_windows_answered by done.
      set (self0 := set__last_update_time (Some (clock 0%nat)) self).
      assert (Hf0 : filed self0) by by apply (filed_frame self).
      destruct (reconcile_shape clock (1 + (first_tick poll - 1)) (clock 0%nat - last)
                  (reported poll) self0 Hf0) as (Hf1 & _ & Hn1 & Hl1 & Ho1).
      split; [by apply (filed_frame (reconcile clock (1 + (first_tick poll - 1))
                                       (clock 0%nat - last) (reported poll) self0))|].
      done.
    + rewrite _update_windows_failed by done. by apply Hidle.
Qed.

Lemma filed_exec clock c self : filed self → filed (exec clock c self).
Proof.
  intros Hf.
  assert (Hc : c = Clear ∨ c ≠ Clear) by (destruct c; auto).
  destruct Hc as [->|Hc].
  - simpl. unfold filed; simpl. repeat split; constructor.
  - by destruct (exec_shape clock c self Hf Hc).
Qed.

Lemma filed_run clock calls : ∀ i self, filed self → filed (run clock i calls self).
Proof.
  induction calls as [|c calls IH]; intros i self Hf; simpl; [done|].
  apply IH. by apply filed_exec.
Qed.

Lemma filed_init mode : filed (TimeTracker_init mode).
Proof. unfold filed; simpl. repeat split; constructor. Qed.

(** X1.  In every engine reached from TimeTracker() by start(), stop(),
    clear() and tracking cycles, the map files each handle once and no
    WindowInfo object twice: get_all_windows() lists no object twice,
    get_window(h) answers exactly the object filed under h, and that object
    exists and has hwnd = h. *)
Theorem map_files_each_window_once clock calls mode :
  let self := run clock 0 calls (TimeTracker_init mode) in
  NoDup (keys (_windows self)) ∧
  NoDup (get_all_windows self) ∧
  (∀ h a, (h, a) ∈ _windows self ↔ get_window self h = Some a) ∧
  (∀ h a, get_window self h = Some a →
          ∃ w, deref self a = Some w ∧ hwnd w = h) ∧
  (∀ h w, window self h = Some w → hwnd w = h).
Proof.
  intros self.
  assert (Hf : filed self) by apply filed_run, filed_init.
  assert (Hs : sound self) by apply sound_run, sound_init.
  destruct Hf as (Hk & Hv & _).
  split; [done|]. split; [done|]. split; [|split; [apply Hs|]].
  - intros h a. split; [by apply elem_of_dict_get | apply dict_get_elem_of].
  - intros h w Hw. rewrite window_unfold in Hw.
    destruct (dict_get (_windows self) h) as [a|] eqn:Hg; [|done].
    destruct (sound_lookup _ _ _ Hs Hg) as (w' & Hw' & Hh). congruence.
Qed.

Lemma cycle_keys clock poll self :
  sound self → filed self → _running self = true → answered self poll = true →
  keys (_windows (exec clock (Cycle poll) self))
  = keys (_windows self) ++ fresh_handles (keys (_windows self)) (reported poll).
Proof.
  intros Hs Hf Hr Ha. simpl. rewrite Hr. destruct (proj2 Hs Hr) as [last Hl].
  rewrite (tracking_cycle_answered _ _ _ last) by done.
  set (self0 := set__last_update_time (Some (clock 0%nat)) self).
  assert (Hf0 : filed self0) by by apply (filed_frame self).
  by destruct (reconcile_shape clock (first_tick poll) (clock 0%nat - last)
                 (reported poll) self0 Hf0) as (_ & Hk & _).
Qed.

(** X2.  Every call other than clear() leaves the windows already tracked
    where they were in the iteration order of the map: the old
    get_all_windows() list is a prefix of the new one. An answered cycle
    appends the handles reported for the first time, in the order of their
    first sighting in the snapshot. *)
Theorem new_windows_are_appended clock calls mode :
  let self := run clock 0 calls (TimeTracker_init mode) in
  (∀ clk c, c ≠ Clear →
     get_all_windows self `prefix_of` get_all_windows (exec clk c self) ∧
     keys (_windows self) `prefix_of` keys (_windows (exec clk c self))) ∧
  (∀ clk poll, _running self = true → answered self poll = true →
     keys (_windows (exec clk (Cycle poll) self))
     = keys (_windows self) ++ fresh_handles (keys (_windows self)) (reported poll)).
Proof.
  intros self.
  assert (Hf : filed self) by apply filed_run, filed_init.
  assert (Hs : sound self) by apply sound_run, sound_init.
  split.
  - intros clk c Hc.
    destruct (exec_shape clk c self Hf Hc) as (_ & (news & Hd & _) & _).
    unfold get_all_windows, values, keys. rewrite Hd, !map_app.
    split; by apply prefix_app_r.
  - intros clk poll Hr Ha. by apply cycle_keys.
Qed.

Lemma cycle_visible clock poll self h w :
  sound self → _running self = true → answered self poll = true →
  window (exec clock (Cycle poll) self) h = Some w →
  (is_visible w = true ↔ h ∈ map handle (reported poll)).
Proof.
  intros Hs Hr Ha Hw.
  destruct (cycle_window clock poll self Hs Hr Ha) as (last & Hl & Hc).
  rewrite Hc in Hw. destruct (decide (h ∈ map handle (reported poll))) as [Hin|Hout].
  - split; [done|]. intros _.
    destruct (record_after_present clock (first_tick poll) (clock 0%nat - last)
                (reported poll) h (window self h) Hin) as (f & w' & _ & _ & E & _ & _ & Hv).
    congruence.
  - split; [|done]. destruct (window self h) as [w0|]; [|done].
    injection Hw as <-. done.
Qed.

Lemma cycle_tracks_reported clock poll self h :
  sound self → _running self = true → answered self poll = true →
  h ∈ map handle (reported poll) →
  h ∈ keys (_windows (exec clock (Cycle poll) self)).
Proof.
  intros Hs Hr Ha Hin.
  destruct (cycle_window clock poll self Hs Hr Ha) as (last & Hl & Hc).
  specialize (Hc h). rewrite decide_True in Hc by done.
  destruct (record_after_present clock (first_tick poll) (clock 0%nat - last)
              (reported poll) h (window self h) Hin) as (f & w' & _ & _ & E & _).
  rewrite E, window_unfold in Hc. apply elem_of_keys.
  destruct (dict_get _ h); [eauto | done].
Qed.

Lemma visible_count self (d : list (Z * nat)) (S : list Z) :
  (∀ h a, (h, a) ∈ d →
          ∃ w, deref self a = Some w ∧ (is_visible w = true ↔ h ∈ S)) →
  length (filter (λ w, is_visible w = true) (omap (deref self) (map snd d)))
  = length (filter (λ h, h ∈ S) (map fst d)).
Proof.
  induction d as [|[h a] d IH]; intros H; [done|].
  destruct (H h a ltac:(by left)) as (w & Hw & Hv).
  assert (IH' := IH (λ h' a' Hin, H h' a' ltac:(by right))).
  change (omap (deref self) (map snd ((h, a) :: d)))
    with (match deref self a with
          | Some y => y :: omap (deref self) (map snd d)
          | None => omap (deref self) (map snd d)
          end).
  rewrite Hw. change (map fst ((h, a) :: d)) with (h :: map fst d).
  rewrite !filter_cons.
  destruct (decide (is_visible w = true)) as [Hy|Hn];
    destruct (decide (h ∈ S)) as [Hy'|Hn']; try tauto;
    first [exact IH' | simpl; f_equal; exact IH'].
Qed.

Lemma omap_length_le {A B} (f : A → option B) (l : list A) :
  (length (omap f l) ≤ length l)%nat.
Proof.
  induction l as [|x l IH]; [done|].
  change (omap f (x :: l))
    with (match f x with Some y => y :: omap f l | None => omap f l end).
  destruct (f x); simpl; lia.
Qed.

Lemma cycle_visible_count clock poll self :
  sound self → filed self → _running self = true → answered self poll = true →
  visible_windows (get_stats (exec clock (Cycle poll) self))
  = length (remove_dups (map handle (reported poll))).
Proof.
  intros Hs Hf Hr Ha. set (self' := exec clock (Cycle poll) self).
  assert (Hs' : sound self') by by apply sound_exec.
  assert (Hf' : filed self') by by apply filed_exec.
  unfold get_stats, window_values, values. cbn [visible_windows].
  rewrite (visible_count _ _ (map handle (reported poll))).
  - apply Permutation_length. apply NoDup_Permutation.
    + apply NoDup_filter. apply Hf'.
    + apply NoDup_remove_dups.
    + intros x. rewrite list_elem_of_filter, elem_of_remove_dups.
      split; [tauto|]. intros Hx. split; [done|].
      by apply cycle_tracks_reported.
  - intros h a Hin. apply elem_of_dict_get in Hin; [|apply Hf'].
    destruct (sound_lookup _ _ _ Hs' Hin) as (w & Hw & _).
    exists w. split; [done|].
    apply (cycle_visible clock poll self h w Hs Hr Ha).
    fold self'. unfold window, get_window. by rewrite Hin.
Qed.

(** X3.  get_stats() never reports more visible windows than total windows,
    and both counts are 0 after clear(). After an answered cycle
    visible_windows is the number of distinct handles of the snapshot and
    total_windows has grown by the number of handles that were new. *)
Theorem get_stats_counts clock calls mode :
  let self := run clock 0 calls (TimeTracker_init mode) in
  (visible_windows (get_stats self) ≤ total_windows (get_stats self))%nat ∧
  total_windows (get_stats (clear self)) = 0%nat ∧
  visible_windows (get_stats (clear self)) = 0%nat ∧
  (∀ clk poll, _running self = true → answered self poll = true →
     let self' := exec clk (Cycle poll) self in
     visible_windows (get_stats self')
     = length (remove_dups (map handle (reported poll))) ∧
     total_windows (get_stats self')
     = (total_windows (get_stats self)
        + length (fresh_handles (keys (_windows self)) (reported poll)))%nat).
Proof.
  intros self.
  assert (Hf : filed self) by apply filed_run, filed_init.
  assert (Hs : sound self) by apply sound_run, sound_init.
  split; [|split; [done|split; [done|]]].
  - unfold get_stats, window_values; simpl.
    etrans; [apply length_filter|]. etrans; [apply omap_length_le|].
    unfold values. by rewrite length_map.
  - intros clk poll Hr Ha self'.
    assert (Hs' : sound self') by by apply sound_exec.
    assert (Hf' : filed self') by by apply filed_exec.
    pose proof (cycle_keys clk poll self Hs Hf Hr Ha) as Hk. fold self' in Hk.
    split; [by apply cycle_visible_count|].
    unfold get_stats; simpl.
    rewrite <- !(length_map fst). fold (keys (_windows self')) (keys (_windows self)).
    by rewrite Hk, length_app.
Qed.

Lemma objects_below_untouched clock calls : ∀ i self N a,
  filed self → (N ≤ length (objects self))%nat →
  Forall (λ a', (N ≤ a')%nat) (values (_windows self)) → (a < N)%nat →
  objects (run clock i calls self) !! a = objects self !! a.
Proof.
  induction calls as [|c calls IH]; intros i self N a Hf HN Hv Ha; simpl; [done|].
  assert (Hc : c = Clear ∨ c ≠ Clear) by (destruct c; auto).
  destruct Hc as [->|Hc].
  - rewrite (IH _ _ N); [done | by apply (filed_exec (clock i) Clear) | done | | done].
    simpl. constructor.
  - destruct (exec_shape (clock i) c self Hf Hc) as (Hf' & (news & Hd & Hn) & Hl & Ho).
    rewrite (IH _ _ N); [| done | lia | | done].
    + apply Ho; [|lia]. intros Hin.
      rewrite Forall_forall in Hv. specialize (Hv _ Hin). simpl in Hv. lia.
    + unfold values. rewrite Hd, map_app. apply Forall_app. split; [done|].
      apply Forall_fmap. eapply Forall_impl; [exact Hn|]. simpl. intros; lia.
Qed.

(** X4.  A WindowInfo object handed out before clear() is never written again:
    whatever calls follow the clear(), including cycles that report the same
    handle, the fields of the old object stay as they were, because the handle
    is given a new object. *)
Theorem cleared_objects_are_left_alone clock calls mode clock' i later a w :
  let self := run clock 0 calls (TimeTracker_init mode) in
  deref self a = Some w →
  deref (run clock' i later (clear self)) a = Some w.
Proof.
  intros self Hw. unfold deref in *.
  rewrite (objects_below_untouched clock' later i (clear self) (length (objects self)));
    [done | | done | by constructor | by eapply lookup_lt_Some].
  apply (filed_exec (clock' 0%nat) Clear). apply filed_run, filed_init.
Qed.

Lemma cleared_objects_are_left_alone_witness :
  let self := run one_per_second 0 editor_once (TimeTracker_init true) in
  deref (run one_per_second 3
           [Cycle (SimulationUpdate [(1, "Editor", "editor")] 1);
            Cycle (SimulationUpdate [(1, "Editor", "editor")] 1)]
           (clear self)) 0
  = Some (mkWindowInfo 1 "Editor" "editor" (seconds 1) (seconds 1) 0 0 true true).
Proof.
  apply (cleared_objects_are_left_alone one_per_second editor_once true).
  vm_compute. reflexivity.
Defined.

Lemma failed_cycle_view clock poll self :
  _running self = true → answered self poll = false →
  let self' := exec clock (Cycle poll) self in
  _running self' = true ∧ _simulation_mode self' = _simulation_mode self ∧
  ∀ h, window self' h = window self h.
Proof.
  intros Hr Ha. simpl. rewrite Hr. unfold tracking_cycle.
  destruct (_last_update_time self) as [last|] eqn:Hl.
  - by rewrite _update_windows_failed by done.
  - done.
Qed.

(* ===================================================================== *)
(** ** Lifecycle *)
(* ===================================================================== *)

(** X5.  start() on a running engine and stop() on a stopped one only log a
    warning. After stop() the engine is not running and a turn of the tracking
    loop does nothing; neither start() nor stop() changes any record. *)
Theorem lifecycle_calls_are_idempotent self clk1 clk2 :
  start clk2 (start clk1 self)
  = emit (Logged WARNING (Text "TimeTracker already running")) (start clk1 self) ∧
  stop (stop self)
  = emit (Logged WARNING (Text "TimeTracker not running")) (stop self) ∧
  _running (stop (start clk1 self)) = false ∧
  (∀ clk poll, exec clk (Cycle poll) (stop self) = stop self) ∧
  (∀ h, window (start clk1 self) h = window self h ∧
        window (stop self) h = window self h).
Proof.
  unfold start, stop. destruct (_running self) eqn:Hr; simpl; rewrite ?Hr; simpl;
    repeat split; try done; intros; simpl; by rewrite ?Hr.
Qed.

(* ===================================================================== *)
(** ** The interval of a cycle *)
(* ===================================================================== *)

Lemma sighted_once clock poll self fs1 f fs2 w :
  sound self → _running self = true → answered self poll = true →
  reported poll = fs1 ++ f :: fs2 →
  handle f ∉ map handle fs1 → handle f ∉ map handle fs2 →
  window self (handle f) = Some w →
  ∃ last m, _last_update_time self = Some last ∧
    window (exec clock (Cycle poll) self) (handle f)
    = Some (refresh (clock m) (clock (S m)) (clock 0%nat - last) f w).
Proof.
  intros Hs Hr Ha Hrep Ho1 Ho2 Hw.
  destruct (cycle_window clock poll self Hs Hr Ha) as (last & Hl & Hc).
  specialize (Hc (handle f)). rewrite Hrep in Hc.
  rewrite decide_True in Hc
    by (rewrite map_app; apply elem_of_app; right; by left).
  rewrite record_after_last, record_after_absent, Hw in Hc by done.
  by exists last, (first_tick poll + 2 * length fs1)%nat.
Qed.

(** X6.  Every turn of the tracking loop of a running engine sets
    _last_update_time to the time read at its top, also when the source fails.
    So the first answered cycle after start(), or after a failed cycle,
    credits a focused window that was tracked already with exactly the time
    between the top of that start() or failed cycle and its own top. *)
Theorem interval_runs_from_previous_turn clock calls mode :
  let self := run clock 0 calls (TimeTracker_init mode) in
  (∀ clk poll, _running self = true →
     _last_update_time (exec clk (Cycle poll) self) = Some (clk 0%nat)) ∧
  (∀ clk1 clk2 first poll fs1 f fs2 w,
     (first = Start ∧ _running self = false) ∨
     (∃ failed, first = Cycle failed ∧ _running self = true ∧
                answered self failed = false) →
     answered self poll = true →
     reported poll = fs1 ++ f :: fs2 →
     handle f ∉ map handle fs1 → handle f ∉ map handle fs2 →
     f.2 = true → window self (handle f) = Some w →
     ∃ w', window (exec clk2 (Cycle poll) (exec clk1 first self)) (handle f) = Some w' ∧
           active_time w' = active_time w + (clk2 0%nat - clk1 0%nat)).
Proof.
  intros self.
  assert (Hs : sound self) by apply sound_run, sound_init.
  split; [intros clk poll Hr; by apply cycle_last_update|].
  intros clk1 clk2 first poll fs1 f fs2 w Hfirst Ha Hrep Ho1 Ho2 Hfoc Hw.
  set (self1 := exec clk1 first self).
  assert (H1 : sound self1 ∧ _running self1 = true ∧
               _last_update_time self1 = Some (clk1 0%nat) ∧
               answered self1 poll = true ∧ window self1 (handle f) = Some w).
  { split; [by apply sound_exec|].
    destruct Hfirst as [[-> Hr]|(failed & -> & Hr & Hf)]; subst self1.
    - simpl. unfold start. rewrite Hr. simpl. repeat split; done.
    - split; [|split; [by apply cycle_last_update|]].
      + by destruct (failed_cycle_view clk1 failed self Hr Hf) as (? & _).
      + destruct (failed_cycle_view clk1 failed self Hr Hf) as (_ & Hm & Hwin).
        split; [unfold answered in *; by rewrite Hm | by rewrite Hwin]. }
  destruct H1 as (Hs1 & Hr1 & Hl1 & Ha1 & Hw1).
  destruct (sighted_once clk2 poll self1 fs1 f fs2 w Hs1 Hr1 Ha1 Hrep Ho1 Ho2 Hw1)
    as (last & m & Hl & Hw').
  rewrite Hl1 in Hl. injection Hl as <-.
  eexists. split; [exact Hw'|].
  destruct (refresh_fields (clk2 m) (clk2 (S m)) (clk2 0%nat - clk1 0%nat) f w)
    as (_ & _ & _ & _ & _ & _ & -> & _).
  by rewrite Hfoc.
Qed.

Lemma interval_runs_from_previous_turn_witness :
  let self := run one_per_second 0 editor_once (TimeTracker_init true) in
  ∃ w', window (exec (one_per_second 5)
                  (Cycle (SimulationUpdate [(1, "Editor", "editor")] 1))
                  (exec (one_per_second 4) (Cycle (SourceRaises "OSError")) self)) 1
        = Some w' ∧
        active_time w' = 0 + (one_per_second 5 0%nat - one_per_second 4 0%nat).
Proof.
  intros self.
  destruct (interval_runs_from_previous_turn one_per_second editor_once true) as (_ & H).
  apply (H (one_per_second 4) (one_per_second 5) (Cycle (SourceRaises "OSError"))
           (SimulationUpdate [(1, "Editor", "editor")] 1)
           [] (1, "Editor", "editor", true) []
           (mkWindowInfo 1 "Editor" "editor" (seconds 1) (seconds 1) 0 0 true true)).
  - right. exists (SourceRaises "OSError"). repeat split; reflexivity.
  - reflexivity.
  - reflexivity.
  - apply not_elem_of_nil.
  - apply not_elem_of_nil.
  - reflexivity.
  - vm_compute. reflexivity.
Defined.

(* ===================================================================== *)
(** ** The stamps of a record *)
(* ===================================================================== *)

Lemma record_after_stamped (clk : nat → Z) itv fs h :
  (∀ a b, (a ≤ b)%nat → clk a ≤ clk b) → 0 ≤ itv →
  ∀ n r,
    (∀ w, r = Some w →
          first_seen w ≤ last_seen w ∧ last_seen w ≤ clk n ∧
          0 ≤ total_open_time w ∧ 0 ≤ active_time w) →
    ∀ w', record_after clk n itv fs h r = Some w' →
          first_seen w' ≤ last_seen w' ∧ (∃ m, last_seen w' ≤ clk m) ∧
          0 ≤ total_open_time w' ∧ 0 ≤ active_time w' ∧
          ∀ w, r = Some w → last_seen w ≤ last_seen w'.
Proof.
  intros Hmono Hitv. induction fs as [|f fs IH]; intros n r Hr w'; simpl.
  - intros ->. destruct (Hr w' eq_refl) as (? & ? & ? & ?).
    repeat split; try done; [by exists n | by intros w [= ->]].
  - pose proof (Hmono n (S n) ltac:(lia)) as H1.
    pose proof (Hmono (S n) (S (S n)) ltac:(lia)) as H2.
    destruct (decide (h = handle f)) as [->|Hne].
    + intros Hw'. destruct r as [w|].
      * destruct (Hr w eq_refl) as (Hfl & Hln & Ht & Ha).
        destruct (refresh_fields (clk n) (clk (S n)) itv f w)
          as (_ & _ & _ & Hf & Hl & Hto & Hac & _).
        apply IH in Hw' as (? & ? & ? & ? & Hmon).
        -- repeat split; try done. intros w0 [= <-].
           specialize (Hmon _ eq_refl). lia.
        -- intros w0 [= <-]. rewrite Hf, Hl, Hto, Hac.
           repeat split; try lia. destruct f.2; lia.
      * apply IH in Hw' as (? & ? & ? & ? & _); [by repeat split|].
        intros w0 [= <-]. simpl. repeat split; lia.
    + intros Hw'. apply IH in Hw' as (? & ? & ? & ? & Hmon); [by repeat split|].
      intros w Hw. destruct (Hr w Hw) as (? & ? & ? & ?). repeat split; lia.
Qed.

Section Stamps.
Variable clock : nat → nat → Z.
Hypothesis clock_monotone : monotone clock.

Lemma exec_stamps i c self h w w' :
  sound self → timely clock i self → stamped clock i self →
  window self h = Some w → window (exec (clock i) c self) h = Some w' →
  first_seen w' = first_seen w ∧ process_name w' = process_name w ∧
  hwnd w' = hwnd w ∧ last_seen w ≤ last_seen w'.
Proof.
  intros Hs [Htl _] Hst Hw.
  destruct (exec_window_cases (clock i) c self Hs)
    as [[_ Hc]|[[_ Hc]|(poll & last & -> & Hr & Ha & Hl0 & _ & Hc)]]; rewrite Hc.
  - done.
  - rewrite Hw. by intros [= <-].
  - rewrite Hw. destruct (decide (h ∈ map handle (reported poll))) as [Hin|Hout].
    + intros H.
      destruct (record_after_kept (clock i) (clock i 0%nat - last) (reported poll) h
                  (first_tick poll) w) as (w1 & E & Hh & Hp & Hf).
      rewrite E in H. injection H as <-.
      split; [done|]. split; [done|]. split; [done|].
      eapply (record_after_stamped (clock i) (clock i 0%nat - last) (reported poll) h);
        [apply clock_monotone | specialize (Htl _ Hl0); lia | | exact E | done].
      intros w0 [= <-]. destruct (Hst _ _ Hw) as (? & ? & ? & ?).
      pose proof (monotone_from_zero clock clock_monotone i (first_tick poll)).
      repeat split; lia.
    + by intros [= <-].
Qed.

Lemma stamped_exec i c self :
  sound self → timely clock i self → stamped clock i self →
  stamped clock (S i) (exec (clock i) c self).
Proof.
  intros Hs [Htl Htw] Hst h w'.
  pose proof (monotone_next clock clock_monotone i) as Hnext.
  destruct (exec_window_cases (clock i) c self Hs)
    as [[_ Hc]|[[_ Hc]|(poll & last & -> & Hr & Ha & Hl0 & _ & Hc)]]; rewrite Hc.
  - done.
  - intros Hw. destruct (Hst _ _ Hw) as (? & ? & ? & ?).
    specialize (Hnext 0%nat 0%nat). repeat split; lia.
  - destruct (decide (h ∈ map handle (reported poll))) as [Hin|Hout].
    + intros H.
      eapply (record_after_stamped (clock i) (clock i 0%nat - last) (reported poll) h)
        in H as (? & (m & ?) & ? & ? & _);
        [| apply clock_monotone | specialize (Htl _ Hl0); lia |].
      * specialize (Hnext m 0%nat). repeat split; lia.
      * intros w0 Hw0. destruct (Hst _ _ Hw0) as (? & ? & ? & ?).
        pose proof (monotone_from_zero clock clock_monotone i (first_tick poll)).
        repeat split; lia.
    + destruct (window self h) as [w|] eqn:Hw; [|done]. intros [= <-]. simpl.
      destruct (Hst _ _ Hw) as (? & ? & ? & ?).
      specialize (Hnext 0%nat 0%nat). repeat split; lia.
Qed.

Lemma stamped_run calls : ∀ i self,
  sound self → timely clock i self → stamped clock i self →
  stamped clock (i + length calls) (run clock i calls self).
Proof.
  induction calls as [|c calls IH]; intros i self Hs Ht Hst; simpl.
  - by rewrite Nat.add_0_r.
  - replace (i + S (length calls))%nat with (S i + length calls)%nat by lia.
    apply IH; [by apply sound_exec | by apply timely_exec | by apply stamped_exec].
Qed.

Lemma run_stamps calls : ∀ i self h w w',
  sound self → timely clock i self → stamped clock i self → Clear ∉ calls →
  window self h = Some w → window (run clock i calls self) h = Some w' →
  first_seen w' = first_seen w ∧ process_name w' = process_name w ∧
  hwnd w' = hwnd w ∧ last_seen w ≤ last_seen w'.
Proof.
  induction calls as [|c calls IH]; intros i self h w w' Hs Ht Hst Hc Hw Hw';
    simpl in Hw'.
  - rewrite Hw in Hw'. by injection Hw' as <-.
  - apply not_elem_of_cons in Hc as [Hne Hc].
    assert (∃ w1, window (exec (clock i) c self) h = Some w1) as [w1 Hw1].
    { pose proof Hw as Hw0. rewrite window_unfold in Hw0.
      destruct (dict_get (_windows self) h) as [a|] eqn:Hg; [|done].
      pose proof (exec_keeps_objects (clock i) c self h a Hs (not_eq_sym Hne) Hg) as Hg'.
      destruct (proj1 (sound_exec (clock i) c self Hs) h a Hg') as (w1 & Hd & _).
      exists w1. unfold window. by rewrite Hg'. }
    destruct (exec_stamps i c self h w w1 Hs Ht Hst Hw Hw1) as (Hf1 & Hp1 & Hh1 & Hl1).
    destruct (IH (S i) (exec (clock i) c self) h w1 w') as (Hf2 & Hp2 & Hh2 & Hl2);
      [by apply sound_exec | by apply timely_exec | by apply stamped_exec
      | done | done | done |].
    repeat split; try congruence. lia.
Qed.

End Stamps.

(** X7.  Under a clock that never runs backwards, every record of a reachable
    engine has first_seen <= last_seen and non-negative total_open_time and
    active_time; through later calls without clear() its first_seen,
    process_name and hwnd never change and its last_seen never decreases. *)
Theorem stamps_are_ordered clock calls mode :
  monotone clock →
  let self := run clock 0 calls (TimeTracker_init mode) in
  (∀ h w, window self h = Some w →
          first_seen w ≤ last_seen w ∧
          0 ≤ total_open_time w ∧ 0 ≤ active_time w) ∧
  (∀ later h w w',
     Clear ∉ later → window self h = Some w →
     window (run clock (length calls) later self) h = Some w' →
     first_seen w' = first_seen w ∧ process_name w' = process_name w ∧
     hwnd w' = hwnd w ∧ last_seen w ≤ last_seen w').
Proof.
  intros Hm self.
  assert (Hs : sound self) by apply sound_run, sound_init.
  assert (Ht : timely clock (length calls) self).
  { apply (timely_run clock Hm calls 0); [apply sound_init | apply timely_init]. }
  assert (Hst : stamped clock (length calls) self).
  { apply (stamped_run clock Hm calls 0); [apply sound_init | apply timely_init |].
    intros h w H. by rewrite window_unfold in H. }
  split.
  - intros h w Hw. destruct (Hst h w Hw) as (? & ? & ? & ?). done.
  - intros later h w w' Hc Hw Hw'.
    by apply (run_stamps clock Hm later (length calls) self h w w').
Qed.

Lemma stamps_are_ordered_witness :
  let w := mkWindowInfo 1 "Editor" "editor.exe" 1200000 2300000 1100000 1250000 true true in
  first_seen w ≤ last_seen w ∧ 0 ≤ total_open_time w ∧ 0 ≤ active_time w.
Proof.
  intros w.
  assert (Hm : monotone slow_first_poll).
  { split.
    - intros [|[|j]] [|n] [|m] H; simpl; lia.
    - intros [|[|j]] [|n] [|m]; simpl; lia. }
  destruct (stamps_are_ordered slow_first_poll editor_twice false Hm) as (H & _).
  apply (H 1 w). vm_compute. reflexivity.
Defined.

(* ===================================================================== *)
(** ** Focus decided by the handle *)
(* ===================================================================== *)

Lemma focus_by_handle_one c : focus_by_handle c → one_focus_reported c.
Proof.
  destruct c as [| | |[ws a|found|e]]; simpl; try done.
  - intros _ f g Hf Hg Hf2 Hg2.
    apply list_elem_of_fmap in Hf as (x & -> & _).
    apply list_elem_of_fmap in Hg as (y & -> & _).
    unfold tuple_found, handle in *; simpl in *.
    apply Z.eqb_eq in Hf2, Hg2. congruence.
  - intros (valid & act & ->) f g Hf Hg Hf2 Hg2.
    apply list_elem_of_fmap in Hf as ([[h t] p] & -> & _).
    apply list_elem_of_fmap in Hg as ([[h' t'] p'] & -> & _).
    unfold handle in *; simpl in *.
    apply bool_decide_eq_true in Hf2, Hg2. congruence.
  - intros _ f g Hf. by apply elem_of_nil in Hf.
Qed.

(** X8.  When every poll flags focus by comparing each handle with one focused
    handle, as the simulation loop and the Windows tracker do, no two visible
    records of a reachable engine are active at once; nothing else has to be
    assumed about the source. *)
Theorem handle_focus_is_single clock calls mode :
  Forall focus_by_handle calls →
  visible_single_focus (run clock 0 calls (TimeTracker_init mode)).
Proof.
  intros Hall.
  assert (Hgen : ∀ i self, sound self → visible_single_focus self →
                           visible_single_focus (run clock i calls self)).
  { induction Hall as [|c calls Hc Hall IH]; intros i self Hs Hinv; simpl; [done|].
    apply IH; [by apply sound_exec|].
    apply visible_single_focus_exec; [done | by apply focus_by_handle_one | done]. }
  apply Hgen; [apply sound_init|].
  intros h1 h2 w1 w2 H1. by rewrite window_unfold in H1.
Qed.

Lemma handle_focus_is_single_witness :
  visible_single_focus (run one_per_second 0 process_named_later (TimeTracker_init false)).
Proof.
  apply handle_focus_is_single. unfold process_named_later.
  repeat (apply Forall_cons; split); try exact I; try (by apply Forall_nil).
  - by exists [(1, "Untitled", "Unknown")], (Some 1).
  - by exists [(1, "Untitled", "notepad.exe")], (Some 1).
Defined.

(* ===================================================================== *)
(** ** The platforms and the factory *)
(* ===================================================================== *)

(** X9.  get_supported_platforms() lists at most one platform and agrees with
    create_window_tracker(): it is [Windows] exactly when the factory returns
    the Windows tracker, [macOS] exactly when it returns the macOS tracker,
    and empty exactly when the factory raises RuntimeError. *)
Theorem supported_platforms_match_factory (host : Host) :
  (length (get_supported_platforms host) ≤ 1)%nat ∧
  (get_supported_platforms host = ["Windows"] ↔
   create_window_tracker host = inl WindowsWindowTracker) ∧
  (get_supported_platforms host = ["macOS"] ↔
   create_window_tracker host = inl MacOSWindowTracker) ∧
  (get_supported_platforms host = [] ↔
   ∃ error_msg, create_window_tracker host = inr error_msg).
Proof.
  unfold get_supported_platforms, create_window_tracker, is_supported.
  destruct (String.eqb_spec (sys_platform host) "win32") as [Hw|Hw];
    destruct (String.eqb_spec (sys_platform host) "darwin") as [Hd|Hd];
    [rewrite Hw in Hd; discriminate | | |];
    destruct (WINDOWS_AVAILABLE host), (MACOS_AVAILABLE host); simpl;
    repeat split; try done; try (intros [? ?]; done); eauto.
Qed.

(* ===================================================================== *)
(** ** Formatted durations *)
(* ===================================================================== *)

Local Arguments String.append : simpl nomatch.

Lemma read_digits d : ∀ rest total cur,
  read_seconds (NilEmpty.string_of_uint d +:+ rest) total cur
  = read_seconds rest total (uint_value d cur).
Proof. induction d; intros rest total cur; simpl; by rewrite ?IHd. Qed.

Lemma uint_value_acc d : ∀ acc,
  Z.pos (Pos.of_uint_acc d acc) = uint_value d (Z.pos acc).
Proof. induction d; intros acc; simpl; rewrite ?IHd; try done; f_equal; lia. Qed.

Lemma uint_value_of_uint d : Z.of_N (Pos.of_uint d) = uint_value d 0.
Proof. induction d; simpl; try done; by rewrite uint_value_acc. Qed.

Lemma read_str n rest total :
  0 < n → read_seconds (str n +:+ rest) total 0 = read_seconds rest total n.
Proof.
  destruct n as [|p|p]; try done. intros _. unfold str; simpl.
  pose proof (DecimalPos.Unsigned.of_to p) as Hp.
  pose proof (uint_value_of_uint (Pos.to_uint p)) as Hv. rewrite Hp in Hv. simpl in Hv.
  remember (Pos.to_uint p) as d eqn:E. clear E Hp.
  assert (Hz : NilZero.string_of_uint d = NilEmpty.string_of_uint d)
    by (destruct d; done).
  rewrite Hz, read_digits. congruence.
Qed.

Lemma append_assoc (a b c : string) : (a +:+ b) +:+ c = a +:+ (b +:+ c).
Proof. induction a as [|x a IH]; simpl; congruence. Qed.

Lemma round_half_even_spec num den :
  0 < den →
  (num / den ≤ round_half_even num den ≤ num / den + 1) ∧
  2 * den * round_half_even num den ≤ 2 * num + den ∧
  2 * num - den ≤ 2 * den * round_half_even num den.
Proof.
  intros Hd. unfold round_half_even.
  pose proof (Z.div_mod num den ltac:(lia)) as Hdm.
  pose proof (Z.mod_pos_bound num den Hd) as Hr.
  set (q := num / den) in *. set (r := num mod den) in *.
  destruct (Z.ltb_spec (2 * r) den); [nia|].
  destruct (Z.ltb_spec den (2 * r)); [nia|].
  destruct (Z.even q); nia.
Qed.

Lemma double_exponent_spec a b :
  0 < a → 0 < b →
  ∃ num den, double_scaled a b (double_exponent a b) = (num, den) ∧
             0 < num ∧ 0 < den ∧ 2 ^ 52 * den ≤ num.
Proof.
  intros Ha Hb.
  destruct (Z.log2_spec a Ha) as [Hla1 Hla2]. destruct (Z.log2_spec b Hb) as [Hlb1 Hlb2].
  pose proof (Z.log2_nonneg a) as Hla. pose proof (Z.log2_nonneg b) as Hlb.
  unfold double_exponent.
  set (la := Z.log2 a) in *. set (lb := Z.log2 b) in *.
  set (e0 := la - lb - 52).
  assert (H0 : ∃ n0 d0, double_scaled a b e0 = (n0, d0) ∧ 0 < n0 ∧ 0 < d0 ∧
                        2 ^ 51 * d0 ≤ n0).
  { unfold double_scaled. destruct (Z.leb_spec 0 e0) as [He|He].
    - exists a, (b * 2 ^ e0). split; [done|].
      assert (0 < 2 ^ e0) by (by apply Z.pow_pos_nonneg).
      split; [done|]. split; [lia|].
      assert (Hp : 2 ^ la = 2 ^ 51 * 2 ^ Z.succ lb * 2 ^ e0).
      { rewrite <- !Z.pow_add_r by lia. f_equal. lia. }
      nia.
    - exists (a * 2 ^ (- e0)), b.
      assert (0 < 2 ^ (- e0)) by (apply Z.pow_pos_nonneg; lia).
      split; [done|]. split; [lia|]. split; [done|].
      assert (Hp : 2 ^ 51 * 2 ^ Z.succ lb = 2 ^ la * 2 ^ (- e0)).
      { rewrite <- !Z.pow_add_r by lia. f_equal. lia. }
      nia. }
  destruct H0 as (n0 & d0 & Hs0 & Hn0 & Hd0 & H51). rewrite Hs0.
  destruct (Z.ltb_spec (n0 / d0) (2 ^ 52)) as [Hlt|Hge].
  - unfold double_scaled in *.
    destruct (Z.leb_spec 0 e0) as [He|He]; injection Hs0 as <- <-.
    + destruct (Z.leb_spec 0 (e0 - 1)) as [He1|He1].
      * exists a, (b * 2 ^ (e0 - 1)).
        assert (0 < 2 ^ (e0 - 1)) by (by apply Z.pow_pos_nonneg).
        assert (Hp : 2 ^ e0 = 2 * 2 ^ (e0 - 1)).
        { rewrite <- Z.pow_succ_r by lia. f_equal. lia. }
        split; [done|]. split; [done|]. split; [lia|]. nia.
      * assert (e0 = 0) by lia. subst e0.
        exists (a * 2 ^ (- (la - lb - 52 - 1))), b.
        replace (- (la - lb - 52 - 1)) with 1 by lia.
        replace (la - lb - 52) with 0 in H51 by lia.
        split; [done|]. split; [lia|]. split; [done|]. simpl in *. lia.
    + destruct (Z.leb_spec 0 (e0 - 1)) as [He1|He1]; [lia|].
      exists (a * 2 ^ (- (e0 - 1))), b.
      assert (0 < 2 ^ (- e0)) by (apply Z.pow_pos_nonneg; lia).
      assert (Hp : 2 ^ (- (e0 - 1)) = 2 * 2 ^ (- e0)).
      { rewrite <- Z.pow_succ_r by lia. f_equal. lia. }
      split; [done|]. split; [nia|]. split; [done|]. nia.
  - exists n0, d0. split; [done|]. split; [done|]. split; [done|].
    pose proof (Z.mul_div_le n0 d0 Hd0). nia.
Qed.

Lemma double_mantissa_spec a b :
  0 < a → 0 < b →
  ∃ num den m,
    double_scaled a b (double_exponent a b) = (num, den) ∧
    double_mantissa a b = m ∧
    0 < num ∧ 0 < den ∧ 2 ^ 52 * den ≤ num ∧
    (num / den ≤ m) ∧
    2 * den * m ≤ 2 * num + den.
Proof.
  intros Ha Hb.
  destruct (double_exponent_spec a b Ha Hb) as (num & den & Hs & Hn & Hd & H52).
  exists num, den, (round_half_even num den). unfold double_mantissa. rewrite Hs.
  destruct (round_half_even_spec num den Hd) as ([Hlo _] & Hup & _).
  done.
Qed.

Lemma int_total_seconds_exact td :
  0 ≤ td < 17179869184000000 →
  int_of_float (total_seconds td) = td / 1000000.
Proof.
  intros [H0 Hmax]. unfold total_seconds, true_divide.
  destruct (Z.eqb_spec td 0) as [->|Hnz]; [done|].
  destruct (Z.ltb_spec 0 td) as [Hpos|?]; [|lia].
  destruct (double_mantissa_spec td 1000000 Hpos ltac:(lia))
    as (num & den & m & Hs & -> & Hn & Hd & H52 & Hlo & Hup).
  unfold int_of_float, double_scaled in *.
  destruct (Z.leb_spec 0 (double_exponent td 1000000)) as [He|He];
    injection Hs as <- <-.
  - assert (0 < 2 ^ double_exponent td 1000000) by (by apply Z.pow_pos_nonneg).
    change (2 ^ 52) with 4503599627370496 in H52. nia.
  - set (k := - double_exponent td 1000000) in *.
    assert (Hk : 0 < k) by lia.
    assert (HP : 0 < 2 ^ k) by (apply Z.pow_pos_nonneg; lia).
    assert (Hk19 : 2 ^ 19 ≤ 2 ^ k).
    { destruct (Z.le_gt_cases 19 k) as [?|Hlt]; [by apply Z.pow_le_mono_r|].
      assert (2 ^ k ≤ 2 ^ 18) by (apply Z.pow_le_mono_r; lia).
      change (2 ^ 52) with 4503599627370496 in H52.
      change (2 ^ 18) with 262144 in *. nia. }
    change (2 ^ 19) with 524288 in Hk19.
    set (P := 2 ^ k) in *.
    assert (Hm0 : 0 ≤ m).
    { assert (0 ≤ td * P / 1000000) by (apply Z.div_pos; nia). lia. }
    rewrite Z.quot_div_nonneg by lia.
    pose proof (Z.div_mod td 1000000 ltac:(lia)) as Hdm.
    pose proof (Z.mod_pos_bound td 1000000 ltac:(lia)) as Hr.
    set (n := td / 1000000) in *.
    symmetry. apply Z.div_unique with (r := m - P * n); [|lia].
    left. split.
    + assert (n * P ≤ td * P / 1000000) by (apply Z.div_le_lower_bound; nia). nia.
    + nia.
Qed.

Lemma int_total_seconds_pos td :
  1000000 ≤ td → 1 ≤ int_of_float (total_seconds td).
Proof.
  intros Hge. unfold total_seconds, true_divide.
  destruct (Z.eqb_spec td 0) as [->|Hnz]; [lia|].
  destruct (Z.ltb_spec 0 td) as [Hpos|?]; [|lia].
  destruct (double_mantissa_spec td 1000000 Hpos ltac:(lia))
    as (num & den & m & Hs & -> & Hn & Hd & H52 & Hlo & Hup).
  unfold int_of_float, double_scaled in *.
  destruct (Z.leb_spec 0 (double_exponent td 1000000)) as [He|He];
    injection Hs as <- <-.
  - assert (0 < 2 ^ double_exponent td 1000000) by (by apply Z.pow_pos_nonneg).
    assert (2 ^ 52 ≤ td / (1000000 * 2 ^ double_exponent td 1000000))
      by (apply Z.div_le_lower_bound; lia).
    change (2 ^ 52) with 4503599627370496 in *. nia.
  - set (k := - double_exponent td 1000000) in *.
    assert (HP : 0 < 2 ^ k) by (apply Z.pow_pos_nonneg; lia).
    set (P := 2 ^ k) in *.
    assert (P ≤ td * P / 1000000) by (apply Z.div_le_lower_bound; nia).
    rewrite Z.quot_div_nonneg by lia.
    apply Z.div_le_lower_bound; lia.
Qed.

Lemma int_total_seconds_neg td :
  td < 0 → int_of_float (total_seconds td) ≤ 0.
Proof.
  intros Hneg. unfold total_seconds, true_divide.
  destruct (Z.eqb_spec td 0) as [->|Hnz]; [lia|].
  destruct (Z.ltb_spec 0 td) as [?|_]; [lia|].
  destruct (double_mantissa_spec (- td) 1000000 ltac:(lia) ltac:(lia))
    as (num & den & m & Hs & -> & Hn & Hd & H52 & Hlo & Hup).
  assert (Hm : 0 ≤ m).
  { assert (0 ≤ num / den) by (apply Z.div_pos; lia). lia. }
  unfold int_of_float.
  destruct (Z.leb_spec 0 (double_exponent (- td) 1000000)) as [He|He].
  - assert (0 < 2 ^ double_exponent (- td) 1000000) by (by apply Z.pow_pos_nonneg).
    nia.
  - assert (0 < 2 ^ (- double_exponent (- td) 1000000)) by (apply Z.pow_pos_nonneg; lia).
    rewrite Z.quot_opp_l by lia.
    assert (0 ≤ Z.quot m (2 ^ (- double_exponent (- td) 1000000)))
      by (apply Z.quot_pos; lia).
    lia.
Qed.

Lemma int_total_seconds_nonneg td :
  0 ≤ td → 0 ≤ int_of_float (total_seconds td).
Proof.
  intros H0. destruct (Z.lt_ge_cases td 1000000) as [Hlt|Hge].
  - rewrite int_total_seconds_exact by lia. apply Z.div_pos; lia.
  - pose proof (int_total_seconds_pos td Hge). lia.
Qed.

Lemma read_format_timedelta td :
  read_seconds (format_timedelta td) 0 0 = Z.max 0 (int_of_float (total_seconds td)).
Proof.
  unfold format_timedelta. set (total := int_of_float (total_seconds td)).
  destruct (Z.ltb_spec total 0) as [Hneg|Hnn]; [simpl; lia|].
  destruct (Z.eqb_spec total 0) as [Hz|Hnz]; [simpl; lia|].
  assert (Hh : 0 ≤ total / 3600) by (apply Z.div_pos; lia).
  pose proof (Z.mod_pos_bound total 3600 ltac:(lia)) as Hr.
  assert (Hm : 0 ≤ (total mod 3600) / 60) by (apply Z.div_pos; lia).
  pose proof (Z.mod_pos_bound total 60 ltac:(lia)) as Hs.
  assert (Hsum : total = 3600 * (total / 3600) + 60 * ((total mod 3600) / 60)
                         + total mod 60).
  { clear Hh Hr Hm Hs. Z.to_euclidean_division_equations. lia. }
  set (h := total / 3600) in *. set (m := (total mod 3600) / 60) in *.
  set (s := total mod 60) in *.
  rewrite Z.max_r by lia.
  destruct (Z.ltb_spec 0 h) as [Hh1|Hh0];
    destruct (Z.ltb_spec 0 m) as [Hm1|Hm0];
    destruct (Z.ltb_spec 0 s) as [Hs1|Hs0]; simpl;
    rewrite ?append_assoc, ?read_str by lia; simpl;
    rewrite ?append_assoc, ?read_str by lia; simpl;
    rewrite ?append_assoc, ?read_str by lia; simpl; try lia.
  (* nothing but seconds to show, and they are positive *)
  all: assert (s = 0) by lia; assert (h = 0) by lia; assert (m = 0) by lia; lia.
Qed.

(** X10.  format_timedelta prints 0s exactly for durations under one second,
    negative ones included.  Two durations from zero up to 2^34 seconds (some
    544 years) are printed alike exactly when they have the same number of
    whole seconds; in general the text tells int(td.total_seconds()) and
    nothing more, and from 2^34 seconds on the float can round up to a second
    that has not elapsed: 17179869184.999999 s is printed as
    4772185h 53m 5s. *)
Theorem format_timedelta_shows_whole_seconds :
  (∀ td, format_timedelta td = "0s" ↔ td < 1000000) ∧
  (∀ td1 td2,
     0 ≤ td1 < 17179869184000000 → 0 ≤ td2 < 17179869184000000 →
     (format_timedelta td1 = format_timedelta td2 ↔
      Z.quot td1 1000000 = Z.quot td2 1000000)) ∧
  (∀ td1 td2, 0 ≤ td1 → 0 ≤ td2 →
     (format_timedelta td1 = format_timedelta td2 ↔
      int_of_float (total_seconds td1) = int_of_float (total_seconds td2))) ∧
  format_timedelta 17179869184000000 = "4772185h 53m 4s" ∧
  format_timedelta 17179869184999999 = "4772185h 53m 5s".
Proof.
  assert (Hgen : ∀ td1 td2, 0 ≤ td1 → 0 ≤ td2 →
            (format_timedelta td1 = format_timedelta td2 ↔
             int_of_float (total_seconds td1) = int_of_float (total_seconds td2))).
  { intros td1 td2 H1 H2. split.
    - intros H. pose proof (read_format_timedelta td1) as Hr1.
      pose proof (read_format_timedelta td2) as Hr2. rewrite H, Hr2 in Hr1.
      pose proof (int_total_seconds_nonneg td1 H1).
      pose proof (int_total_seconds_nonneg td2 H2). lia.
    - intros H. unfold format_timedelta. by rewrite H. }
  split; [|split; [|split; [exact Hgen|]]].
  - intros td. split.
    + intros H. pose proof (read_format_timedelta td) as Hr. rewrite H in Hr.
      simpl in Hr.
      destruct (Z.lt_ge_cases td 1000000) as [?|Hge]; [done|].
      pose proof (int_total_seconds_pos td Hge). lia.
    + intros H. unfold format_timedelta.
      assert (Hq : int_of_float (total_seconds td) ≤ 0).
      { destruct (Z.le_gt_cases 0 td).
        - rewrite int_total_seconds_exact by lia. by rewrite Z.div_small by lia.
        - by apply int_total_seconds_neg. }
      destruct (Z.ltb_spec (int_of_float (total_seconds td)) 0); [done|].
      destruct (Z.eqb_spec (int_of_float (total_seconds td)) 0); [done | lia].
  - intros td1 td2 H1 H2. rewrite Hgen by lia.
    rewrite !int_total_seconds_exact by done.
    by rewrite !Z.quot_div_nonneg by lia.
  - split; vm_compute; reflexivity.
Qed.

Lemma format_timedelta_shows_whole_seconds_witness :
  format_timedelta 3725999999 = "1h 2m 5s" ∧
  format_timedelta 7200000000 = "2h" ∧
  format_timedelta (-1500000) = "0s" ∧
  (format_timedelta 59999999 = format_timedelta 59000000 ↔
   Z.quot 59999999 1000000 = Z.quot 59000000 1000000).
Proof.
  split; [vm_compute; reflexivity|]. split; [vm_compute; reflexivity|].
  split; [vm_compute; reflexivity|].
  exact (proj1 (proj2 format_timedelta_shows_whole_seconds) 59999999 59000000
           ltac:(lia) ltac:(lia)).
Defined.

(* ===================================================================== *)
(** ** The simulated house *)
(* ===================================================================== *)

Lemma choice_Some {A} (i : nat) (seq : list A) :
  seq ≠ [] → ∃ x, simulation.choice i seq = Some x ∧ x ∈ seq.
Proof.
  intros Hne. unfold simulation.choice.
  assert (Hlt : (i mod length seq < length seq)%nat).
  { apply Nat.mod_upper_bound. by destruct seq. }
  destruct (lookup_lt_is_Some_2 seq _ Hlt) as [x Hx].
  exists x. split; [done|]. by eapply list_elem_of_lookup_2.
Qed.

Lemma choice_None {A} (i : nat) (seq : list A) :
  simulation.choice i seq = None ↔ seq = [].
Proof.
  split.
  - intros H. destruct seq as [|x seq]; [done|].
    destruct (choice_Some i (x :: seq) ltac:(done)) as (y & Hy & _). congruence.
  - by intros ->.
Qed.

Lemma activities_of_length personality :
  length (simulation.activities_of personality) = 8%nat.
Proof.
  unfold simulation.activities_of, simulation.ACTIVITIES, simulation.lookup.
  repeat destruct (String.eqb personality _); reflexivity.
Qed.

Lemma _get_random_activity_elem draw personality :
  simulation._get_random_activity draw personality
  ∈ simulation.activities_of personality.
Proof.
  unfold simulation._get_random_activity.
  destruct (choice_Some draw (simulation.activities_of personality))
    as (x & -> & Hx); [|done].
  intros H. pose proof (activities_of_length personality) as Hl.
  by rewrite H in Hl.
Qed.

Lemma PEOPLE_names : NoDup (map simulation.data_name simulation.PEOPLE).
Proof. apply (bool_decide_unpack (NoDup _)). vm_compute. exact I. Qed.

Lemma sample_spec {A B} (f : A → B) (draws : nat → nat) : ∀ k j population,
  NoDup (map f population) → (k ≤ length population)%nat →
  let s := simulation.sample draws j population k in
  length s = k ∧ NoDup (map f s) ∧ Forall (λ x, x ∈ population) s.
Proof.
  induction k as [|k IH]; intros j population Hnd Hk; simpl.
  - repeat split; constructor.
  - destruct (choice_Some (draws j) population) as (x & Hx & Hin).
    { intros ->. simpl in Hk. lia. }
    rewrite Hx. unfold simulation.choice in Hx.
    set (i := (draws j mod length population)%nat) in *.
    pose proof (take_drop_middle _ _ _ Hx) as Hmid.
    pose proof (delete_take_drop population i) as Hdel.
    assert (Hsub : delete i population `sublist_of` population) by apply sublist_delete.
    destruct (IH (S j) (delete i population)) as (Hl & Hn & Hf).
    { eapply sublist_NoDup; [exact Hnd|]. by apply fmap_sublist. }
    { rewrite length_delete by eauto. lia. }
    simpl. split; [by rewrite Hl|]. split.
    + apply NoDup_cons. split; [|done].
      intros Hfx. apply list_elem_of_fmap in Hfx as (y & Hy & Hys).
      rewrite Forall_forall in Hf. specialize (Hf _ Hys).
      rewrite <- Hmid, map_app in Hnd. simpl in Hnd.
      apply NoDup_app in Hnd as (_ & Hdis & Hnd2).
      apply NoDup_cons in Hnd2 as [Hnot _].
      rewrite Hdel in Hf. apply elem_of_app in Hf as [Hf|Hf].
      * apply (Hdis (f x)); [rewrite Hy; by apply list_elem_of_fmap_2 | by left].
      * apply Hnot. rewrite Hy. by apply list_elem_of_fmap_2.
    + apply Forall_cons. split; [done|].
      eapply Forall_impl; [exact Hf|]. simpl. intros y Hy.
      eapply elem_of_sublist; [exact Hy | exact Hsub].
Qed.

Lemma randint_range a b i : a ≤ b → a ≤ simulation.randint a b i ≤ b.
Proof.
  intros Hab. unfold simulation.randint.
  pose proof (Z.mod_pos_bound (Z.of_nat i) (b - a + 1) ltac:(lia)). lia.
Qed.

Lemma new_person_ok hwnd_draw activity_draw now d :
  d ∈ simulation.PEOPLE →
  person_ok (simulation.new_person hwnd_draw activity_draw now d).
Proof.
  intros Hd. exists d. split; [done|]. do 3 (split; [done|]). split.
  - apply _get_random_activity_elem.
  - apply randint_range. lia.
Qed.

Lemma new_people_spec draws clock selected : ∀ j n,
  Forall (λ d, d ∈ simulation.PEOPLE) selected →
  let ps := simulation.new_people draws clock j n selected in
  map simulation.name ps = map simulation.data_name selected ∧
  Forall person_ok ps ∧ length ps = length selected.
Proof.
  induction selected as [|d selected IH]; intros j n Hall; simpl; [done|].
  apply Forall_cons in Hall as [Hd Hall].
  destruct (IH (S (S j)) (S n) Hall) as (Hn & Hok & Hl).
  split; [by rewrite Hn|]. split; [|by rewrite Hl].
  apply Forall_cons. split; [by apply new_person_ok | done].
Qed.

Lemma HouseSimulation_init_ok draws clock num_people :
  (num_people = None ∨ ∃ k, num_people = Some k ∧ (2 ≤ k)%nat) →
  house_ok (simulation.HouseSimulation_init draws clock num_people).
Proof.
  intros Hnum. unfold simulation.HouseSimulation_init.
  set (start := match num_people with
                | None => (Z.to_nat (simulation.randint 4 9 (draws 0%nat)), 1%nat)
                | Some k => (k, 0%nat)
                end).
  assert (Hk : (2 ≤ start.1)%nat).
  { destruct Hnum as [->|(k & -> & Hk)]; subst start; simpl; [|done].
    pose proof (randint_range 4 9 (draws 0%nat) ltac:(lia)). lia. }
  destruct start as [n j]. simpl in Hk.
  assert (Hlen : length simulation.PEOPLE = 9%nat) by reflexivity.
  destruct (sample_spec simulation.data_name draws (n `min` length simulation.PEOPLE) j
              simulation.PEOPLE PEOPLE_names ltac:(lia)) as (Hl & Hnd & Hall).
  destruct (new_people_spec draws clock
              (simulation.sample draws j simulation.PEOPLE (n `min` length simulation.PEOPLE))
              (j + n `min` length simulation.PEOPLE) 0 Hall) as (Hn & Hok & Hl').
  unfold house_ok. cbn [simulation.people simulation.current_focus_index].
  rewrite Hl', Hl, Hn, Hlen. repeat split; try done; lia.
Qed.

Lemma change_activities_spec rolls clock ps : ∀ j n,
  let r := simulation.change_activities rolls clock j n ps in
  map simulation.name r.1 = map simulation.name ps ∧
  map simulation.hwnd r.1 = map simulation.hwnd ps ∧
  map simulation.process_name r.1 = map simulation.process_name ps ∧
  length r.1 = length ps ∧
  (Forall person_ok ps → Forall person_ok r.1).
Proof.
  induction ps as [|p ps IH]; intros j n; simpl; [done|].
  destruct (simulation.maybe_change_activity (rolls j) (clock n) p) as [p' changed] eqn:E.
  destruct (IH (S j) (if changed then S n else n)) as (Hn & Hh & Hp & Hl & Hok).
  destruct (simulation.change_activities rolls clock (S j) _ ps) as [rest n'].
  simpl in *.
  assert (Hp' : simulation.name p' = simulation.name p ∧
                simulation.hwnd p' = simulation.hwnd p ∧
                simulation.process_name p' = simulation.process_name p ∧
                (person_ok p → person_ok p')).
  { unfold simulation.maybe_change_activity in E.
    destruct (rolls j) as [draw|]; injection E as <- <-; [|done].
    repeat split; try done. intros (d & Hd & H1 & H2 & H3 & _ & H5).
    exists d. do 4 (split; [done|]). split; [|done].
    simpl. apply _get_random_activity_elem. }
  destruct Hp' as (-> & -> & -> & Hok').
  rewrite Hn, Hh, Hp, Hl. repeat split; try done.
  intros Hall. apply Forall_cons in Hall as [H1 H2].
  apply Forall_cons. split; [by apply Hok' | by apply Hok].
Qed.

(** What [update()] returns from a house that is in order. *)
Lemma update_spec rolls focus_draw duration_draw clock house :
  house_ok house →
  let r := simulation.update rolls focus_draw duration_draw clock house in
  house_ok r.1 ∧
  map simulation.name (simulation.people r.1)
  = map simulation.name (simulation.people house) ∧
  map simulation.hwnd (simulation.people r.1)
  = map simulation.hwnd (simulation.people house) ∧
  ∃ person,
    simulation.people r.1 !! simulation.current_focus_index r.1 = Some person ∧
    r.2 = inl (map simulation.get_window_info (simulation.people r.1),
               simulation.hwnd person).
Proof.
  intros (Hlen & Hidx & Hnd & Hok). unfold simulation.update.
  destruct (change_activities_spec rolls clock (simulation.people house) 0 0)
    as (Hn & Hh & _ & Hl & Hok').
  destruct (simulation.change_activities rolls clock 0 0 (simulation.people house))
    as [people n]. simpl in *.
  assert (Hnz : (length people =? 0)%nat = false) by (apply Nat.eqb_neq; lia).
  rewrite Hnz, andb_false_r.
  set (house' := if simulation.focus_duration house <? _ then _ else _).
  assert (H' : simulation.people house' = people ∧
               (simulation.current_focus_index house' < length people)%nat).
  { subst house'. destruct (simulation.focus_duration house <? _); simpl.
    - split; [done|].
      pose proof (randint_range 0 (Z.of_nat (length people) - 1) focus_draw ltac:(lia)).
      lia.
    - split; [done | lia]. }
  destruct H' as (Hp & Hi).
  destruct (lookup_lt_is_Some_2 (simulation.people house') _ ltac:(by rewrite Hp))
    as [person Hperson].
  rewrite Hperson. simpl. rewrite Hp.
  split.
  - unfold house_ok. rewrite Hp, Hl, Hn. repeat split; try done; try lia.
    by apply Hok'.
  - split; [done|]. split; [done|]. exists person. by rewrite <- Hp at 1.
Qed.

Lemma names_of_PEOPLE (ps : list simulation.SimulatedPerson) :
  Forall person_ok ps →
  ∀ n, n ∈ map simulation.name ps →
       n ∈ map simulation.data_name simulation.PEOPLE.
Proof.
  intros Hok n Hn. apply list_elem_of_fmap in Hn as (p & -> & Hp).
  rewrite Forall_forall in Hok. destruct (Hok p Hp) as (d & Hd & -> & _).
  by apply list_elem_of_fmap_2.
Qed.

Lemma house_full_iff house :
  NoDup (map simulation.name (simulation.people house)) →
  Forall person_ok (simulation.people house) →
  (filter (λ p, simulation.data_name p ∉ map simulation.name (simulation.people house))
     simulation.PEOPLE = []
   ↔ length (simulation.people house) = 9%nat).
Proof.
  intros Hnd Hok.
  set (names := map simulation.name (simulation.people house)) in *.
  assert (Hsub : names ⊆+ map simulation.data_name simulation.PEOPLE).
  { apply NoDup_submseteq; [done|]. by apply names_of_PEOPLE. }
  assert (Hlen : length names = length (simulation.people house))
    by apply length_map.
  split.
  - intros Hnil.
    assert (Hall : map simulation.data_name simulation.PEOPLE ⊆+ names).
    { apply NoDup_submseteq; [apply PEOPLE_names|].
      intros n Hn. apply list_elem_of_fmap in Hn as (d & -> & Hd).
      destruct (decide (simulation.data_name d ∈ names)) as [?|Hout]; [done|].
      exfalso. by apply (filter_nil_not_elem_of _ _ d Hnil Hout). }
    apply submseteq_length in Hall, Hsub. rewrite length_map in Hall, Hsub.
    simpl in Hall, Hsub. lia.
  - intros H9.
    assert (Hperm : names ≡ₚ map simulation.data_name simulation.PEOPLE).
    { apply submseteq_length_Permutation; [done|]. rewrite Hlen, H9. done. }
    destruct (filter _ simulation.PEOPLE) as [|d rest] eqn:E; [done|].
    assert (Hd : d ∈ filter (λ p, simulation.data_name p ∉ names) simulation.PEOPLE)
      by (rewrite E; by left).
    apply list_elem_of_filter in Hd as [Hout Hd]. exfalso. apply Hout.
    rewrite Hperm. by apply list_elem_of_fmap_2.
Qed.

(** What [add_visitor()] does to a house that is in order. *)
Lemma add_visitor_spec pick hwnd_draw activity_draw now house :
  house_ok house →
  let r := simulation.add_visitor pick hwnd_draw activity_draw now house in
  house_ok r.1 ∧
  (r.2 = None ↔ length (simulation.people house) = 9%nat) ∧
  (r.2 = None → r.1 = house) ∧
  (∀ n, r.2 = Some n →
        (n ∉ map simulation.name (simulation.people house)) ∧
        ∃ person, simulation.name person = n ∧ person_ok person ∧
                  simulation.people r.1 = simulation.people house ++ [person] ∧
                  simulation.current_focus_index r.1
                  = simulation.current_focus_index house).
Proof.
  intros (Hlen & Hidx & Hnd & Hok). unfold simulation.add_visitor.
  pose proof (house_full_iff house Hnd Hok) as Hfull.
  set (available := filter _ simulation.PEOPLE) in *.
  destruct (simulation.choice pick available) as [d|] eqn:Hc; simpl.
  - assert (Hne : available ≠ []) by (intros H; by rewrite H in Hc).
    assert (Hd : d ∈ available).
    { destruct (choice_Some pick available Hne) as (x & Hx & Hin). congruence. }
    apply list_elem_of_filter in Hd as [Hout Hd].
    assert (Hp : person_ok (simulation.new_person hwnd_draw activity_draw now d))
      by by apply new_person_ok.
    assert (Hnd' : NoDup (map simulation.name
                            (simulation.people house
                             ++ [simulation.new_person hwnd_draw activity_draw now d]))).
    { rewrite map_app. apply NoDup_app. split; [done|].
      split; [|apply NoDup_singleton].
      intros x Hx Hx'. apply list_elem_of_singleton in Hx'. simpl in Hx'. by subst. }
    assert (Hok' : Forall person_ok
                     (simulation.people house
                      ++ [simulation.new_person hwnd_draw activity_draw now d])).
    { apply Forall_app. split; [done|]. by apply Forall_singleton. }
    split; [|split; [|split]].
    + unfold house_ok; simpl. rewrite length_app. simpl.
      repeat split; try done; try lia.
      assert (Hs : map simulation.name
                     (simulation.people house
                      ++ [simulation.new_person hwnd_draw activity_draw now d])
                   ⊆+ map simulation.data_name simulation.PEOPLE).
      { apply NoDup_submseteq; [done|]. by apply names_of_PEOPLE. }
      apply submseteq_length in Hs. rewrite !length_map, length_app in Hs.
      simpl in Hs. lia.
    + split; [done|]. intros H9. exfalso. apply Hne. by apply Hfull.
    + done.
    + intros n [= <-]. split; [done|].
      by exists (simulation.new_person hwnd_draw activity_draw now d).
  - apply choice_None in Hc.
    split; [done|]. split; [|split; [done|done]].
    split; [intros _; by apply Hfull | done].
Qed.

(** What [remove_person()] does to a house that is in order. *)
Lemma remove_person_spec pick house :
  house_ok house →
  let r := simulation.remove_person pick house in
  let people := simulation.people house in
  let index := simulation.current_focus_index house in
  let i := (pick mod length people)%nat in
  house_ok r.1 ∧
  (r.2 = None ↔ length people = 2%nat) ∧
  (r.2 = None → r.1 = house) ∧
  (∀ n, r.2 = Some n →
        (simulation.name <$> people !! i) = Some n ∧
        simulation.people r.1 = delete i people ∧
        length (simulation.people r.1) = (length people - 1)%nat ∧
        ((index < i)%nat ∨ (i < index)%nat ∧ index = (length people - 1)%nat →
         simulation.people r.1 !! simulation.current_focus_index r.1
         = people !! index) ∧
        ((i ≤ index)%nat → (index < length people - 1)%nat →
         simulation.people r.1 !! simulation.current_focus_index r.1
         = people !! S index)).
Proof.
  intros (Hlen & Hidx & Hnd & Hok). unfold simulation.remove_person. simpl.
  destruct (Nat.ltb_spec 2 (length (simulation.people house))) as [Hgt|Hle]; simpl.
  - destruct (choice_Some pick (simulation.people house)) as (p & Hc & Hin).
    { intros H. rewrite H in Hgt. simpl in Hgt. lia. }
    rewrite Hc. unfold simulation.choice in Hc. simpl.
    set (i := (pick mod length (simulation.people house))%nat) in *.
    assert (Hl : length (delete i (simulation.people house))
                 = (length (simulation.people house) - 1)%nat)
      by (apply length_delete; eauto).
    assert (Hsub : delete i (simulation.people house) `sublist_of` simulation.people house)
      by apply sublist_delete.
    split; [|split; [|split]].
    + unfold house_ok; simpl. rewrite Hl. repeat split; try lia.
      * destruct (Nat.leb_spec (length (simulation.people house) - 1)
                    (simulation.current_focus_index house)); lia.
      * eapply sublist_NoDup; [exact Hnd|]. by apply fmap_sublist.
      * rewrite Forall_forall in Hok. apply Forall_forall. intros x Hx.
        apply Hok. eapply elem_of_sublist; [exact Hx | exact Hsub].
    + split; [done | lia].
    + done.
    + intros n [= <-]. rewrite Hc. split; [done|]. split; [done|]. split; [done|].
      rewrite Hl. split.
      * intros [Hlt|[Hlt Hlast]].
        -- destruct (Nat.leb_spec (length (simulation.people house) - 1)
                       (simulation.current_focus_index house)) as [Hge|Hlt'].
           ++ assert (i < length (simulation.people house))%nat
                by (eapply lookup_lt_Some; exact Hc). lia.
           ++ by apply list_lookup_delete_lt.
        -- destruct (Nat.leb_spec (length (simulation.people house) - 1)
                       (simulation.current_focus_index house)) as [Hge|Hlt']; [|lia].
           rewrite list_lookup_delete_ge by lia. f_equal. lia.
      * intros Hi Hnl.
        destruct (Nat.leb_spec (length (simulation.people house) - 1)
                    (simulation.current_focus_index house)) as [Hge|Hlt']; [lia|].
        by apply list_lookup_delete_ge.
  - split; [done|]. split; [split; [intros _; lia | done]|]. split; [done | done].
Qed.

Lemma house_exec_ok c house : house_ok house → house_ok (house_exec c house).
Proof.
  intros Hok. destruct c as [rolls f d clock|pick h a now|pick]; simpl.
  - by destruct (update_spec rolls f d clock house Hok) as (H & _).
  - by destruct (add_visitor_spec pick h a now house Hok) as (H & _).
  - by destruct (remove_person_spec pick house Hok) as (H & _).
Qed.

Lemma house_run_ok calls : ∀ house, house_ok house → house_ok (house_run calls house).
Proof.
  unfold house_run. induction calls as [|c calls IH]; intros house Hok; simpl; [done|].
  apply IH. by apply house_exec_ok.
Qed.

Lemma HouseSimulation_init_count draws clock num_people :
  simulation.get_people_count (simulation.HouseSimulation_init draws clock num_people)
  = match num_people with
    | None => Z.to_nat (simulation.randint 4 9 (draws 0%nat))
    | Some k => (k `min` 9)%nat
    end.
Proof.
  unfold simulation.HouseSimulation_init, simulation.get_people_count.
  set (start := match num_people with
                | None => (Z.to_nat (simulation.randint 4 9 (draws 0%nat)), 1%nat)
                | Some k => (k, 0%nat)
                end).
  assert (Hs : match num_people with
               | None => Z.to_nat (simulation.randint 4 9 (draws 0%nat))
               | Some k => (k `min` 9)%nat
               end = (start.1 `min` 9)%nat).
  { subst start. destruct num_people as [k|]; simpl; [done|].
    pose proof (randint_range 4 9 (draws 0%nat) ltac:(lia)). lia. }
  rewrite Hs. destruct start as [n j].
  assert (Hlen : length simulation.PEOPLE = 9%nat) by reflexivity.
  destruct (sample_spec simulation.data_name draws (n `min` length simulation.PEOPLE) j
              simulation.PEOPLE PEOPLE_names ltac:(lia)) as (Hl & Hnd & Hall).
  destruct (new_people_spec draws clock
              (simulation.sample draws j simulation.PEOPLE (n `min` length simulation.PEOPLE))
              (j + n `min` length simulation.PEOPLE) 0 Hall) as (_ & _ & Hl').
  cbn [simulation.people fst]. by rewrite Hl', Hl, Hlen.
Qed.

Lemma change_activities_lookup rolls clock ps : ∀ j n i p,
  ps !! i = Some p →
  ∃ m, (simulation.change_activities rolls clock j n ps).1 !! i
       = Some (simulation.maybe_change_activity (rolls (j + i)%nat) (clock m) p).1.
Proof.
  induction ps as [|q ps IH]; intros j n i p Hp; [done|]. simpl.
  destruct (simulation.maybe_change_activity (rolls j) (clock n) q) as [q' changed] eqn:E.
  destruct i as [|i]; simpl in Hp.
  - injection Hp as ->. exists n.
    destruct (simulation.change_activities rolls clock (S j) _ ps) as [rest n'].
    simpl. by rewrite Nat.add_0_r, E.
  - destruct (IH (S j) (if changed then S n else n) i p Hp) as [m Hm].
    exists m.
    destruct (simulation.change_activities rolls clock (S j) _ ps) as [rest n'].
    simpl in *. by replace (j + S i)%nat with (S (j + i)) by lia.
Qed.

Lemma update_people rolls focus_draw duration_draw clock house :
  simulation.people (simulation.update rolls focus_draw duration_draw clock house).1
  = (simulation.change_activities rolls clock 0 0 (simulation.people house)).1.
Proof.
  unfold simulation.update.
  destruct (simulation.change_activities rolls clock 0 0 (simulation.people house))
    as [people n].
  destruct (simulation.focus_duration house <? _); simpl;
    [destruct (length people =? 0)%nat; simpl; [done|]|];
    by destruct (_ !! _).
Qed.

(** X11.  HouseSimulation() starts with 4 to 9 people (min(n, 9) when a count
    n is given), focus index 0 and a focus duration of 5 to 15 seconds. A
    house started with at least two people keeps, through any updates,
    visitors and departures, between 2 and 9 people with distinct names from
    PEOPLE, each at an activity listed for their personality, and a focus
    index that points at one of them, so update() never raises; on a house
    started empty update() always raises. *)
Theorem house_stays_in_order draws clock num_people :
  let house0 := simulation.HouseSimulation_init draws clock num_people in
  (num_people = None → (4 ≤ simulation.get_people_count house0 ≤ 9)%nat) ∧
  (∀ k, num_people = Some k →
        simulation.get_people_count house0 = (k `min` 9)%nat) ∧
  simulation.current_focus_index house0 = 0%nat ∧
  5000000 ≤ simulation.focus_duration house0 ≤ 15000000 ∧
  (simulation.get_people_count house0 = 0%nat →
   ∀ rolls focus_draw duration_draw clk,
     ∃ e, (simulation.update rolls focus_draw duration_draw clk house0).2 = inr e) ∧
  ((2 ≤ simulation.get_people_count house0)%nat →
   ∀ calls,
     let house := house_run calls house0 in
     house_ok house ∧
     ∀ rolls focus_draw duration_draw clk,
       ∃ answer, (simulation.update rolls focus_draw duration_draw clk house).2
                 = inl answer).
Proof.
  intros house0.
  pose proof (HouseSimulation_init_count draws clock num_people) as Hc.
  fold house0 in Hc.
  split; [|split; [|split; [|split; [|split]]]].
  - intros ->. rewrite Hc.
    pose proof (randint_range 4 9 (draws 0%nat) ltac:(lia)). lia.
  - intros k ->. done.
  - subst house0. unfold simulation.HouseSimulation_init.
    by destruct num_people.
  - subst house0. unfold simulation.HouseSimulation_init.
    destruct num_people; simpl; apply randint_range; lia.
  - intros H0 rolls focus_draw duration_draw clk.
    unfold simulation.get_people_count in H0.
    apply length_zero_iff_nil in H0. unfold simulation.update. rewrite H0. simpl.
    destruct (simulation.focus_duration house0 <? _); simpl; eauto.
  - intros H2 calls house.
    assert (Hok : house_ok house).
    { apply house_run_ok. apply HouseSimulation_init_ok.
      destruct num_people as [k|]; [|by left].
      right. exists k. split; [done|]. rewrite Hc in H2. lia. }
    split; [done|]. intros rolls focus_draw duration_draw clk.
    destruct (update_spec rolls focus_draw duration_draw clk house Hok)
      as (_ & _ & _ & person & _ & ->). eauto.
Qed.

(** X12.  On a house in order, update() returns one tuple per person, in
    order, holding the persons hwnd, the title name - activity and the process
    name, and as active handle the hwnd of the person at the focus index. It
    changes nobodys name, handle, process or personality, leaves a person
    whose roll did not come up untouched, and gives the others an activity
    listed for their personality. *)
Theorem update_reports_everyone rolls focus_draw duration_draw clock house :
  house_ok house →
  let r := simulation.update rolls focus_draw duration_draw clock house in
  ∃ windows focused,
    r.2 = inl (windows, simulation.hwnd focused) ∧
    simulation.people r.1 !! simulation.current_focus_index r.1 = Some focused ∧
    length windows = simulation.get_people_count house ∧
    simulation.get_people_count r.1 = simulation.get_people_count house ∧
    (∀ i p, simulation.people house !! i = Some p →
       ∃ p', simulation.people r.1 !! i = Some p' ∧
             simulation.name p' = simulation.name p ∧
             simulation.hwnd p' = simulation.hwnd p ∧
             simulation.process_name p' = simulation.process_name p ∧
             simulation.personality p' = simulation.personality p ∧
             (rolls i = None → p' = p) ∧
             (∀ draw, rolls i = Some draw →
                simulation.current_activity p'
                = simulation._get_random_activity draw (simulation.personality p)) ∧
             simulation.current_activity p'
             ∈ simulation.activities_of (simulation.personality p) ∧
             windows !! i
             = Some (simulation.hwnd p,
                     simulation.name p +:+ " - " +:+ simulation.current_activity p',
                     simulation.process_name p)).
Proof.
  intros Hok r.
  destruct (update_spec rolls focus_draw duration_draw clock house Hok)
    as (Hok' & Hn & Hh & focused & Hf & Hr). fold r in Hok', Hn, Hh, Hf, Hr.
  pose proof (update_people rolls focus_draw duration_draw clock house) as Hp.
  fold r in Hp.
  assert (Hl : length (simulation.people r.1) = length (simulation.people house)).
  { by rewrite <- (length_map simulation.name), Hn, length_map. }
  exists (map simulation.get_window_info (simulation.people r.1)), focused.
  split; [done|]. split; [done|]. split; [by rewrite length_map|].
  split; [done|]. intros i p Hi.
  destruct (change_activities_lookup rolls clock (simulation.people house) 0 0 i p Hi)
    as [m Hm]. rewrite <- Hp in Hm. simpl in Hm.
  destruct Hok as (_ & _ & _ & Hall). rewrite Forall_forall in Hall.
  destruct (Hall p) as (d & _ & _ & _ & _ & Hact & _);
    [by eapply list_elem_of_lookup_2|].
  eexists. split; [exact Hm|]. rewrite list_lookup_fmap, Hm.
  unfold simulation.maybe_change_activity.
  destruct (rolls i) as [draw|]; simpl.
  - repeat split; try done.
    + by intros draw' [= <-].
    + apply _get_random_activity_elem.
  - repeat split; done.
Qed.

Lemma update_reports_everyone_witness :
  let house := simulation.HouseSimulation_init (λ i, i) (λ _, 0) (Some 3%nat) in
  let r := simulation.update (λ _, None) 0 0 (λ _, 0) house in
  ∃ windows focused,
    r.2 = inl (windows, simulation.hwnd focused) ∧
    length windows = 3%nat.
Proof.
  intros house r.
  destruct (update_reports_everyone (λ _, None) 0 0 (λ _, 0) house)
    as (windows & focused & H1 & _ & H3 & _).
  - apply HouseSimulation_init_ok. right. exists 3%nat. split; [done | lia].
  - exists windows, focused. split; [exact H1 | exact H3].
Defined.

(** X13.  add_visitor() returns None and changes nothing exactly when all nine
    people are in the house; otherwise it appends one new person of PEOPLE
    whose name was not in the house, returns that name, keeps the focus index
    and leaves the house in order. add_simulation_visitor() so returns None
    outside simulation mode and also when the house is full. *)
Theorem add_visitor_brings_someone_new pick hwnd_draw activity_draw now house :
  house_ok house →
  let r := simulation.add_visitor pick hwnd_draw activity_draw now house in
  house_ok r.1 ∧
  (r.2 = None ↔ simulation.get_people_count house = 9%nat) ∧
  (r.2 = None → r.1 = house) ∧
  (∀ n, r.2 = Some n →
        (n ∉ map simulation.name (simulation.people house)) ∧
        simulation.get_people_count r.1
        = S (simulation.get_people_count house) ∧
        simulation.current_focus_index r.1 = simulation.current_focus_index house ∧
        ∃ person, simulation.people r.1 = simulation.people house ++ [person] ∧
                  simulation.name person = n ∧
                  simulation.activity_start_time person = now ∧
                  person_ok person) ∧
  (∀ self,
     (add_simulation_visitor pick hwnd_draw activity_draw now self (Some house)).2 = None
     ↔ _simulation_mode self = false ∨ simulation.get_people_count house = 9%nat).
Proof.
  intros Hok r.
  destruct (add_visitor_spec pick hwnd_draw activity_draw now house Hok)
    as (Hok' & Hnone & Hsame & Hsome). fold r in Hok', Hnone, Hsame, Hsome.
  split; [done|]. split; [done|]. split; [done|]. split.
  - intros n Hn. destruct (Hsome n Hn) as (Hout & person & Hname & Hp & Hpeople & Hidx).
    split; [done|]. split.
    { unfold simulation.get_people_count. rewrite Hpeople, length_app. simpl. lia. }
    split; [done|]. exists person. split; [done|]. split; [done|]. split; [|done].
    subst r. unfold simulation.add_visitor in Hpeople.
    destruct (simulation.choice pick _) as [d|]; simpl in Hpeople.
    + apply app_inv_head in Hpeople. by injection Hpeople as <-.
    + apply (f_equal length) in Hpeople. rewrite length_app in Hpeople.
      simpl in Hpeople. lia.
  - intros self. unfold add_simulation_visitor.
    destruct (_simulation_mode self); simpl.
    + fold r. destruct r as [house' res] eqn:E. simpl in *.
      rewrite Hnone. split; [by right | by intros [?|?]].
    + split; [by left | done].
Qed.

Lemma add_visitor_brings_someone_new_witness :
  let house := simulation.HouseSimulation_init (λ i, i) (λ _, 0) (Some 8%nat) in
  let r := simulation.add_visitor 0 0 0 0 house in
  r.2 = None ↔ simulation.get_people_count house = 9%nat.
Proof.
  intros house r.
  destruct (add_visitor_brings_someone_new 0 0 0 0 house) as (_ & H & _); [|exact H].
  apply HouseSimulation_init_ok. right. exists 8%nat. split; [done | lia].
Defined.

(** X14.  remove_person() returns None and changes nothing exactly when two
    people are left; otherwise it removes the person drawn, whose name is then
    no longer in the house, and returns that name. The focus stays on the same
    person when the removed one stands after them, or before them when they
    are last; when the removed one stands at or before a focused person who is
    not last, the focus passes to the person who stood next in the list.
    remove_simulation_person() returns None outside simulation mode and when
    two people are left. *)
Theorem remove_person_keeps_two pick house :
  house_ok house →
  let r := simulation.remove_person pick house in
  let people := simulation.people house in
  let index := simulation.current_focus_index house in
  let i := (pick mod length people)%nat in
  house_ok r.1 ∧
  (r.2 = None ↔ simulation.get_people_count house = 2%nat) ∧
  (r.2 = None → r.1 = house) ∧
  (∀ n, r.2 = Some n →
        (simulation.name <$> people !! i) = Some n ∧
        simulation.people r.1 = delete i people ∧
        (n ∉ map simulation.name (simulation.people r.1)) ∧
        S (simulation.get_people_count r.1) = simulation.get_people_count house ∧
        ((index < i)%nat ∨ (i < index)%nat ∧ index = (length people - 1)%nat →
         simulation.people r.1 !! simulation.current_focus_index r.1
         = people !! index) ∧
        ((i ≤ index)%nat → (index < length people - 1)%nat →
         simulation.people r.1 !! simulation.current_focus_index r.1
         = people !! S index)) ∧
  (∀ self,
     (remove_simulation_person pick self (Some house)).2 = None
     ↔ _simulation_mode self = false ∨ simulation.get_people_count house = 2%nat).
Proof.
  intros Hok r people index i.
  destruct (remove_person_spec pick house Hok)
    as (Hok' & Hnone & Hsame & Hsome).
  fold r people index i in Hok', Hnone, Hsame, Hsome.
  split; [done|]. split; [done|]. split; [done|]. split.
  - intros n Hn. destruct (Hsome n Hn) as (Hname & Hpeople & Hlen & Hkeep & Hnext).
    split; [done|]. split; [done|]. split.
    + rewrite Hpeople.
      destruct Hok as (_ & _ & Hnd & _). fold people in Hnd.
      destruct (people !! i) as [p|] eqn:Hp; [|done]. injection Hname as <-.
      pose proof (take_drop_middle _ _ _ Hp) as Hmid.
      rewrite <- Hmid, map_app in Hnd. simpl in Hnd.
      apply NoDup_app in Hnd as (_ & Hdis & Hnd2).
      apply NoDup_cons in Hnd2 as [Hnot _].
      rewrite delete_take_drop, map_app. intros Hin.
      apply elem_of_app in Hin as [Hin|Hin].
      * apply (Hdis (simulation.name p)); [done | by left].
      * by apply Hnot.
    + split; [|done]. unfold simulation.get_people_count. fold people.
      rewrite Hlen. destruct Hok as (H2 & _). fold people in H2. lia.
  - intros self. unfold remove_simulation_person.
    destruct (_simulation_mode self); simpl.
    + fold r. destruct r as [house' res] eqn:E. simpl in *.
      rewrite Hnone. split; [by right | by intros [?|?]].
    + split; [by left | done].
Qed.

Lemma remove_person_keeps_two_witness :
  let house := simulation.HouseSimulation_init (λ i, i) (λ _, 0) (Some 2%nat) in
  (simulation.remove_person 1 house).2 = None.
Proof.
  intros house.
  destruct (remove_person_keeps_two 1 house) as (_ & H & _).
  - apply HouseSimulation_init_ok. right. exists 2%nat. split; [done | lia].
  - apply H. reflexivity.
Defined.

(* ===================================================================== *)
(** ** The engine over its house *)
(* ===================================================================== *)

Lemma mode_exec clock c self :
  sound self → _simulation_mode (exec clock c self) = _simulation_mode self.
Proof.
  intros Hs. destruct c as [| | |poll].
  - simpl. unfold start. by destruct (_running self).
  - simpl. unfold stop. by destruct (_running self).
  - done.
  - destruct (_running self) eqn:Hr; [|simpl; by rewrite Hr].
    destruct (answered self poll) eqn:Ha.
    + destruct (proj2 Hs Hr) as [last Hl]. simpl. rewrite Hr.
      rewrite (tracking_cycle_answered _ _ _ last) by done. simpl.
      by destruct (reconcile_spec clock (first_tick poll) (clock 0%nat - last)
                     (reported poll) (set__last_update_time (Some (clock 0%nat)) self)
                     (sound_set_last_update _ _ Hs)) as (_ & _ & _ & -> & _).
    + by destruct (failed_cycle_view clock poll self Hr Ha) as (_ & H & _).
Qed.

Lemma mode_run clock calls : ∀ i self,
  sound self → _simulation_mode (run clock i calls self) = _simulation_mode self.
Proof.
  induction calls as [|c calls IH]; intros i self Hs; simpl; [done|].
  rewrite IH by by apply sound_exec. by apply mode_exec.
Qed.

Lemma handles_of_people a (ps : list simulation.SimulatedPerson) :
  map handle (map (tuple_found a) (map simulation.get_window_info ps))
  = map simulation.hwnd ps.
Proof. rewrite !map_map. by apply map_ext. Qed.

Lemma remove_dups_length_le (l : list Z) : (length (remove_dups l) ≤ length l)%nat.
Proof.
  apply submseteq_length, NoDup_submseteq; [apply NoDup_remove_dups|].
  intros x. by rewrite elem_of_remove_dups.
Qed.

(** X15.  A cycle of a running engine in simulation mode over a house built by
    HouseSimulation() and changed by any updates, visitors and departures
    never fails. Afterwards every person has a record, the visible records are
    exactly those under the peoples handles, a visible record is active
    exactly when its handle is the focused persons, its title is name -
    activity of a person with that handle, and visible_windows is at most the
    number of people, with equality when the random handles are distinct. *)
Theorem simulated_cycle_shows_the_house
    clock calls draws hclock hcalls rolls focus_draw duration_draw sclock clk :
  let self := run clock 0 calls (TimeTracker_init true) in
  let house := house_run hcalls (simulation.HouseSimulation_init draws hclock None) in
  let r := poll_simulation rolls focus_draw duration_draw sclock house in
  let self' := exec clk (Cycle r.2) self in
  _running self = true →
  ∃ focused,
    simulation.people r.1 !! simulation.current_focus_index r.1 = Some focused ∧
    r.2 = SimulationUpdate (map simulation.get_window_info (simulation.people r.1))
            (simulation.hwnd focused) ∧
    (∀ person, person ∈ simulation.people r.1 →
       is_Some (window self' (simulation.hwnd person))) ∧
    (∀ h w, window self' h = Some w →
       (is_visible w = true ↔ h ∈ map simulation.hwnd (simulation.people r.1)) ∧
       (is_visible w = true →
        (is_active w = true ↔ h = simulation.hwnd focused) ∧
        ∃ person, person ∈ simulation.people r.1 ∧ simulation.hwnd person = h ∧
                  title w = simulation.name person +:+ " - "
                            +:+ simulation.current_activity person)) ∧
    (visible_windows (get_stats self') ≤ simulation.get_people_count r.1)%nat ∧
    (NoDup (map simulation.hwnd (simulation.people r.1)) →
     visible_windows (get_stats self') = simulation.get_people_count r.1).
Proof.
  intros self house r self' Hr.
  assert (Hok : house_ok house).
  { apply house_run_ok, HouseSimulation_init_ok. by left. }
  destruct (update_spec rolls focus_draw duration_draw sclock house Hok)
    as (_ & _ & _ & focused & Hf & Hu).
  assert (H12 : r.1 = (simulation.update rolls focus_draw duration_draw sclock house).1 ∧
                r.2 = SimulationUpdate
                        (map simulation.get_window_info (simulation.people r.1))
                        (simulation.hwnd focused)).
  { subst r. unfold poll_simulation.
    destruct (simulation.update rolls focus_draw duration_draw sclock house)
      as [house' [[ws a]|e]]; simpl in *; [|done].
    injection Hu as -> ->. done. }
  destruct H12 as [H1 H2]. rewrite <- H1 in Hf.
  exists focused. split; [done|]. split; [done|].
  assert (Hs : sound self) by apply sound_run, sound_init.
  assert (Hfi : filed self) by apply filed_run, filed_init.
  assert (Hm : _simulation_mode self = true).
  { subst self. rewrite mode_run; [done | apply sound_init]. }
  assert (Ha : answered self r.2 = true).
  { rewrite H2. unfold answered. by rewrite Hm. }
  destruct (cycle_window clk r.2 self Hs Hr Ha) as (last & Hl & Hw).
  fold self' in Hw.
  assert (Hh : map handle (reported r.2) = map simulation.hwnd (simulation.people r.1)).
  { rewrite H2 at 1. apply handles_of_people. }
  assert (Hpresent : ∀ h, h ∈ map simulation.hwnd (simulation.people r.1) →
            ∃ w p, window self' h = Some w ∧ p ∈ simulation.people r.1 ∧
                   simulation.hwnd p = h ∧
                   title w = simulation.name p +:+ " - " +:+ simulation.current_activity p ∧
                   is_active w = (h =? simulation.hwnd focused) ∧
                   is_visible w = true).
  { intros h Hin. rewrite Hw, decide_True by by rewrite Hh.
    destruct (record_after_present clk (first_tick r.2) (clk 0%nat - last)
                (reported r.2) h (window self h)) as (f & w & Hfin & Hfh & Hrec & Ht & Hact & Hv);
      [by rewrite Hh|].
    rewrite H2 in Hfin at 1. simpl in Hfin.
    apply list_elem_of_fmap in Hfin as (e & -> & He).
    apply list_elem_of_fmap in He as (p & -> & Hp).
    exists w, p. split; [done|]. split; [done|]. split; [done|].
    split; [done|]. split; [|done]. rewrite Hact. simpl.
    unfold handle in Hfh. simpl in Hfh. by rewrite Hfh. }
  split; [|split; [|split]].
  - intros person Hp.
    destruct (Hpresent (simulation.hwnd person)) as (w & _ & -> & _); [|done].
    by apply list_elem_of_fmap_2.
  - intros h w Hwin.
    pose proof (cycle_visible clk r.2 self h w Hs Hr Ha Hwin) as Hv.
    rewrite Hh in Hv. split; [done|]. intros Hvis.
    destruct (Hpresent h (proj1 Hv Hvis)) as (w' & p & Hw' & Hp & Hhp & Ht & Hact & _).
    fold self' in Hwin. rewrite Hwin in Hw'. injection Hw' as <-.
    split; [|by exists p]. rewrite Hact. apply Z.eqb_eq.
  - unfold self'. rewrite (cycle_visible_count clk r.2 self Hs Hfi Hr Ha), Hh.
    etrans; [apply remove_dups_length_le|].
    unfold simulation.get_people_count. by rewrite length_map.
  - intros Hnd. unfold self'.
    rewrite (cycle_visible_count clk r.2 self Hs Hfi Hr Ha), Hh.
    unfold simulation.get_people_count.
    rewrite <- (length_map simulation.hwnd). apply Permutation_length.
    apply NoDup_Permutation; [apply NoDup_remove_dups | done|].
    intros x. apply elem_of_remove_dups.
Qed.

Lemma simulated_cycle_shows_the_house_witness :
  let self := run one_per_second 0 [Start] (TimeTracker_init true) in
  let house := house_run [] (simulation.HouseSimulation_init (λ i, i) (λ _, 0) None) in
  let r := poll_simulation (λ _, None) 0 0 (λ _, 0) house in
  let self' := exec (one_per_second 1) (Cycle r.2) self in
  _running self = true ∧
  (visible_windows (get_stats self') ≤ simulation.get_people_count r.1)%nat.
Proof.
  intros self house r self'. split; [reflexivity|].
  destruct (simulated_cycle_shows_the_house one_per_second [Start] (λ i, i) (λ _, 0) []
              (λ _, None) 0 0 (λ _, 0) (one_per_second 1))
    as (focused & _ & _ & _ & _ & H & _); [reflexivity | exact H].
Defined.

(* ===================================================================== *)
(** ** The native trackers *)
(* ===================================================================== *)

Lemma _is_valid_window_spec a :
  window_tracker_windows._is_valid_window a = true ↔ valid_window a.
Proof.
  unfold window_tracker_windows._is_valid_window, valid_window.
  destruct a as [vis text cls style owner text' pname]; simpl.
  assert (Hno : ∀ P : Prop, ¬ P → (false = true ↔ P)) by (intros P HP; split; done).
  destruct vis as [[|]|]; simpl;
    [|apply Hno; by intros (? & _)|apply Hno; by intros (? & _)].
  destruct text as [title|]; [|apply Hno; by intros (_ & (t & ? & _) & _)].
  destruct (Nat.ltb_spec (String.length title) MIN_TITLE_LENGTH) as [Hlt|Hge].
  { apply Hno. intros (_ & (t & [= <-] & Hne & _) & _).
    destruct title; [done | unfold MIN_TITLE_LENGTH in Hlt; simpl in Hlt; lia]. }
  assert (Hne : title ≠ EmptyString).
  { intros ->. unfold MIN_TITLE_LENGTH in Hge. simpl in Hge. lia. }
  destruct (bool_decide_reflect (title ∈ EXCLUDED_WINDOW_TITLES)) as [Hin|Hout].
  { apply Hno. by intros (_ & (t & [= <-] & _ & ?) & _). }
  destruct cls as [class_name|]; [|apply Hno; by intros (_ & _ & (c & ? & _) & _)].
  destruct (bool_decide_reflect (class_name ∈ EXCLUDED_WINDOW_CLASSES)) as [Hin'|Hout'].
  { apply Hno. by intros (_ & _ & (c & [= <-] & ?) & _). }
  destruct style as [ex_style|]; [|apply Hno; by intros (_ & _ & _ & (s & ? & _))].
  destruct (Z.eqb_spec (Z.land ex_style window_tracker_windows.WS_EX_TOOLWINDOW) 0)
    as [Htool|Htool]; simpl.
  2: { apply Hno. by intros (_ & _ & _ & (s & [= <-] & ? & _)). }
  destruct (Z.eqb_spec (Z.land ex_style window_tracker_windows.WS_EX_APPWINDOW) 0)
    as [Happ|Happ].
  2: { split; [intros _|done]. split; [done|]. split; [by exists title|].
       split; [by exists class_name|]. exists ex_style. split; [done|].
       split; [done|]. by left. }
  destruct owner as [owner|].
  2: { apply Hno. intros (_ & _ & _ & (s & [= <-] & _ & [?|?])); done. }
  destruct (Z.eqb_spec owner 0) as [->|Hown]; simpl.
  - split; [intros _|done]. split; [done|]. split; [by exists title|].
    split; [by exists class_name|]. exists ex_style. split; [done|].
    split; [done|]. by right.
  - apply Hno. intros (_ & _ & _ & (s & [= <-] & _ & [?|?])); [done|congruence].
Qed.

Lemma callback_fold active_hwnd enum : ∀ windows,
  fold_left (window_tracker_windows.callback active_hwnd) enum windows
  = windows
    ++ map (λ v, (v.1, window_tracker_windows._get_window_title v.2,
                  window_tracker_windows._get_process_name v.2,
                  bool_decide (Some v.1 = active_hwnd)))
         (filter (λ v, window_tracker_windows._is_valid_window v.2 = true) enum).
Proof.
  induction enum as [|[hwnd a] enum IH]; intros windows; simpl.
  - by rewrite app_nil_r.
  - rewrite IH, filter_cons. simpl.
    destruct (window_tracker_windows._is_valid_window a) eqn:E.
    + rewrite decide_True by done. by rewrite <- app_assoc.
    + by rewrite decide_False by done.
Qed.

Lemma NoDup_fst_agree {A B} (l : list (A * B)) k v v' :
  NoDup (map fst l) → (k, v) ∈ l → (k, v') ∈ l → v = v'.
Proof.
  induction l as [|[k0 v0] l IH]; intros Hnd H1 H2; [by apply elem_of_nil in H1|].
  simpl in Hnd. apply NoDup_cons in Hnd as [Hout Hnd].
  apply elem_of_cons in H1 as [H1|H1], H2 as [H2|H2].
  - congruence.
  - injection H1 as -> ->. exfalso. apply Hout.
    by apply (list_elem_of_fmap_2 fst _ (k0, v')).
  - injection H2 as -> ->. exfalso. apply Hout.
    by apply (list_elem_of_fmap_2 fst _ (k0, v)).
  - by apply IH.
Qed.

(** X16.  WindowsWindowTracker.enumerate_windows() lists exactly the
    enumerated windows that pass _is_valid_window (visible, titled, title and
    class not excluded, no tool window, an application window or one without
    owner), in enumeration order, with the title as read again and the process
    name or Unknown. A window is flagged active exactly when its handle is the
    non-zero foreground handle, so with distinct handles at most one is
    flagged; without pywin32 the list is empty. *)
Theorem windows_tracker_lists_valid_windows host GetForegroundWindow EnumWindows :
  let found :=
    window_tracker_windows.enumerate_windows host GetForegroundWindow EnumWindows in
  let active_hwnd :=
    window_tracker_windows.get_active_window_handle host GetForegroundWindow in
  (∃ valid, found = WindowsWindowTracker_found valid active_hwnd ∧
            map handle found `sublist_of` map fst EnumWindows) ∧
  (∀ h t p act,
     (h, t, p, act) ∈ found ↔
     WINDOWS_AVAILABLE host = true ∧
     ∃ a, (h, a) ∈ EnumWindows ∧ valid_window a ∧
          t = default EmptyString (window_tracker_windows.GetWindowText_again a) ∧
          p = default "Unknown" (window_tracker_windows.process_name a) ∧
          act = bool_decide (GetForegroundWindow = Some h ∧ h ≠ 0)) ∧
  (NoDup (map fst EnumWindows) →
   ∀ f g, f ∈ found → g ∈ found → f.2 = true → g.2 = true → f = g).
Proof.
  intros found active_hwnd.
  set (entry := λ v : Z * window_tracker_windows.Answers,
         (v.1, window_tracker_windows._get_window_title v.2,
          window_tracker_windows._get_process_name v.2,
          bool_decide (Some v.1 = active_hwnd))).
  set (kept := filter (λ v : Z * window_tracker_windows.Answers,
                         window_tracker_windows._is_valid_window v.2 = true)
                 EnumWindows).
  assert (Hfound : found = if WINDOWS_AVAILABLE host then map entry kept else []).
  { subst found. unfold window_tracker_windows.enumerate_windows.
    destruct (WINDOWS_AVAILABLE host); simpl; [|done].
    by rewrite callback_fold. }
  assert (Hact : ∀ h, WINDOWS_AVAILABLE host = true →
            bool_decide (Some h = active_hwnd)
            = bool_decide (GetForegroundWindow = Some h ∧ h ≠ 0)).
  { intros h Hav. subst active_hwnd.
    unfold window_tracker_windows.get_active_window_handle. rewrite Hav. simpl.
    apply bool_decide_ext. destruct GetForegroundWindow as [fg|]; [|by split; [|intros [? _]]].
    destruct (Z.eqb_spec fg 0) as [->|Hfg]; simpl.
    - split; [done|]. intros [[= ->] ?]. done.
    - split; [intros [= ->]; done | intros [[= ->] _]; done]. }
  assert (Hmem : ∀ h t p act,
     (h, t, p, act) ∈ found ↔
     WINDOWS_AVAILABLE host = true ∧
     ∃ a, (h, a) ∈ EnumWindows ∧ valid_window a ∧
          t = default EmptyString (window_tracker_windows.GetWindowText_again a) ∧
          p = default "Unknown" (window_tracker_windows.process_name a) ∧
          act = bool_decide (GetForegroundWindow = Some h ∧ h ≠ 0)).
  { intros h t p act. rewrite Hfound.
    destruct (WINDOWS_AVAILABLE host) eqn:Hav.
    - rewrite list_elem_of_fmap. split.
      + intros ([h' a] & Heq & Hin). subst entry. simpl in Heq.
        injection Heq as -> -> -> ->.
        apply list_elem_of_filter in Hin as [Hv Hin]. simpl in Hv.
        split; [done|]. exists a. split; [done|].
        split; [by apply _is_valid_window_spec|]. split; [done|]. split; [done|].
        by apply Hact.
      + intros (_ & a & Hin & Hv & -> & -> & ->). exists (h, a). split.
        * subst entry. simpl. by rewrite Hact.
        * apply list_elem_of_filter. split; [|done]. simpl.
          by apply _is_valid_window_spec.
    - split; [by intros ?%elem_of_nil | by intros [? _]]. }
  split; [|split; [exact Hmem|]].
  - rewrite Hfound. destruct (WINDOWS_AVAILABLE host).
    + exists (map (λ v : Z * window_tracker_windows.Answers,
                     (v.1, window_tracker_windows._get_window_title v.2,
                      window_tracker_windows._get_process_name v.2)) kept).
      split.
      * unfold WindowsWindowTracker_found. rewrite map_map. by apply map_ext.
      * rewrite map_map.
        replace (map (λ x, handle (entry x)) kept) with (map fst kept)
          by (by apply map_ext).
        apply fmap_sublist. apply sublist_filter.
    + exists []. split; [done | apply sublist_nil_l].
  - intros Hnd [[[h t] p] act] [[[h' t'] p'] act'] Hf Hg Ha Ha'. simpl in Ha, Ha'.
    subst act act'.
    apply Hmem in Hf as (_ & a & Hin & _ & -> & -> & Hb).
    apply Hmem in Hg as (_ & a' & Hin' & _ & -> & -> & Hb').
    symmetry in Hb, Hb'. apply bool_decide_eq_true in Hb as [Hb _], Hb' as [Hb' _].
    assert (h = h') by congruence. subst h'.
    by rewrite (NoDup_fst_agree _ _ _ _ Hnd Hin Hin').
Qed.

Lemma visit_fold active_app_name window_list : ∀ windows,
  fold_left (window_tracker_macos.visit active_app_name) window_list windows
  = windows
    ++ map (λ w, (default 0 (window_tracker_macos.kCGWindowNumber w),
                  default EmptyString (window_tracker_macos.kCGWindowName w),
                  default EmptyString (window_tracker_macos.kCGWindowOwnerName w),
                  String.eqb (default EmptyString (window_tracker_macos.kCGWindowOwnerName w))
                    active_app_name))
         (filter listed_window window_list).
Proof.
  induction window_list as [|w window_list IH]; intros windows; simpl.
  - by rewrite app_nil_r.
  - rewrite IH, filter_cons. unfold window_tracker_macos.visit, listed_window.
    unfold window_tracker_macos._should_exclude_app.
    destruct (Z.eqb_spec (default 0 (window_tracker_macos.kCGWindowLayer w)) 0)
      as [Hl|Hl]; simpl.
    2: { rewrite decide_False; [done | by intros (? & _)]. }
    destruct (String.eqb_spec (default EmptyString (window_tracker_macos.kCGWindowName w))
                EmptyString) as [Ht|Ht]; simpl.
    { rewrite decide_False; [done | by intros (_ & ? & _)]. }
    destruct (Nat.ltb_spec
                (String.length (default EmptyString (window_tracker_macos.kCGWindowName w)))
                MIN_TITLE_LENGTH) as [Hlt|Hge].
    { exfalso. destruct (default EmptyString (window_tracker_macos.kCGWindowName w));
        [done | unfold MIN_TITLE_LENGTH in Hlt; simpl in Hlt; lia]. }
    destruct (bool_decide_reflect
                (default EmptyString (window_tracker_macos.kCGWindowOwnerName w)
                 ∈ window_tracker_macos.excluded_apps)) as [Hin|Hout].
    { rewrite decide_False; [done | by intros (_ & _ & ?)]. }
    rewrite decide_True by done. by rewrite <- app_assoc.
Qed.

(** X17.  MacOSWindowTracker.enumerate_windows() lists exactly the on-screen
    windows of layer 0 that have a title and whose owner is not an excluded
    application, in order, under their window number (0 when missing). A
    window is flagged active exactly when its owner is the name of the front
    application, so none is flagged when that application is an excluded one;
    when the window list cannot be obtained, or PyObjC is missing, the result
    is the empty list. *)
Theorem macos_tracker_lists_titled_windows host activeApplication window_list :
  let found :=
    window_tracker_macos.enumerate_windows host activeApplication window_list in
  let active_app_name := window_tracker_macos._get_active_app_name activeApplication in
  (∃ onscreen, found = MacOSWindowTracker_found onscreen active_app_name) ∧
  (∀ h t p act,
     (h, t, p, act) ∈ found ↔
     MACOS_AVAILABLE host = true ∧
     ∃ windows window,
       window_list = Some windows ∧ window ∈ windows ∧ listed_window window ∧
       h = default 0 (window_tracker_macos.kCGWindowNumber window) ∧
       t = default EmptyString (window_tracker_macos.kCGWindowName window) ∧
       p = default EmptyString (window_tracker_macos.kCGWindowOwnerName window) ∧
       act = bool_decide (p = active_app_name)) ∧
  (window_list = None → found = []) ∧
  (active_app_name ∈ window_tracker_macos.excluded_apps →
   ∀ f, f ∈ found → f.2 = false) ∧
  (∀ windows, window_list = Some windows →
     map handle found
     `sublist_of` map (λ w, default 0 (window_tracker_macos.kCGWindowNumber w)) windows).
Proof.
  intros found active_app_name.
  set (entry := λ w : window_tracker_macos.CGWindow,
         (default 0 (window_tracker_macos.kCGWindowNumber w),
          default EmptyString (window_tracker_macos.kCGWindowName w),
          default EmptyString (window_tracker_macos.kCGWindowOwnerName w),
          String.eqb (default EmptyString (window_tracker_macos.kCGWindowOwnerName w))
            active_app_name)).
  assert (Hfound : found = if MACOS_AVAILABLE host
                           then match window_list with
                                | Some windows => map entry (filter listed_window windows)
                                | None => []
                                end
                           else []).
  { subst found. unfold window_tracker_macos.enumerate_windows.
    destruct (MACOS_AVAILABLE host); simpl; [|done].
    destruct window_list as [windows|]; [|done]. by rewrite visit_fold. }
  assert (Heqb : ∀ a b : string, String.eqb a b = bool_decide (a = b)).
  { intros a b. destruct (String.eqb_spec a b) as [->|Hne].
    - by rewrite bool_decide_eq_true_2.
    - by rewrite bool_decide_eq_false_2. }
  assert (Hmem : ∀ h t p act,
     (h, t, p, act) ∈ found ↔
     MACOS_AVAILABLE host = true ∧
     ∃ windows window,
       window_list = Some windows ∧ window ∈ windows ∧ listed_window window ∧
       h = default 0 (window_tracker_macos.kCGWindowNumber window) ∧
       t = default EmptyString (window_tracker_macos.kCGWindowName window) ∧
       p = default EmptyString (window_tracker_macos.kCGWindowOwnerName window) ∧
       act = bool_decide (p = active_app_name)).
  { intros h t p act. rewrite Hfound.
    destruct (MACOS_AVAILABLE host) eqn:Hav;
      [|split; [by intros ?%elem_of_nil | by intros [? _]]].
    destruct window_list as [windows|];
      [|split; [by intros ?%elem_of_nil | by intros (_ & ? & ? & ? & _)]].
    rewrite list_elem_of_fmap. split.
    - intros (w & Heq & Hin). subst entry. simpl in Heq.
      injection Heq as -> -> -> ->.
      apply list_elem_of_filter in Hin as [Hl Hin].
      split; [done|]. exists windows, w. by rewrite Heqb.
    - intros (_ & ws & w & [= <-] & Hin & Hl & -> & -> & -> & ->).
      exists w. split; [subst entry; simpl; by rewrite Heqb|].
      by apply list_elem_of_filter. }
  split; [|split; [exact Hmem|split; [|split]]].
  - rewrite Hfound. destruct (MACOS_AVAILABLE host); [|by exists []].
    destruct window_list as [windows|]; [|by exists []].
    exists (map (λ w : window_tracker_macos.CGWindow,
                   (default 0 (window_tracker_macos.kCGWindowNumber w),
                    default EmptyString (window_tracker_macos.kCGWindowName w),
                    default EmptyString (window_tracker_macos.kCGWindowOwnerName w)))
              (filter listed_window windows)).
    unfold MacOSWindowTracker_found. rewrite map_map. by apply map_ext.
  - intros ->. rewrite Hfound. by destruct (MACOS_AVAILABLE host).
  - intros Hex [[[h t] p] act] Hf. simpl.
    apply Hmem in Hf as (_ & ws & w & _ & _ & (_ & _ & Hout) & _ & _ & -> & ->).
    apply bool_decide_eq_false_2. intros Heq. by rewrite Heq in Hout.
  - intros windows ->. rewrite Hfound.
    destruct (MACOS_AVAILABLE host); [|apply sublist_nil_l].
    rewrite map_map.
    replace (map (λ x, handle (entry x)) (filter listed_window windows))
      with (map (λ w, default 0 (window_tracker_macos.kCGWindowNumber w))
              (filter listed_window windows)) by (by apply map_ext).
    apply fmap_sublist. apply sublist_filter.
Qed.

(* ===================================================================== *)
(** ** A tracker that finds nothing *)
(* ===================================================================== *)

Lemma running_cycle clock poll self :
  sound self → _running (exec clock (Cycle poll) self) = _running self.
Proof.
  intros Hs. destruct (_running self) eqn:Hr; [|simpl; by rewrite Hr].
  destruct (answered self poll) eqn:Ha.
  - destruct (proj2 Hs Hr) as [last Hl]. simpl. rewrite Hr.
    rewrite (tracking_cycle_answered _ _ _ last) by done. simpl.
    by destruct (reconcile_spec clock (first_tick poll) (clock 0%nat - last)
                   (reported poll) (set__last_update_time (Some (clock 0%nat)) self)
                   (sound_set_last_update _ _ Hs)) as (_ & -> & _).
  - by destruct (failed_cycle_view clock poll self Hr Ha) as (H & _).
Qed.

Lemma running_cycles clock polls : ∀ i self,
  sound self → _running (run clock i (map Cycle polls) self) = _running self.
Proof.
  induction polls as [|poll polls IH]; intros i self Hs; [done|].
  change (run clock i (map Cycle (poll :: polls)) self)
    with (run clock (S i) (map Cycle polls) (exec (clock i) (Cycle poll) self)).
  rewrite IH by by apply sound_exec. by apply running_cycle.
Qed.

Lemma mark_all_hidden_events cur ks : ∀ self,
  ∃ l, events (fold_left (mark_hidden cur) ks self) = events self ++ l ∧
       Forall (λ e, ∃ h, e = Logged DEBUG (WindowNoLongerVisible h)) l.
Proof.
  induction ks as [|k ks IH]; intros self; simpl.
  - exists []. by rewrite app_nil_r.
  - destruct (IH (mark_hidden cur self k)) as (l & -> & Hl).
    unfold mark_hidden. destruct (bool_decide (k ∈ cur)); [by exists l|].
    destruct (dict_get (_windows self) k); [|by exists l].
    exists (Logged DEBUG (WindowNoLongerVisible k) :: l). simpl.
    split; [by rewrite <- app_assoc|]. apply Forall_cons. split; [by exists k | done].
Qed.

(** X18.  When a native tracker finds nothing to list because the macOS window
    list could not be obtained or EnumWindows failed at once, the cycle is not
    a failed cycle: the tracking loop logs no error, sets _last_update_time,
    and marks every tracked record invisible, leaving its other fields, the
    keys of the map and total_windows as they were; visible_windows becomes
    0. *)
Theorem empty_enumeration_hides_every_window
    clock calls clk host activeApplication GetForegroundWindow :
  let self := run clock 0 calls (TimeTracker_init false) in
  let polls :=
    [Enumerated (window_tracker_macos.enumerate_windows host activeApplication None);
     Enumerated (window_tracker_windows.enumerate_windows host GetForegroundWindow [])] in
  _running self = true →
  ∀ poll, poll ∈ polls →
    let self' := exec clk (Cycle poll) self in
    (∀ h, window self' h = set_is_visible false <$> window self h) ∧
    keys (_windows self') = keys (_windows self) ∧
    visible_windows (get_stats self') = 0%nat ∧
    total_windows (get_stats self') = total_windows (get_stats self) ∧
    _last_update_time self' = Some (clk 0%nat) ∧
    last (events self') = Some (Slept WINDOW_ENUMERATION_INTERVAL) ∧
    (∀ e, Logged ERROR (ErrorInTrackingLoop e) ∈ events self' →
          Logged ERROR (ErrorInTrackingLoop e) ∈ events self).
Proof.
  intros self polls Hr poll Hpoll self'.
  assert (Hs : sound self) by apply sound_run, sound_init.
  assert (Hfi : filed self) by apply filed_run, filed_init.
  assert (Hm : _simulation_mode self = false).
  { subst self. rewrite mode_run; [done | apply sound_init]. }
  assert (Hp : poll = Enumerated []).
  { subst polls. apply elem_of_cons in Hpoll as [->|Hpoll].
    - unfold window_tracker_macos.enumerate_windows.
      by destruct (MACOS_AVAILABLE host).
    - apply list_elem_of_singleton in Hpoll as ->.
      unfold window_tracker_windows.enumerate_windows.
      by destruct (WINDOWS_AVAILABLE host). }
  subst poll.
  assert (Ha : answered self (Enumerated []) = true).
  { unfold answered. by rewrite Hm. }
  destruct (cycle_window clk (Enumerated []) self Hs Hr Ha) as (last & Hl & Hw).
  fold self' in Hw.
  split; [intros h; by rewrite Hw|].
  pose proof (cycle_keys clk (Enumerated []) self Hs Hfi Hr Ha) as Hk.
  fold self' in Hk. simpl in Hk. rewrite app_nil_r in Hk.
  split; [done|]. split; [by apply cycle_visible_count|].
  split.
  { unfold get_stats; simpl.
    rewrite <- !(length_map fst). fold (keys (_windows self')) (keys (_windows self)).
    by rewrite Hk. }
  subst self'. simpl. rewrite Hr.
  rewrite (tracking_cycle_answered _ _ _ last) by done. simpl.
  destruct (reconcile_spec clk 1 (clk 0%nat - last) []
              (set__last_update_time (Some (clk 0%nat)) self)
              (sound_set_last_update _ _ Hs)) as (_ & _ & Hlu & _).
  split; [by rewrite Hlu|].
  split; [by rewrite last_snoc|].
  intros e He. apply elem_of_app in He as [He|He].
  - unfold reconcile in He. simpl in He.
    destruct (mark_all_hidden_events ∅ (keys (_windows self))
                (set__last_update_time (Some (clk 0%nat)) self)) as (l & Hev & Hall).
    rewrite Hev in He. apply elem_of_app in He as [He|He]; [done|].
    rewrite Forall_forall in Hall. by destruct (Hall _ He) as [h ?].
  - by apply list_elem_of_singleton in He.
Qed.

Lemma empty_enumeration_hides_every_window_witness :
  let self := run one_per_second 0 two_documents (TimeTracker_init false) in
  let poll :=
    Enumerated (window_tracker_macos.enumerate_windows
                  (mkHost "darwin" false true) None None) in
  let self' := exec (one_per_second 2) (Cycle poll) self in
  _running self = true ∧
  visible_windows (get_stats self) = 2%nat ∧
  visible_windows (get_stats self') = 0%nat ∧
  total_windows (get_stats self') = 2%nat ∧
  window self' 1
  = Some (mkWindowInfo 1 "Notes" "TextEdit" (seconds 1) (seconds 1) 0 0 true false).
Proof.
  intros self poll self'. split; [reflexivity|]. split; [vm_compute; reflexivity|].
  destruct (empty_enumeration_hides_every_window one_per_second two_documents
              (one_per_second 2) (mkHost "darwin" false true) None None
              ltac:(reflexivity) poll ltac:(by left)) as (Hw & _ & Hv & Ht & _).
  split; [exact Hv|]. split.
  - etrans; [exact Ht|]. vm_compute. reflexivity.
  - etrans; [apply Hw|]. vm_compute. reflexivity.
Defined.

(* ===================================================================== *)
(** ** The entry point *)
(* ===================================================================== *)

(** X19.  main() never ends in Failed to initialize tracker: once
    get_supported_platforms() is not empty the factory cannot raise. It
    returns 0 exactly when pygame is found, a platform is supported and the
    view ran without raising; whenever it made an engine, that engine is in
    native mode and, at return, stopped, its last log entry being TimeTracker
    stopped. *)
Theorem main_stops_the_tracker pygame_found host clock polls view_raises :
  let r := main pygame_found host clock polls view_raises in
  (∀ e, r ≠ FailedToInitialize e) ∧
  (exit_code r = 0 ↔
   pygame_found = true ∧ get_supported_platforms host ≠ [] ∧ view_raises = false) ∧
  (∀ tracker, r = ErrorRunning tracker ∨ r = Finished tracker →
     _running tracker = false ∧
     _simulation_mode tracker = false ∧
     last (events tracker) = Some (Logged INFO (Text "TimeTracker stopped"))).
Proof.
  intros r.
  set (tracker0 := stop (run clock 1 (map Cycle polls)
                           (start (clock 0%nat) (TimeTracker_init false)))).
  assert (Hr : r = if negb pygame_found then PygameNotFound
                   else match get_supported_platforms host with
                        | [] => UnsupportedPlatform (sys_platform host)
                        | _ :: _ => if view_raises then ErrorRunning tracker0
                                    else Finished tracker0
                        end).
  { subst r. unfold main, TimeTracker_new, get_supported_platforms, create_window_tracker.
    destruct pygame_found; [|done]. cbn [negb].
    destruct (is_supported host WindowsWindowTracker),
             (is_supported host MacOSWindowTracker); reflexivity. }
  assert (Hs : sound (start (clock 0%nat) (TimeTracker_init false))).
  { apply (sound_exec (clock 0%nat) Start), sound_init. }
  assert (H0 : _running tracker0 = false ∧ _simulation_mode tracker0 = false ∧
               last (events tracker0) = Some (Logged INFO (Text "TimeTracker stopped"))).
  { subst tracker0. unfold stop. rewrite running_cycles by done. simpl.
    split; [done|]. split; [by rewrite mode_run by done|]. by rewrite last_snoc. }
  rewrite Hr. split; [|split].
  - intros e. destruct pygame_found; [|done]. simpl.
    destruct (get_supported_platforms host); [done|]. by destruct view_raises.
  - destruct pygame_found; simpl; [|by split; [|intros [? _]]].
    destruct (get_supported_platforms host) as [|x l]; simpl.
    + split; [done | by intros (_ & ? & _)].
    + destruct view_raises; simpl; [by split; [|intros (_ & _ & ?)] | done].
  - intros tracker Ht.
    assert (tracker = tracker0); [|by subst].
    destruct pygame_found; simpl in Ht; [|by destruct Ht].
    destruct (get_supported_platforms host); [by destruct Ht|].
    destruct view_raises, Ht as [Ht|Ht]; congruence.
Qed.

(* ===================================================================== *)
(** ** The personas *)
(* ===================================================================== *)

Lemma default_activities :
  ∃ a l, simulation.lookup "default" personification.ACTIVITY_MAPPINGS = Some (a :: l) ∧
         ("default", a :: l) ∈ personification.ACTIVITY_MAPPINGS.
Proof.
  eexists _, _. split; [vm_compute; reflexivity|].
  apply list_elem_of_In. unfold personification.ACTIVITY_MAPPINGS. simpl.
  repeat first [left; reflexivity | right].
Qed.

Lemma _generate_activity_Some py draw title process_name persona :
  ∃ activity,
    personification._generate_activity py draw title process_name persona
    = Some (personification.emoji persona +:+ " " +:+ activity) ∧
    ∃ key activities,
      (key, activities) ∈ personification.ACTIVITY_MAPPINGS ∧ activity ∈ activities.
Proof.
  unfold personification._generate_activity.
  set (found := find _ personification.ACTIVITY_MAPPINGS).
  assert (Hsel : ∃ key a l,
            match snd <$> found with
            | Some (activity :: rest) => Some (activity :: rest)
            | _ => simulation.lookup "default" personification.ACTIVITY_MAPPINGS
            end = Some (a :: l) ∧
            (key, a :: l) ∈ personification.ACTIVITY_MAPPINGS).
  { destruct default_activities as (a0 & l0 & Hd & Hin0).
    destruct found as [[key [|a l]]|] eqn:Hf; simpl.
    - by exists "default", a0, l0.
    - exists key, a, l. split; [done|].
      subst found. apply find_some in Hf as [Hin _]. by apply list_elem_of_In.
    - by exists "default", a0, l0. }
  destruct Hsel as (key & a & l & -> & Hin).
  destruct (choice_Some draw (a :: l) ltac:(done)) as (activity & -> & Hact).
  exists activity. split; [done|]. by exists key, (a :: l).
Qed.

Lemma _get_emoji_for_app_frame process_lower self emoji self' :
  personification._get_emoji_for_app process_lower self = Some (emoji, self') →
  personification._window_to_persona self' = personification._window_to_persona self ∧
  personification._used_names self' = personification._used_names self ∧
  personification._person_emoji_pool self' = personification._person_emoji_pool self ∧
  (emoji ∈ map snd personification.EMOJI_MAP ∨
   emoji ∈ personification._person_emoji_pool self) ∧
  ((personification._person_emoji_index self
    < length (personification._person_emoji_pool self))%nat →
   (personification._person_emoji_index self'
    < length (personification._person_emoji_pool self'))%nat).
Proof.
  unfold personification._get_emoji_for_app. intros H.
  destruct (find _ personification.EMOJI_MAP) as [[key e]|] eqn:Hf.
  - injection H as <- <-. repeat split; try done. left.
    apply find_some in Hf as [Hin _]. apply list_elem_of_In in Hin.
    by apply (list_elem_of_fmap_2 snd _ (key, e)).
  - destruct (_ !! _) as [e|] eqn:He; [|done]. injection H as <- <-. simpl.
    repeat split; try done.
    + right. by eapply list_elem_of_lookup_2.
    + intros Hlt. apply Nat.mod_upper_bound. lia.
Qed.

Lemma _get_emoji_for_app_Some process_lower self :
  (personification._person_emoji_index self
   < length (personification._person_emoji_pool self))%nat →
  is_Some (personification._get_emoji_for_app process_lower self).
Proof.
  intros Hlt. unfold personification._get_emoji_for_app.
  destruct (find _ personification.EMOJI_MAP) as [[key e]|]; [done|].
  destruct (lookup_lt_is_Some_2 _ _ Hlt) as [e ->]. done.
Qed.

(** What a call for a handle that has no persona yet gives and leaves. *)
Lemma new_persona_spec py draw hwnd title process_name self self' n activity :
  personification._window_to_persona self !! hwnd = None →
  personification.get_persona_for_window py draw hwnd title process_name self
  = Some (self', (n, activity)) →
  let base_name := personification.base_name_of py process_name in
  (∃ persona,
     personification._window_to_persona self'
     = <[hwnd := persona]> (personification._window_to_persona self) ∧
     personification.name persona = n ∧
     (personification.emoji persona ∈ map snd personification.EMOJI_MAP ∨
      personification.emoji persona ∈ personification._person_emoji_pool self) ∧
     ∃ a, activity = personification.emoji persona +:+ " " +:+ a) ∧
  personification._person_emoji_pool self' = personification._person_emoji_pool self ∧
  ((personification._person_emoji_index self
    < length (personification._person_emoji_pool self))%nat →
   (personification._person_emoji_index self'
    < length (personification._person_emoji_pool self'))%nat) ∧
  (∀ b, b ≠ base_name →
        personification._used_names self' !! b = personification._used_names self !! b) ∧
  (personification._used_names self !! base_name = None ∧ n = base_name ∧
   personification._used_names self' !! base_name = Some 0%nat
   ∨ ∃ used, personification._used_names self !! base_name = Some used ∧
             n = base_name +:+ " #" +:+ str (Z.of_nat used + 2) ∧
             personification._used_names self' !! base_name = Some (S used)).
Proof.
  intros Hnew H base_name. unfold personification.get_persona_for_window in H.
  rewrite Hnew in H. unfold personification._assign_persona in H.
  fold base_name in H.
  destruct (personification._generate_unique_name base_name _ self) as [pname self1] eqn:Hg.
  destruct (personification._get_emoji_for_app _ self1) as [[e self2]|] eqn:He; [|done].
  destruct (_generate_activity_Some py draw title process_name (personification.mkPersona pname e))
    as (a & Ha & _).
  rewrite Ha in H. injection H as <- <- <-.
  destruct (_get_emoji_for_app_frame _ _ _ _ He) as (Hw & Hu & Hp & Hem & Hidx).
  assert (H1 : personification._window_to_persona self1
               = personification._window_to_persona self ∧
               personification._person_emoji_pool self1
               = personification._person_emoji_pool self ∧
               personification._person_emoji_index self1
               = personification._person_emoji_index self).
  { unfold personification._generate_unique_name in Hg.
    by destruct (_ !! base_name); injection Hg as <- <-. }
  destruct H1 as (Hw1 & Hp1 & Hi1). simpl.
  split; [|split; [|split; [|split]]].
  - exists (personification.mkPersona pname e). simpl.
    rewrite Hw, Hw1. split; [done|]. split; [done|]. split; [|by exists a].
    by rewrite <- Hp1.
  - by rewrite Hp, Hp1.
  - rewrite <- Hp1, <- Hi1. exact Hidx.
  - intros b Hb. rewrite Hu. unfold personification._generate_unique_name in Hg.
    destruct (_ !! base_name); injection Hg as <- <-; simpl;
      by rewrite lookup_insert_ne.
  - rewrite Hu. unfold personification._generate_unique_name in Hg.
    destruct (personification._used_names self !! base_name) as [used|] eqn:Hused;
      injection Hg as <- <-; simpl; rewrite lookup_insert_eq.
    + right. exists used. split; [done|]. split; [|done].
      by replace (Z.of_nat (S used) + 1) with (Z.of_nat used + 2) by lia.
    + by left.
Qed.

(** What a call for a handle that has a persona gives and leaves. *)
Lemma known_persona_spec py draw hwnd title process_name self persona :
  personification._window_to_persona self !! hwnd = Some persona →
  ∃ a, (∃ key activities,
          (key, activities) ∈ personification.ACTIVITY_MAPPINGS ∧ a ∈ activities) ∧
       personification.get_persona_for_window py draw hwnd title process_name self
       = Some (self, (personification.name persona,
                      personification.emoji persona +:+ " " +:+ a)).
Proof.
  intros Hk. unfold personification.get_persona_for_window. rewrite Hk.
  destruct (_generate_activity_Some py draw title process_name persona) as (a & -> & Ha).
  by exists a.
Qed.

Lemma get_persona_cases py draw hwnd title process_name self r :
  personification.get_persona_for_window py draw hwnd title process_name self = Some r →
  (∃ persona, personification._window_to_persona self !! hwnd = Some persona ∧ r.1 = self)
  ∨ personification._window_to_persona self !! hwnd = None.
Proof.
  intros H. destruct (personification._window_to_persona self !! hwnd) as [persona|] eqn:Hk;
    [|by right].
  left. exists persona. split; [done|].
  destruct (known_persona_spec py draw hwnd title process_name self persona Hk)
    as (a & _ & Hr). rewrite Hr in H. by injection H as <-.
Qed.

Lemma format_window_get py draw hwnd title process_name is_active self :
  fst <$> personification.format_window_for_display py draw hwnd title process_name
            is_active self
  = fst <$> personification.get_persona_for_window py draw hwnd title process_name self.
Proof.
  unfold personification.format_window_for_display.
  by destruct (personification.get_persona_for_window _ _ _ _ _ _) as [[s [n a]]|].
Qed.

(** A call is a request for the persona of a handle, or it is not. *)
Lemma persona_exec_cases py c self self' :
  persona_exec py c self = Some self' →
  (∃ draw hwnd title process_name r,
     personification.get_persona_for_window py draw hwnd title process_name self = Some r ∧
     r.1 = self') ∨
  (∃ hwnd, c = RemoveWindow hwnd ∧ self' = personification.remove_window hwnd self) ∨
  (c = ClearAll ∧ self' = personification.clear_all self).
Proof.
  destruct c as [draw hwnd title pn|draw hwnd title pn act|hwnd|]; simpl.
  - intros H. left. exists draw, hwnd, title, pn.
    destruct (personification.get_persona_for_window _ _ _ _ _ _) as [r|]; [|done].
    exists r. split; [done|]. by injection H.
  - rewrite format_window_get. intros H. left. exists draw, hwnd, title, pn.
    destruct (personification.get_persona_for_window _ _ _ _ _ _) as [r|]; [|done].
    exists r. split; [done|]. by injection H.
  - intros [= <-]. right. left. by exists hwnd.
  - intros [= <-]. right. by right.
Qed.

Lemma persona_exec_keeps py c self self' hwnd persona :
  persona_exec py c self = Some self' →
  c ≠ RemoveWindow hwnd → c ≠ ClearAll →
  personification._window_to_persona self !! hwnd = Some persona →
  personification._window_to_persona self' !! hwnd = Some persona.
Proof.
  intros H Hr Hc Hk.
  apply persona_exec_cases in H
    as [(draw & h & title & pn & [s [n a]] & Hg & <-)|[(h & -> & ->)|[-> _]]]; [| |done].
  - destruct (get_persona_cases _ _ _ _ _ _ _ Hg) as [(p & _ & ->)|Hnew]; [done|].
    simpl. destruct (new_persona_spec _ _ _ _ _ _ _ _ _ Hnew Hg) as ((p & -> & _) & _).
    rewrite lookup_insert_ne; [done|]. intros ->. congruence.
  - unfold personification.remove_window.
    destruct (_ !! h); [|done]. simpl. rewrite lookup_delete_ne; [done|].
    intros ->. done.
Qed.

Lemma persona_run_keeps py calls hwnd persona : ∀ self self',
  persona_run py calls self = Some self' →
  RemoveWindow hwnd ∉ calls → ClearAll ∉ calls →
  personification._window_to_persona self !! hwnd = Some persona →
  personification._window_to_persona self' !! hwnd = Some persona.
Proof.
  induction calls as [|c calls IH]; intros self self' H Hr Hc Hk; simpl in H.
  - by injection H as <-.
  - destruct (persona_exec py c self) as [self1|] eqn:He; [|done].
    apply not_elem_of_cons in Hr as [Hr1 Hr], Hc as [Hc1 Hc].
    apply (IH self1 self' H Hr Hc).
    by apply (persona_exec_keeps py c self).
Qed.

Lemma persona_exec_used py c self self' b used :
  persona_exec py c self = Some self' → c ≠ ClearAll →
  personification._used_names self !! b = Some used →
  ∃ used', personification._used_names self' !! b = Some used' ∧ (used ≤ used')%nat.
Proof.
  intros H Hc Hu.
  apply persona_exec_cases in H
    as [(draw & h & title & pn & [s [n a]] & Hg & <-)|[(h & -> & ->)|[-> _]]]; [| |done].
  - destruct (get_persona_cases _ _ _ _ _ _ _ Hg) as [(p & _ & ->)|Hnew]; [by exists used|].
    destruct (new_persona_spec _ _ _ _ _ _ _ _ _ Hnew Hg) as (_ & _ & _ & Hother & Hbase).
    simpl in *.
    destruct (decide (b = personification.base_name_of py pn)) as [->|Hne].
    + destruct Hbase as [(Hnone & _)|(u & Hsome & _ & Hafter)]; [congruence|].
      exists (S u). split; [done|]. assert (u = used) by congruence. lia.
    + exists used. by rewrite Hother.
  - exists used. unfold personification.remove_window. by destruct (_ !! h).
Qed.

Lemma persona_run_used py calls b : ∀ self self' used,
  persona_run py calls self = Some self' → ClearAll ∉ calls →
  personification._used_names self !! b = Some used →
  ∃ used', personification._used_names self' !! b = Some used' ∧ (used ≤ used')%nat.
Proof.
  induction calls as [|c calls IH]; intros self self' used H Hc Hu; simpl in H.
  - injection H as <-. by exists used.
  - destruct (persona_exec py c self) as [self1|] eqn:He; [|done].
    apply not_elem_of_cons in Hc as [Hc1 Hc].
    destruct (persona_exec_used py c self self1 b used He (not_eq_sym Hc1) Hu) as (u1 & Hu1 & Hle).
    destruct (IH self1 self' u1 H Hc Hu1) as (u2 & Hu2 & Hle2).
    exists u2. split; [done | lia].
Qed.

Lemma str_inj n m : 0 < n → 0 < m → str n = str m → n = m.
Proof.
  intros Hn Hm H.
  pose proof (read_str n "s" 0 Hn) as H1. pose proof (read_str m "s" 0 Hm) as H2.
  rewrite H in H1. rewrite H1 in H2. simpl in H2. lia.
Qed.

Lemma append_inv_head (a x y : string) : a +:+ x = a +:+ y → x = y.
Proof. induction a as [|c a IH]; simpl; [done|]. intros [= H]. by apply IH. Qed.

(** X20.  Once get_persona_for_window has answered for a handle, every later
    call for that handle returns the same persona name and an activity
    prefixed with the same emoji, whatever title and process name are passed
    and whatever calls came between, as long as neither remove_window of that
    handle nor clear_all was called. Such a call changes nothing in the
    manager, and format_window_for_display builds its title from that name and
    activity. *)
Theorem persona_is_kept py draw hwnd title process_name self self1 n activity later self2 :
  personification.get_persona_for_window py draw hwnd title process_name self
  = Some (self1, (n, activity)) →
  RemoveWindow hwnd ∉ later → ClearAll ∉ later →
  persona_run py later self1 = Some self2 →
  ∃ persona,
    personification._window_to_persona self2 !! hwnd = Some persona ∧
    personification.name persona = n ∧
    (∃ a, activity = personification.emoji persona +:+ " " +:+ a) ∧
    ∀ draw' title' process_name',
      ∃ a', (∃ key activities,
               (key, activities) ∈ personification.ACTIVITY_MAPPINGS ∧ a' ∈ activities) ∧
            personification.get_persona_for_window py draw' hwnd title' process_name' self2
            = Some (self2, (n, personification.emoji persona +:+ " " +:+ a')) ∧
            ∀ is_active,
              personification.format_window_for_display py draw' hwnd title' process_name'
                is_active self2
              = Some (self2,
                      ((if is_active then "🗣️ " else EmptyString) +:+ n +:+ " - "
                       +:+ personification.emoji persona +:+ " " +:+ a',
                       "in the house")).
Proof.
  intros Hg Hr Hc Hrun.
  assert (H1 : ∃ persona,
            personification._window_to_persona self1 !! hwnd = Some persona ∧
            personification.name persona = n ∧
            ∃ a, activity = personification.emoji persona +:+ " " +:+ a).
  { destruct (personification._window_to_persona self !! hwnd) as [persona|] eqn:Hk.
    - destruct (known_persona_spec py draw hwnd title process_name self persona Hk)
        as (a & _ & Hs). rewrite Hs in Hg. injection Hg as <- <- <-.
      exists persona. split; [done|]. split; [done|]. by exists a.
    - destruct (new_persona_spec _ _ _ _ _ _ _ _ _ Hk Hg)
        as ((persona & Hw & Hn & _ & Ha) & _).
      exists persona. rewrite Hw, lookup_insert_eq. done. }
  destruct H1 as (persona & Hk1 & Hn & Ha).
  pose proof (persona_run_keeps py later hwnd persona self1 self2 Hrun Hr Hc Hk1) as Hk2.
  exists persona. split; [done|]. split; [done|]. split; [done|].
  intros draw' title' process_name'.
  destruct (known_persona_spec py draw' hwnd title' process_name' self2 persona Hk2)
    as (a' & Hin & Hs).
  exists a'. split; [done|]. rewrite Hn in Hs. split; [done|].
  intros is_active. unfold personification.format_window_for_display. by rewrite Hs.
Qed.

Lemma persona_is_kept_witness :
  let py := mkStrMethods (λ s _ _, s) (λ s, s) (λ s, s) (λ s, s)
              (λ s, substring 0 1 s) (λ s, substring 1 (String.length s - 1) s) in
  let self := personification.PersonificationManager_init personification.DIVERSE_PEOPLE in
  ∃ persona,
    personification._window_to_persona
      (personification.mkPersonificationManager
         {[ 7 := personification.mkPersona "chrome.exe" "🌐" ]}
         {[ "chrome.exe" := 0%nat ]} personification.DIVERSE_PEOPLE 0) !! 7
    = Some persona ∧
    personification.name persona = "chrome.exe".
Proof.
  intros py self.
  destruct (persona_is_kept py 0 7 "New Tab" "chrome.exe" self
              (personification.mkPersonificationManager
                 {[ 7 := personification.mkPersona "chrome.exe" "🌐" ]}
                 {[ "chrome.exe" := 0%nat ]} personification.DIVERSE_PEOPLE 0)
              "chrome.exe" "🌐 reading on the couch" []
              (personification.mkPersonificationManager
                 {[ 7 := personification.mkPersona "chrome.exe" "🌐" ]}
                 {[ "chrome.exe" := 0%nat ]} personification.DIVERSE_PEOPLE 0))
    as (persona & H1 & H2 & _).
  - vm_compute. reflexivity.
  - apply not_elem_of_nil.
  - apply not_elem_of_nil.
  - reflexivity.
  - exists persona. split; [exact H1 | exact H2].
Defined.

(** X21.  Between two clear_all() calls no persona name is handed out twice
    for one base name: a window that gets a new persona after another window
    of the same base name did is named base #k with k >= 2 and k larger than
    the number of the earlier name. Numbers are not given back by
    remove_window, so a window closed and opened again gets a new name. *)
Theorem names_of_one_base_differ
    py self0 self1 self2 self3 later d1 h1 t1 p1 n1 a1 d2 h2 t2 p2 n2 a2 :
  personification._window_to_persona self0 !! h1 = None →
  personification.get_persona_for_window py d1 h1 t1 p1 self0 = Some (self1, (n1, a1)) →
  ClearAll ∉ later →
  persona_run py later self1 = Some self2 →
  personification._window_to_persona self2 !! h2 = None →
  personification.get_persona_for_window py d2 h2 t2 p2 self2 = Some (self3, (n2, a2)) →
  personification.base_name_of py p1 = personification.base_name_of py p2 →
  n1 ≠ n2 ∧
  ∃ number, 2 ≤ number ∧
            n2 = personification.base_name_of py p2 +:+ " #" +:+ str number ∧
            (n1 = personification.base_name_of py p1 ∨
             ∃ earlier, 2 ≤ earlier < number ∧
                        n1 = personification.base_name_of py p1 +:+ " #" +:+ str earlier).
Proof.
  intros Hnew1 Hg1 Hc Hrun Hnew2 Hg2 Hbase.
  destruct (new_persona_spec _ _ _ _ _ _ _ _ _ Hnew1 Hg1) as (_ & _ & _ & _ & H1).
  destruct (new_persona_spec _ _ _ _ _ _ _ _ _ Hnew2 Hg2) as (_ & _ & _ & _ & H2).
  simpl in H1, H2. rewrite <- Hbase in H2 |- *.
  set (b := personification.base_name_of py p1) in *.
  assert (Hu1 : ∃ u1, personification._used_names self1 !! b = Some u1 ∧
                      (n1 = b ∧ u1 = 0%nat ∨
                       n1 = b +:+ " #" +:+ str (Z.of_nat u1 + 1) ∧ (1 ≤ u1)%nat)).
  { destruct H1 as [(_ & -> & Hafter)|(used & _ & -> & Hafter)].
    - exists 0%nat. split; [done | by left].
    - exists (S used). split; [done|]. right. split; [|lia].
      by replace (Z.of_nat (S used) + 1) with (Z.of_nat used + 2) by lia. }
  destruct Hu1 as (u1 & Hu1 & Hn1).
  destruct (persona_run_used py later b self1 self2 u1 Hrun Hc Hu1) as (u2 & Hu2 & Hle).
  destruct H2 as [(Hnone & _)|(used & Hsome & -> & _)]; [congruence|].
  assert (used = u2) by congruence. subst used.
  split.
  - destruct Hn1 as [[-> ->]|[-> Hpos]].
    + intros Heq. apply (f_equal String.length) in Heq.
      rewrite append_length in Heq. simpl in Heq. lia.
    + intros Heq. apply append_inv_head in Heq. simpl in Heq.
      injection Heq as Heq. apply str_inj in Heq; lia.
  - exists (Z.of_nat u2 + 2). split; [lia|]. split; [done|].
    destruct Hn1 as [[-> ->]|[-> Hpos]]; [by left|]. right.
    exists (Z.of_nat u1 + 1). split; [lia | done].
Qed.

Lemma names_of_one_base_differ_witness :
  let py := mkStrMethods (λ s _ _, s) (λ s, s) (λ s, s) (λ s, s)
              (λ s, substring 0 1 s) (λ s, substring 1 (String.length s - 1) s) in
  let self0 := personification.PersonificationManager_init personification.DIVERSE_PEOPLE in
  let self1 :=
    personification.mkPersonificationManager
      {[ 7 := personification.mkPersona "chrome.exe" "🌐" ]}
      {[ "chrome.exe" := 0%nat ]} personification.DIVERSE_PEOPLE 0 in
  let self3 :=
    personification.mkPersonificationManager
      {[ 7 := personification.mkPersona "chrome.exe #2" "🌐" ]}
      {[ "chrome.exe" := 1%nat ]} personification.DIVERSE_PEOPLE 0 in
  personification.get_persona_for_window py 0 7 "New Tab" "chrome.exe"
    (personification.remove_window 7 self1)
  = Some (self3, ("chrome.exe #2", "🌐 reading on the couch")) ∧
  "chrome.exe" ≠ "chrome.exe #2".
Proof.
  intros py self0 self1 self3.
  assert (H : personification.get_persona_for_window py 0 7 "New Tab" "chrome.exe"
                (personification.remove_window 7 self1)
              = Some (self3, ("chrome.exe #2", "🌐 reading on the couch")))
    by (vm_compute; reflexivity).
  split; [exact H|].
  refine (proj1 (names_of_one_base_differ py self0 self1
                   (personification.remove_window 7 self1) self3 [RemoveWindow 7]
                   0 7 "New Tab" "chrome.exe" "chrome.exe" "🌐 reading on the couch"
                   0 7 "New Tab" "chrome.exe" "chrome.exe #2" "🌐 reading on the couch"
                   _ _ _ _ _ H _)).
  - reflexivity.
  - vm_compute. reflexivity.
  - intros Hin. apply list_elem_of_singleton in Hin. discriminate.
  - reflexivity.
  - vm_compute. reflexivity.
  - reflexivity.
Defined.

Lemma persona_exec_invariant py shuffled c self :
  personification._person_emoji_pool self = shuffled →
  (personification._person_emoji_index self < length shuffled)%nat →
  (∀ hwnd persona, personification._window_to_persona self !! hwnd = Some persona →
     personification.emoji persona ∈ map snd personification.EMOJI_MAP ∨
     personification.emoji persona ∈ shuffled) →
  ∃ self', persona_exec py c self = Some self' ∧
    personification._person_emoji_pool self' = shuffled ∧
    (personification._person_emoji_index self' < length shuffled)%nat ∧
    (∀ hwnd persona, personification._window_to_persona self' !! hwnd = Some persona →
       personification.emoji persona ∈ map snd personification.EMOJI_MAP ∨
       personification.emoji persona ∈ shuffled) ∧
    (personification.get_persona_count self'
     ≤ S (personification.get_persona_count self))%nat.
Proof.
  intros Hp Hi Hem.
  assert (Hget : ∀ draw hwnd title pn,
            ∃ r, personification.get_persona_for_window py draw hwnd title pn self = Some r ∧
                 personification._person_emoji_pool r.1 = shuffled ∧
                 (personification._person_emoji_index r.1 < length shuffled)%nat ∧
                 (∀ hwnd persona,
                    personification._window_to_persona r.1 !! hwnd = Some persona →
                    personification.emoji persona ∈ map snd personification.EMOJI_MAP ∨
                    personification.emoji persona ∈ shuffled) ∧
                 (personification.get_persona_count r.1
                  ≤ S (personification.get_persona_count self))%nat).
  { intros draw hwnd title pn.
    destruct (personification._window_to_persona self !! hwnd) as [persona|] eqn:Hk.
    - destruct (known_persona_spec py draw hwnd title pn self persona Hk) as (a & _ & ->).
      eexists. split; [done|]. cbn [fst]. repeat split; try done. lia.
    - assert (Hsome : is_Some (personification.get_persona_for_window py draw hwnd title pn self)).
      { unfold personification.get_persona_for_window. rewrite Hk.
        unfold personification._assign_persona.
        destruct (personification._generate_unique_name _ _ self) as [pname self1] eqn:Hg.
        assert (H1 : personification._person_emoji_pool self1 = shuffled ∧
                     personification._person_emoji_index self1
                     = personification._person_emoji_index self).
        { unfold personification._generate_unique_name in Hg.
          by destruct (personification._used_names self !! _); injection Hg as <- <-. }
        destruct H1 as (Hp1 & Hi1).
        destruct (_get_emoji_for_app_Some (str_lower py pn) self1) as [[e self2] ->];
          [by rewrite Hp1, Hi1|].
        destruct (_generate_activity_Some py draw title pn (personification.mkPersona pname e))
          as (a & -> & _). done. }
      destruct Hsome as [[self' [n a]] Hg]. exists (self', (n, a)). split; [done|].
      destruct (new_persona_spec _ _ _ _ _ _ _ _ _ Hk Hg)
        as ((persona & Hw & _ & He & _) & Hp' & Hi' & _).
      cbn [fst]. split; [by rewrite Hp'|]. split.
      { rewrite <- Hp, <- Hp'. apply Hi'. by rewrite Hp. }
      split.
      + intros h p. rewrite Hw. intros Hl.
        apply lookup_insert_Some in Hl as [[_ <-]|[_ Hl]]; [|by eapply Hem].
        by rewrite Hp in He.
      + unfold personification.get_persona_count. rewrite Hw.
        by rewrite map_size_insert_None. }
  destruct c as [draw hwnd title pn|draw hwnd title pn act|hwnd|]; simpl.
  - destruct (Hget draw hwnd title pn) as (r & -> & H). by exists r.1.
  - rewrite format_window_get.
    destruct (Hget draw hwnd title pn) as (r & -> & H). by exists r.1.
  - eexists. split; [done|]. unfold personification.remove_window.
    destruct (personification._window_to_persona self !! hwnd) as [p|] eqn:Hk; simpl.
    + split; [done|]. split; [done|]. split.
      * intros h q Hl. apply lookup_delete_Some in Hl as [_ Hl]. by eapply Hem.
      * unfold personification.get_persona_count. simpl.
        rewrite map_size_delete, Hk. lia.
    + repeat split; try done. lia.
  - eexists. split; [done|]. simpl. split; [done|]. split; [done|]. split.
    + intros h q Hl. by rewrite lookup_empty in Hl.
    + unfold personification.get_persona_count. simpl. rewrite map_size_empty. lia.
Qed.

(** X22.  A PersonificationManager whose emoji pool is a shuffle of
    DIVERSE_PEOPLE never raises, whatever calls are made: the pool index stays
    below 41, every random.choice is over a non-empty list of activities,
    get_persona_count() is at most the number of calls made, and the emoji of
    every persona comes from EMOJI_MAP or DIVERSE_PEOPLE. *)
Theorem personification_never_raises py shuffled calls :
  shuffled ≡ₚ personification.DIVERSE_PEOPLE →
  ∃ self,
    persona_run py calls (personification.PersonificationManager_init shuffled)
    = Some self ∧
    personification._person_emoji_pool self = shuffled ∧
    (personification._person_emoji_index self < 41)%nat ∧
    (personification.get_persona_count self ≤ length calls)%nat ∧
    (∀ hwnd persona, personification._window_to_persona self !! hwnd = Some persona →
       personification.emoji persona ∈ map snd personification.EMOJI_MAP ∨
       personification.emoji persona ∈ personification.DIVERSE_PEOPLE).
Proof.
  intros Hperm.
  assert (Hlen : length shuffled = 41%nat) by (by rewrite Hperm).
  assert (Hgen : ∀ self,
            personification._person_emoji_pool self = shuffled →
            (personification._person_emoji_index self < length shuffled)%nat →
            (∀ hwnd persona, personification._window_to_persona self !! hwnd = Some persona →
               personification.emoji persona ∈ map snd personification.EMOJI_MAP ∨
               personification.emoji persona ∈ shuffled) →
            ∃ self', persona_run py calls self = Some self' ∧
              personification._person_emoji_pool self' = shuffled ∧
              (personification._person_emoji_index self' < length shuffled)%nat ∧
              (personification.get_persona_count self'
               ≤ personification.get_persona_count self + length calls)%nat ∧
              (∀ hwnd persona,
                 personification._window_to_persona self' !! hwnd = Some persona →
                 personification.emoji persona ∈ map snd personification.EMOJI_MAP ∨
                 personification.emoji persona ∈ shuffled)).
  { induction calls as [|c calls IH]; intros self Hp Hi Hem; simpl.
    - exists self. repeat split; try done. lia.
    - destruct (persona_exec_invariant py shuffled c self Hp Hi Hem)
        as (self1 & -> & Hp1 & Hi1 & Hem1 & Hc1).
      destruct (IH self1 Hp1 Hi1 Hem1) as (self' & Hrun & Hp' & Hi' & Hc' & Hem').
      exists self'. repeat split; try done. lia. }
  destruct (Hgen (personification.PersonificationManager_init shuffled))
    as (self & Hrun & Hp & Hi & Hc & Hem).
  - done.
  - simpl. lia.
  - intros h p Hl. simpl in Hl. by rewrite lookup_empty in Hl.
  - exists self. split; [done|]. split; [done|]. split; [lia|]. split.
    + unfold personification.get_persona_count in *. simpl in Hc.
      rewrite map_size_empty in Hc. lia.
    + intros h p Hl. destruct (Hem h p Hl) as [?|Hin]; [by left|].
      right. by rewrite <- Hperm.
Qed.

Lemma personification_never_raises_witness :
  let py := mkStrMethods (λ s _ _, s) (λ s, s) (λ s, s) (λ s, s)
              (λ s, substring 0 1 s) (λ s, substring 1 (String.length s - 1) s) in
  ∃ self,
    persona_run py [GetPersona 0 7 "New Tab" "chrome.exe"; RemoveWindow 7]
      (personification.PersonificationManager_init personification.DIVERSE_PEOPLE)
    = Some self.
Proof.
  intros py.
  destruct (personification_never_raises py personification.DIVERSE_PEOPLE
              [GetPersona 0 7 "New Tab" "chrome.exe"; RemoveWindow 7])
    as (self & H & _); [reflexivity|].
  exists self. exact H.
Defined.
